(** * csv-aggregator: the table pipeline of [backend/csv_handler.py]

    A shallow embedding of the four stages of the pipeline
    (parse, validate, compare, report) and the properties the
    specification states about them.

    Conventions of the embedding.
    - A pandas [Series] is a dtype-tagged sequence: a numeric column
      holds [option Z] cells ([None] is NaN), an object column holds
      [option string] cells.  Numbers are exact integers: the rounding
      of float64 and the overflow of int64 are outside the model, and so
      are the bool and complex dtypes.
    - A [DataFrame] is the ordered list of its labelled columns.  The
      frames the handlers receive have unique labels; [merge] is the one
      operation that can give a frame with a repeated label, and
      [getitem] tells that case apart.
    - Python exceptions are explicit: a function that can raise returns
      a sum or an option, and every [try]/[except] of the source is a
      [match] on it.
    - [pd.read_csv] and the text layer of [open] are parameters of the
      parser: functions of the bytes of the file and of the arguments of
      the call.  The parser runs in a writer monad that records every
      access to the file system.
    - The validator runs in a state monad over a store of frames, so
      that [copy] and assignment to a column are what they are in
      Python. *)

From Stdlib Require Import ssreflect ZArith Ascii String Strings.Byte List Lia.
From stdpp Require Import base option list strings gmap sorting pretty.

Local Open Scope string_scope.
Local Open Scope list_scope.
Local Open Scope general_if_scope.

(** ** pandas: the part of the library the handlers use *)
Module Pandas.

(** A column: a numeric column (int64 or float64) that holds integers
    or NaN, or an object column that holds strings or missing cells.
    Columns of the other dtypes (bool, datetime) are not part of the
    embedding. *)
Inductive Series :=
| NumSeries (vals : list (option Z))
| ObjSeries (vals : list (option string)).

(** A value read out of a column: a number or NaN on the left, a string
    or a missing object cell on the right. *)
Abbreviation cell := (option Z + option string)%type.

Abbreviation DataFrame := (list (string * Series)).

Definition series_len (s : Series) : nat :=
  match s with
  | NumSeries v => length v
  | ObjSeries v => length v
  end.

Definition series_cells (s : Series) : list cell :=
  match s with
  | NumSeries v => map inl v
  | ObjSeries v => map inr v
  end.

(** [pd.api.types.is_numeric_dtype] *)
Definition is_numeric_dtype (s : Series) : bool :=
  match s with
  | NumSeries _ => true
  | ObjSeries _ => false
  end.

Definition is_none {A} (x : option A) : bool :=
  match x with
  | None => true
  | Some _ => false
  end.

(** [s.isna().any()], [s.isna().all()] and [s.notna().sum()] *)
Definition isna_any (s : Series) : bool :=
  match s with
  | NumSeries v => existsb is_none v
  | ObjSeries v => existsb is_none v
  end.

Definition isna_all (s : Series) : bool :=
  match s with
  | NumSeries v => forallb is_none v
  | ObjSeries v => forallb is_none v
  end.

Definition notna_sum (s : Series) : nat :=
  match s with
  | NumSeries v => length (filter (λ x, is_none x = false) v)
  | ObjSeries v => length (filter (λ x, is_none x = false) v)
  end.

(** [df.columns], [len(df.columns)], [len(df)] and [df.empty] *)
Definition columns (df : DataFrame) : list string := map fst df.

Definition ncols (df : DataFrame) : nat := length df.

Definition nrows (df : DataFrame) : nat :=
  match df with
  | [] => 0
  | (_, s) :: _ => series_len s
  end.

Definition empty (df : DataFrame) : bool :=
  (ncols df =? 0)%nat || (nrows df =? 0)%nat.

(** [label in df.columns] *)
Definition has_column (df : DataFrame) (label : string) : bool :=
  bool_decide (label ∈ columns df).

(** [df[label]].  A label carried by one column selects that column as a
    Series; a label carried by several columns selects a DataFrame. *)
Inductive selection :=
| NoColumn
| OneColumn (s : Series)
| ManyColumns.

Definition getitem (df : DataFrame) (label : string) : selection :=
  match filter (λ c, c.1 = label) df with
  | [] => NoColumn
  | [(_, s)] => OneColumn s
  | _ => ManyColumns
  end.

(** First column with the label, for frames whose labels are unique. *)
Fixpoint get_column (df : DataFrame) (label : string) : option Series :=
  match df with
  | [] => None
  | (c, s) :: rest => if decide (c = label) then Some s else get_column rest label
  end.

(** [df[label] = s] on a frame with unique labels: replace in place, or
    append a new last column. *)
Fixpoint setitem (df : DataFrame) (label : string) (s : Series) : DataFrame :=
  match df with
  | [] => [(label, s)]
  | (c, old) :: rest =>
      if decide (c = label) then (c, s) :: rest else (c, old) :: setitem rest label s
  end.

(** [df[labels]]: the listed columns in the listed order; KeyError when
    one of them is missing. *)
Fixpoint select (df : DataFrame) (labels : list string) : string + DataFrame :=
  match labels with
  | [] => inr []
  | l :: rest =>
      match get_column df l, select df rest with
      | None, _ => inl ("KeyError: " +:+ l)
      | Some _, inl e => inl e
      | Some s, inr cols => inr ((l, s) :: cols)
      end
  end.

(** [s.take(indexer)] for in-range positions *)
Definition take_vals {A} (v : list (option A)) (indexer : list nat) : list (option A) :=
  map (λ i, default None (v !! i)) indexer.

Definition take (s : Series) (indexer : list nat) : Series :=
  match s with
  | NumSeries v => NumSeries (take_vals v indexer)
  | ObjSeries v => ObjSeries (take_vals v indexer)
  end.

(** The row pairs of an inner join: every pair of a left and a right
    position that carry the same key (NaN keys match NaN keys, as in
    pandas).  The pairs are listed by left position, then by right
    position; the properties below depend on the pairs only, not on
    their order. *)
Fixpoint matching_positions {K} `{EqDecision K} (k : K) (j : nat) (rk : list K) : list nat :=
  match rk with
  | [] => []
  | k' :: rest =>
      if decide (k' = k) then j :: matching_positions k (S j) rest
      else matching_positions k (S j) rest
  end.

Fixpoint inner_join_from {K} `{EqDecision K} (i : nat) (lk rk : list K) : list (nat * nat) :=
  match lk with
  | [] => []
  | k :: rest => map (pair i) (matching_positions k 0 rk) ++ inner_join_from (S i) rest rk
  end.

Definition inner_join_indexers {K} `{EqDecision K} (lk rk : list K) : list (nat * nat) :=
  inner_join_from 0 lk rk.

Definition join_keys (lkey rkey : Series) : string + list (nat * nat) :=
  match lkey, rkey with
  | NumSeries a, NumSeries b => inr (inner_join_indexers a b)
  | ObjSeries a, ObjSeries b => inr (inner_join_indexers a b)
  | _, _ => inl "ValueError: You are trying to merge on object and numeric columns"
  end.

(** Suffixes go to the labels both sides carry, the key apart; a label
    only one side carries keeps its name. *)
Definition rename_overlap (overlap : list string) (suffix : string) (label : string) : string :=
  if bool_decide (label ∈ overlap) then label +:+ suffix else label.

Definition without (on : string) (df : DataFrame) : DataFrame :=
  filter (λ c, c.1 ≠ on) df.

(** [pd.merge(left, right, on=on, suffixes=(lsuffix, rsuffix), how='inner')] *)
Definition merge (left right : DataFrame) (on lsuffix rsuffix : string) : string + DataFrame :=
  match get_column left on, get_column right on with
  | None, _ | _, None => inl ("KeyError: " +:+ on)
  | Some lkey, Some rkey =>
      match join_keys lkey rkey with
      | inl e => inl e
      | inr indexers =>
          let right' := without on right in
          let overlap := filter (λ l, l ∈ columns right') (columns (without on left)) in
          let llabels := map (rename_overlap overlap lsuffix) (columns left) in
          let rlabels := map (rename_overlap overlap rsuffix) (columns right') in
          if bool_decide (NoDup llabels ∧ NoDup rlabels) then
            inr (zip llabels (map (λ c, take c.2 (indexers.*1)) left)
                 ++ zip rlabels (map (λ c, take c.2 (indexers.*2)) right'))
          else inl "MergeError: Passing 'suffixes' which cause duplicate columns is not allowed."
      end
  end.

(** [(a - b).abs()] on two numeric columns of one frame; NaN on either
    side gives NaN.  The integer is the one the code computes as long as
    the cells are at most 2^52 in magnitude; beyond that int64 wraps
    around and float64 rounds. *)
Definition abs_diff (x y : option Z) : option Z :=
  match x, y with
  | Some u, Some v => Some (Z.abs (u - v))
  | _, _ => None
  end.

Definition sub_abs (a b : list (option Z)) : list (option Z) := zip_with abs_diff a b.

(** [pd.DataFrame({k1: v1, k2: v2})]: a dict literal keeps one entry per
    key, the later value in the place of the earlier key. *)
Definition frame_of_dict2 (k1 : string) (v1 : Series) (k2 : string) (v2 : Series) : DataFrame :=
  if decide (k1 = k2) then [(k1, v2)] else [(k1, v1); (k2, v2)].

(** *** Vocabulary of the properties *)
(** How often a value occurs in a list. *)
Definition occurrences {K} `{EqDecision K} (k : K) (l : list K) : nat :=
  length (filter (λ x, x = k) l).

(** The cells of the key column of a frame. *)
Definition key_cells (df : DataFrame) (operation_column : string) : list cell :=
  series_cells (default (ObjSeries []) (get_column df operation_column)).

(** A label that does not end in one of the merge suffixes. *)
Definition plain_label (l : string) : Prop :=
  ∀ pre, l ≠ pre +:+ "_REF" ∧ l ≠ pre +:+ "_OTH".

End Pandas.

(** ** TableParser: [read_csv_files] and its helpers *)
Module Parser.
Import Pandas.

Inductive encoding := Utf8Sig | Utf8 | Latin1.

Definition encoding_name (e : encoding) : string :=
  match e with
  | Utf8Sig => "utf-8-sig"
  | Utf8 => "utf-8"
  | Latin1 => "latin-1"
  end.

#[global] Instance encoding_eq_dec : EqDecision encoding.
Proof. solve_decision. Defined.

(** The exceptions the handlers tell apart, with [type(e).__name__] and
    [str(e)] for the others. *)
Inductive exn :=
| ParserError (msg : string)
| EmptyDataError (msg : string)
| OtherError (type_name msg : string).

Definition exn_type_name (e : exn) : string :=
  match e with
  | ParserError _ => "ParserError"
  | EmptyDataError _ => "EmptyDataError"
  | OtherError n _ => n
  end.

Definition exn_message (e : exn) : string :=
  match e with
  | ParserError m | EmptyDataError m | OtherError _ m => m
  end.

(** The upload folder: what a path names is a readable file with its
    bytes, or something [open] fails on; a path may also name nothing. *)
Inductive node :=
| RegularFile (content : list byte)
| Unreadable.

Abbreviation FileSystem := (string → option node).

(** The keyword arguments of the three kinds of [pd.read_csv] call. *)
Record read_options := {
  sep : option ascii;          (* [None]: sniff the delimiter *)
  python_engine : bool;
  names : option (list string); (* [Some]: [header=None, names=...] *)
  enc : encoding
}.

Definition sniff_options (e : encoding) : read_options :=
  {| sep := None; python_engine := true; names := None; enc := e |}.

Definition delimited_options (delim : ascii) (e : encoding) : read_options :=
  {| sep := Some delim; python_engine := false; names := None; enc := e |}.

(** [sep="\a"]: the bell character, which no text line is expected to
    hold. *)
Definition bell : ascii := ascii_of_nat 7.

Definition single_column_options (e : encoding) : read_options :=
  {| sep := Some bell; python_engine := true; names := Some ["data"]; enc := e |}.

(** What the handlers do to the file system, in order. *)
Inductive io_event :=
| PathExists (path : string)
| ReadBytes (path : string) (size : nat)
| ReadText (path : string) (e : encoding)
| ReadCsv (path : string) (opts : read_options).

(** A computation with its trace of file-system events. *)
Definition IO (A : Type) : Type := A * list io_event.

Definition io_ret {A} (a : A) : IO A := (a, []).

Definition io_bind {A B} (k : A → IO B) (m : IO A) : IO B :=
  let (a, t1) := m in let (b, t2) := k a in (b, t1 ++ t2).

Definition io_map {A B} (f : A → B) (m : IO A) : IO B := (f m.1, m.2).

#[global] Instance IO_mret : MRet IO := @io_ret.
#[global] Instance IO_mbind : MBind IO := @io_bind.
#[global] Instance IO_fmap : FMap IO := @io_map.

Definition emit (ev : io_event) : IO unit := (tt, [ev]).

(** Text is kept in its UTF-8 form; the byte-order mark U+FEFF is then
    the three bytes EF BB BF. *)
Definition bom : string :=
  String (ascii_of_nat 239) (String (ascii_of_nat 187) (String (ascii_of_nat 191) EmptyString)).

Fixpoint startswith (pre s : string) : bool :=
  match pre, s with
  | EmptyString, _ => true
  | String a pre', String b s' => bool_decide (a = b) && startswith pre' s'
  | String _ _, EmptyString => false
  end.

Fixpoint drop_string (n : nat) (s : string) : string :=
  match n, s with
  | S n', String _ s' => drop_string n' s'
  | _, _ => s
  end.

(** [s.replace(old, '', 1)] for a non-empty [old] *)
Fixpoint remove_first (old s : string) : string :=
  if startswith old s then drop_string (String.length old) s
  else match s with
       | EmptyString => EmptyString
       | String c s' => String c (remove_first old s')
       end.

(** [delim in s] for a one-character [delim], and [s.split(delim)] *)
Fixpoint contains (delim : ascii) (s : string) : bool :=
  match s with
  | EmptyString => false
  | String c s' => bool_decide (c = delim) || contains delim s'
  end.

Fixpoint split (delim : ascii) (s : string) : list string :=
  match s with
  | EmptyString => [EmptyString]
  | String c s' =>
      if decide (c = delim) then EmptyString :: split delim s'
      else match split delim s' with
           | [] => [String c EmptyString]
           | part :: parts => String c part :: parts
           end
  end.

(** [str.strip()], for the ASCII white space *)
Definition is_space (c : ascii) : bool :=
  let n := nat_of_ascii c in
  ((9 <=? n)%nat && (n <=? 13)%nat) || ((28 <=? n)%nat && (n <=? 32)%nat).

Fixpoint lstrip (s : string) : string :=
  match s with
  | String c s' => if is_space c then lstrip s' else s
  | EmptyString => EmptyString
  end.

Fixpoint rstrip (s : string) : string :=
  match s with
  | EmptyString => EmptyString
  | String c s' =>
      match rstrip s' with
      | EmptyString => if is_space c then EmptyString else String c EmptyString
      | rest => String c rest
      end
  end.

Definition strip (s : string) : string := rstrip (lstrip s).

(** [sep.join(parts)] *)
Fixpoint join (sepr : string) (parts : list string) : string :=
  match parts with
  | [] => EmptyString
  | [p] => p
  | p :: rest => p +:+ sepr +:+ join sepr rest
  end.

(** [os.path.join(a, b)] on POSIX *)
Definition os_path_join (a b : string) : string :=
  if startswith "/" b then b
  else if bool_decide (a = EmptyString) || startswith "/" (String.rev a) then a +:+ b
  else a +:+ "/" +:+ b.

(** [common_delimiters] and [encodings_to_try] *)
Definition common_delimiters : list ascii := [","; ";"; ascii_of_nat 9; "|"]%char.
Definition encodings_to_try : list encoding := [Utf8Sig; Utf8; Latin1].

Definition binary_message : string :=
  "File appears to be binary or contains null bytes, making it unparseable as CSV.".

Definition no_columns_message : string :=
  "Parsed as an empty table with no columns. Content might be invalid or truly empty.".

Definition not_found_message (full_path : string) : string :=
  "File not found: " +:+ full_path.

Definition could_not_parse_message (parse_error_messages : list string) : string :=
  "Could not parse CSV. Tried encodings ['utf-8-sig', 'utf-8', 'latin-1']."
  +:+ match parse_error_messages with
      | [] => EmptyString
      | _ => " Specific errors: " +:+ join "; " parse_error_messages
      end.

Definition empty_file_message (e : encoding) : string :=
  "Encoding '" +:+ encoding_name e +:+ "': File is empty.".

Definition attempt_error_message (e : encoding) (x : exn) : string :=
  "Encoding '" +:+ encoding_name e +:+ "': Error " +:+ exn_type_name x +:+ " - "
  +:+ exn_message x.

(** One item of [dataframes_data] and one of [errors_data]. *)
Record ParsedItem := {
  filename : string;
  dataframe : DataFrame
}.

Record ErrorItem := {
  e_filename : string;
  e_error : string
}.

Section WithReader.

(** pandas and the text layer, as functions of the bytes of the file:
    [read_csv content opts] is what [pd.read_csv] returns or raises on a
    file with these bytes; [text_lines content e n] is the first lines,
    at most [n], that iterating [open(path, 'r', encoding=e)] yields,
    [None] when it raises. *)
Variable read_csv : list byte → read_options → exn + DataFrame.
Variable text_lines : list byte → encoding → nat → option (list string).

Variable fs : FileSystem.

Definition os_path_exists (path : string) : IO bool :=
  _ ← emit (PathExists path);
  mret (bool_decide (is_Some (fs path))).

Definition pd_read_csv (filepath : string) (opts : read_options) : IO (exn + DataFrame) :=
  _ ← emit (ReadCsv filepath opts);
  mret (match fs filepath with
        | Some (RegularFile content) => read_csv content opts
        | Some Unreadable => inl (OtherError "PermissionError" filepath)
        | None => inl (OtherError "FileNotFoundError" filepath)
        end).

Definition _get_file_lines (filepath : string) (e : encoding) (max_lines : nat)
  : IO (option (list string)) :=
  _ ← emit (ReadText filepath e);
  mret (match fs filepath with
        | Some (RegularFile content) => map strip <$> text_lines content e max_lines
        | _ => None
        end).

Definition _is_likely_binary_from_chunk (filepath : string) (chunk_size : nat) : IO bool :=
  _ ← emit (ReadBytes filepath chunk_size);
  mret (match fs filepath with
        | Some (RegularFile content) => existsb (Byte.eqb x00) (firstn chunk_size content)
        | _ => true
        end).

(** Strategy 1, the header-only case: the loop over the delimiters that
    occur in the single header label. *)
Fixpoint reparse_header (filepath : string) (e : encoding) (header_str : string)
    (delims : list ascii) : IO (option DataFrame) :=
  match delims with
  | [] => mret None
  | delim_char :: rest =>
      if contains delim_char header_str && (1 <? length (split delim_char header_str))%nat then
        r ← pd_read_csv filepath (delimited_options delim_char e);
        match r with
        | inr df_reparsed_header =>
            if (1 <? ncols df_reparsed_header)%nat then mret (Some df_reparsed_header)
            else reparse_header filepath e header_str rest
        | inl _ => reparse_header filepath e header_str rest
        end
      else reparse_header filepath e header_str rest
  end.

(** Strategy 2: the loop over [common_delimiters]. *)
Fixpoint try_delimiters (filepath : string) (e : encoding) (delims : list ascii)
    (current_best_df : option DataFrame) : IO (option DataFrame) :=
  match delims with
  | [] => mret current_best_df
  | delim :: rest =>
      r ← pd_read_csv filepath (delimited_options delim e);
      match r with
      | inr df_try =>
          if (1 <? ncols df_try)%nat then mret (Some df_try)
          else
            try_delimiters filepath e rest
              (match current_best_df with
               | None => Some df_try
               | Some best =>
                   if (ncols best =? 1)%nat && empty best && negb (empty df_try)
                   then Some df_try else Some best
               end)
      | inl _ => try_delimiters filepath e rest current_best_df
      end
  end.

Definition _try_parse_csv_with_encoding (filepath : string) (e : encoding)
    (delims : list ascii) : IO (exn + option DataFrame) :=
  r ← pd_read_csv filepath (sniff_options e);
  match r with
  | inr df_attempt =>
      if (1 <? ncols df_attempt)%nat then mret (inr (Some df_attempt))
      else
        reparsed ←
          (match df_attempt with
           | [(header_str, col)] =>
               if (series_len col =? 0)%nat
               then reparse_header filepath e header_str delims
               else mret None
           | _ => mret None
           end);
        match reparsed with
        | Some df_reparsed_header => mret (inr (Some df_reparsed_header))
        | None => inr <$> try_delimiters filepath e delims (Some df_attempt)
        end
  | inl (ParserError msg) => mret (inl (ParserError msg))
  | inl _ => inr <$> try_delimiters filepath e delims None
  end.

(** The byte-order mark left in the first label, for [utf-8-sig]. *)
Definition strip_bom (e : encoding) (df : DataFrame) : DataFrame :=
  match e, df with
  | Utf8Sig, (first, _) :: _ =>
      if startswith bom first then map (λ c, (remove_first bom c.1, c.2)) df else df
  | _, _ => df
  end.

Definition better (e : encoding) (current : DataFrame) (best : option DataFrame) : DataFrame :=
  match best with
  | None => current
  | Some b =>
      if (ncols b <? ncols current)%nat
         || (bool_decide (e = Utf8Sig) && (ncols b <=? ncols current)%nat)
      then current else b
  end.

(** The loop over [encodings_to_try], with [best_df_for_file] and
    [parse_error_messages]. *)
Fixpoint try_encodings (full_path : string) (delims : list ascii) (encs : list encoding)
    (best_df_for_file : option DataFrame) (parse_error_messages : list string)
  : IO (option DataFrame * list string) :=
  match encs with
  | [] => mret (best_df_for_file, parse_error_messages)
  | e :: rest =>
      r ← _try_parse_csv_with_encoding full_path e delims;
      match r with
      | inr None => try_encodings full_path delims rest best_df_for_file parse_error_messages
      | inr (Some current_attempt_df) =>
          let best := better e (strip_bom e current_attempt_df) best_df_for_file in
          if (1 <? ncols best)%nat then mret (Some best, parse_error_messages)
          else try_encodings full_path delims rest (Some best) parse_error_messages
      | inl (EmptyDataError _) =>
          mret (Some (default [] best_df_for_file),
                parse_error_messages ++ [empty_file_message e])
      | inl x =>
          try_encodings full_path delims rest best_df_for_file
                        (parse_error_messages ++ [attempt_error_message e x])
      end
  end.

(** The check for over-splitting of plain text. *)
Definition correct_over_splitting (full_path : string) (delims : list ascii)
    (best_df_for_file : DataFrame) : IO DataFrame :=
  if (1 <? ncols best_df_for_file)%nat && (0 <? nrows best_df_for_file)%nat then
    lines ← _get_file_lines full_path Utf8Sig 5;
    let first_few_lines_content := join " " (default [] lines) in
    if negb (existsb (λ delim, contains delim first_few_lines_content) delims) then
      r ← pd_read_csv full_path (single_column_options Utf8Sig);
      match r with
      | inr single_col_df =>
          if (ncols single_col_df =? 1)%nat then mret single_col_df else mret best_df_for_file
      | inl _ => mret best_df_for_file
      end
    else mret best_df_for_file
  else mret best_df_for_file.

(** The body of [for filename in relative_file_paths]. *)
Definition read_csv_file (filename : string) (base_upload_folder : string)
  : IO (ErrorItem + ParsedItem) :=
  let full_path := os_path_join base_upload_folder filename in
  found ← os_path_exists full_path;
  if negb found then
    mret (inl {| e_filename := filename; e_error := not_found_message full_path |})
  else
    binary ← _is_likely_binary_from_chunk full_path 1024;
    if (binary : bool) then
      mret (inl {| e_filename := filename; e_error := binary_message |})
    else
      '(best, parse_error_messages) ←
        try_encodings full_path common_delimiters encodings_to_try None [];
      match best with
      | Some best_df =>
          best_df_for_file ← correct_over_splitting full_path common_delimiters best_df;
          if empty best_df_for_file && (ncols best_df_for_file =? 0)%nat then
            mret (inl {| e_filename := filename; e_error := no_columns_message |})
          else mret (inr (Build_ParsedItem filename best_df_for_file))
      | None =>
          mret (inl {| e_filename := filename;
                       e_error := could_not_parse_message parse_error_messages |})
      end.

Fixpoint read_csv_loop (relative_file_paths : list string) (base_upload_folder : string)
    (dataframes_data : list ParsedItem) (errors_data : list ErrorItem)
  : IO (list ParsedItem * list ErrorItem) :=
  match relative_file_paths with
  | [] => mret (dataframes_data, errors_data)
  | filename :: rest =>
      r ← read_csv_file filename base_upload_folder;
      match r with
      | inl err => read_csv_loop rest base_upload_folder dataframes_data (errors_data ++ [err])
      | inr item => read_csv_loop rest base_upload_folder (dataframes_data ++ [item]) errors_data
      end
  end.

Definition read_csv_files (relative_file_paths : list string) (base_upload_folder : string)
  : IO (list ParsedItem * list ErrorItem) :=
  read_csv_loop relative_file_paths base_upload_folder [] [].

End WithReader.

(** *** Vocabulary of the properties *)
(** The tables and the diagnostics among the outcomes of the files. *)
Definition parsed_items (outcomes : list (ErrorItem + ParsedItem)) : list ParsedItem :=
  omap (λ o, match o with inr item => Some item | inl _ => None end) outcomes.

Definition error_items (outcomes : list (ErrorItem + ParsedItem)) : list ErrorItem :=
  omap (λ o, match o with inl e => Some e | inr _ => None end) outcomes.

End Parser.

(** Example files and an example reader. *)
Module ParserExamples.
Import Pandas Parser.

Definition line_feed : ascii := ascii_of_nat 10.

(** The text files of the examples. *)
Definition header_only_text : string := "a,b,c".
Definition spaced_header_text : string := "a b c".
Definition plain_text : string :=
  "single_value_line1" +:+ String line_feed "single_value_line2".
Definition blank_text : string := String line_feed EmptyString.

Definition abc_frame : DataFrame :=
  [("a", ObjSeries []); ("b", ObjSeries []); ("c", ObjSeries [])].

Definition over_split_frame : DataFrame :=
  [("sing", ObjSeries [Some "sing"]); ("e_va", ObjSeries [Some "e_va"]);
   ("ue_", ObjSeries [Some "ue_"]); ("ine1", ObjSeries [Some "ine2"])].

Definition one_column (label : string) (rows : list string) : DataFrame :=
  [(label, ObjSeries (map Some rows))].

(** A reader for the example files.  On the header-only files the
    sniffer picks the comma and the blank; on the two plain lines it
    picks the letter l, which splits them into four columns; the file
    that is one line break stands for a parse without columns. *)
Definition example_read_csv (content : list byte) (opts : read_options) : exn + DataFrame :=
  let text := string_of_list_byte content in
  if decide (text = header_only_text) then
    match sep opts with
    | None => inr abc_frame
    | Some d =>
        if decide (d = ","%char) then inr abc_frame
        else if decide (d = bell) then inr (one_column "data" [header_only_text])
        else inr (one_column header_only_text [])
    end
  else if decide (text = spaced_header_text) then
    match sep opts with
    | None => inr abc_frame
    | Some d =>
        if decide (d = bell) then inr (one_column "data" [spaced_header_text])
        else inr (one_column spaced_header_text [])
    end
  else if decide (text = plain_text) then
    match sep opts with
    | None => inr over_split_frame
    | Some d =>
        if decide (d = bell)
        then inr (one_column "data" ["single_value_line1"; "single_value_line2"])
        else inr (one_column "single_value_line1" ["single_value_line2"])
    end
  else if decide (text = blank_text) then inr []
  else inl (EmptyDataError "No columns to parse from file").

Definition example_text_lines (content : list byte) (e : encoding) (max_lines : nat)
  : option (list string) :=
  match content with
  | [] => Some []
  | _ => Some (firstn max_lines (split line_feed (string_of_list_byte content)))
  end.

(** The bytes of the repository's binary test file. *)
Definition png_bytes : list byte :=
  [x89; x50; x4e; x47; x0d; x0a; x1a; x0a; x00; x01; x02; x03; xde; xad; xbe; xef].

(** A folder that holds the listed files. *)
Definition folder (base : string) (files : list (string * list byte)) : FileSystem :=
  λ path,
    match list_find (λ f, os_path_join base f.1 = path) files with
    | Some (_, f) => Some (RegularFile f.2)
    | None => None
    end.

Definition example_files : list (string * list byte) :=
  [("header_only.csv", list_byte_of_string header_only_text);
   ("spaced.txt", list_byte_of_string spaced_header_text);
   ("single_col_text.txt", list_byte_of_string plain_text);
   ("blank.csv", list_byte_of_string blank_text);
   ("unparseable.bin", png_bytes)].

Definition uploads : FileSystem := folder "uploads" example_files.
Definition archive : FileSystem := folder "archive" example_files.

End ParserExamples.

(** ** ComparisonEngine: [perform_column_comparison] *)
Module Comparison.
Import Pandas.

(** One item of [validated_dataframes_data]. *)
Record ValidatedData := {
  filename : string;
  dataframe : DataFrame;
  numeric_columns : list string
}.

Inductive warning_type :=
| SetupWarning
| DataWarning
| MergeError
| MergeWarning
| InternalLogicWarning
| ColumnMissingInOtherWarning
| DataTypeWarning.

Record Warning := {
  w_type : warning_type;
  w_message : string
}.

(** [comparison_results]: a dict from (column, reference file, other
    file) to the frame of key values and differences, as the list of its
    items in insertion order. *)
Abbreviation result_key := (string * string * string)%type.
Abbreviation Results := (list (result_key * DataFrame)).
Abbreviation State := (Results * list Warning)%type.

(** [d[k] = v]: a key the dict holds keeps its place and takes the new
    value, a new key goes to the end. *)
Fixpoint dict_set (d : Results) (k : result_key) (v : DataFrame) : Results :=
  match d with
  | [] => [(k, v)]
  | (k', v') :: rest =>
      if decide (k' = k) then (k', v) :: rest else (k', v') :: dict_set rest k v
  end.

(** [d.get(k)] *)
Fixpoint dict_get (d : Results) (k : result_key) : option DataFrame :=
  match d with
  | [] => None
  | (k', v') :: rest => if decide (k' = k) then Some v' else dict_get rest k
  end.

(** [list(set(labels))]: the distinct labels.  The order a Python set
    yields them in is not fixed; the columns selected with them are only
    ever looked up by label. *)
Definition list_set (labels : list string) : list string := remove_dups labels.

(** [[operation_column] + [col for col in numeric_cols
      if col in df.columns and col != operation_column]], made unique *)
Definition cols_to_merge (df : DataFrame) (numeric_cols : list string) (operation_column : string)
  : list string :=
  list_set (operation_column ::
            filter (λ col, col ∈ columns df ∧ col ≠ operation_column) numeric_cols).

(** The [try] block of the loop over the other tables. *)
Definition merge_pair (ref_data other_data : ValidatedData) (operation_column : string)
  : string + DataFrame :=
  match select (dataframe ref_data)
               (cols_to_merge (dataframe ref_data) (numeric_columns ref_data) operation_column) with
  | inl e => inl e
  | inr ref_part =>
      match select (dataframe other_data)
                   (cols_to_merge (dataframe other_data) (numeric_columns other_data)
                                  operation_column) with
      | inl e => inl e
      | inr other_part => merge ref_part other_part operation_column "_REF" "_OTH"
      end
  end.

Definition internal_logic_message (col_name ref_col ref_filename other_filename : string)
  : string :=
  "Reference column '" +:+ col_name +:+ "' (expected as '" +:+ ref_col
  +:+ "') was not found in merged data between '" +:+ ref_filename +:+ "' and '"
  +:+ other_filename +:+ "'. Check consistency of numeric_columns list.".

Definition column_missing_message (col_name other_col ref_filename other_filename : string)
  : string :=
  "Column '" +:+ col_name +:+ "' (from '" +:+ ref_filename
  +:+ "') did not have a corresponding numeric column in '" +:+ other_filename
  +:+ "' for comparison (expected as '" +:+ other_col +:+ "' in merged data).".

Definition data_type_message (col_name ref_col other_col ref_filename other_filename : string)
  : string :=
  "Columns for '" +:+ col_name +:+ "' ('" +:+ ref_col +:+ "' or '" +:+ other_col
  +:+ "') are not consistently numeric in merged data for '" +:+ ref_filename +:+ "' vs '"
  +:+ other_filename +:+ "'. Skipping difference calculation.".

Definition merge_error_message (ref_filename other_filename operation_column e : string) : string :=
  "Could not merge '" +:+ ref_filename +:+ "' and '" +:+ other_filename +:+ "' on '"
  +:+ operation_column +:+ "'. Error: " +:+ e.

Definition merge_warning_message (ref_filename other_filename operation_column : string) : string :=
  "Merge of '" +:+ ref_filename +:+ "' and '" +:+ other_filename +:+ "' on '"
  +:+ operation_column +:+ "' resulted in an empty DataFrame. No common '"
  +:+ operation_column +:+ "' values.".

Definition warn (st : State) (t : warning_type) (msg : string) : State :=
  (st.1, st.2 ++ [{| w_type := t; w_message := msg |}]).

(** The body of [for col_name in ref_numeric_cols].  [None] is an
    exception that leaves the function: building the result frame from a
    key label that several merged columns carry.  (The subtraction
    raises on two bool columns, which the embedding does not have.) *)
Definition compare_column (operation_column ref_filename other_filename : string)
    (merged_df : DataFrame) (st : State) (col_name : string) : option State :=
  let ref_col := col_name +:+ "_REF" in
  let other_col := col_name +:+ "_OTH" in
  if negb (has_column merged_df ref_col) then
    Some (warn st InternalLogicWarning
               (internal_logic_message col_name ref_col ref_filename other_filename))
  else if negb (has_column merged_df other_col) then
    Some (warn st ColumnMissingInOtherWarning
               (column_missing_message col_name other_col ref_filename other_filename))
  else
    match getitem merged_df ref_col, getitem merged_df other_col with
    | OneColumn (NumSeries r), OneColumn (NumSeries o) =>
        let diff_series := NumSeries (sub_abs r o) in
        match getitem merged_df operation_column with
        | OneColumn keys =>
            Some (dict_set st.1 (col_name, ref_filename, other_filename)
                           (frame_of_dict2 operation_column keys "difference" diff_series),
                  st.2)
        | _ => None
        end
    | _, _ =>
        Some (warn st DataTypeWarning
                   (data_type_message col_name ref_col other_col ref_filename other_filename))
    end.

Fixpoint compare_columns (operation_column ref_filename other_filename : string)
    (merged_df : DataFrame) (st : State) (cols : list string) : option State :=
  match cols with
  | [] => Some st
  | col_name :: rest =>
      match compare_column operation_column ref_filename other_filename merged_df st col_name with
      | None => None
      | Some st' => compare_columns operation_column ref_filename other_filename merged_df st' rest
      end
  end.

(** The body of [for i in range(1, len(validated_dataframes_data))]. *)
Definition compare_pair (operation_column : string) (ref_data : ValidatedData)
    (st : State) (other_data : ValidatedData) : option State :=
  match merge_pair ref_data other_data operation_column with
  | inl e =>
      Some (warn st MergeError
                 (merge_error_message (filename ref_data) (filename other_data) operation_column e))
  | inr merged_df =>
      if empty merged_df then
        Some (warn st MergeWarning
                   (merge_warning_message (filename ref_data) (filename other_data)
                                          operation_column))
      else
        compare_columns operation_column (filename ref_data) (filename other_data) merged_df
                        st (numeric_columns ref_data)
  end.

Fixpoint compare_pairs (operation_column : string) (ref_data : ValidatedData)
    (st : State) (others : list ValidatedData) : option State :=
  match others with
  | [] => Some st
  | other_data :: rest =>
      match compare_pair operation_column ref_data st other_data with
      | None => None
      | Some st' => compare_pairs operation_column ref_data st' rest
      end
  end.

Definition perform_column_comparison (validated_dataframes_data : list ValidatedData)
    (operation_column : string) : option State :=
  match validated_dataframes_data with
  | ref_data :: ((_ :: _) as others) =>
      let comparison_warnings :=
        match numeric_columns ref_data with
        | [] => [{| w_type := DataWarning;
                    w_message := "Reference DataFrame '" +:+ filename ref_data
                      +:+ "' has no numeric columns to compare (excluding operation column)." |}]
        | _ => []
        end in
      compare_pairs operation_column ref_data ([], comparison_warnings) others
  | _ =>
      Some ([], [{| w_type := SetupWarning;
                   w_message := "At least two DataFrames are required for comparison." |}])
  end.

(** *** Vocabulary of the properties *)
(** Every item of the results satisfies [P]. *)
Definition all_items (P : result_key → DataFrame → Prop) (d : Results) : Prop :=
  ∀ k v, (k, v) ∈ d → P k v.

(** What a stored frame is built from, for one pair and one column. *)
Definition stored_from (operation_column : string) (merged_df : DataFrame)
    (col_name : string) (frame : DataFrame) : Prop :=
  ∃ keys r o,
    getitem merged_df (col_name +:+ "_REF") = OneColumn (NumSeries r) ∧
    getitem merged_df (col_name +:+ "_OTH") = OneColumn (NumSeries o) ∧
    getitem merged_df operation_column = OneColumn keys ∧
    frame = frame_of_dict2 operation_column keys "difference" (NumSeries (sub_abs r o)).




(** A state grows: no key of the results is lost and the warnings are
    extended at the end. *)
Definition grows (st st' : State) : Prop :=
  st.1.*1 ⊆ st'.1.*1 ∧ st.2 `prefix_of` st'.2.

End Comparison.

(** Example tables. *)
Module ComparisonExamples.
Import Pandas Comparison.

Definition nums (l : list Z) : Series := NumSeries (map Some l).

(** Two validated tables whose labels meet the merge suffixes. *)
Definition suffix_ref : ValidatedData :=
  {| filename := "ref.csv";
     dataframe := [("id", nums [1]); ("a", nums [10]); ("a_REF", nums [100])]%Z;
     numeric_columns := ["a"; "a_REF"] |}.

Definition suffix_other : ValidatedData :=
  {| filename := "other.csv";
     dataframe := [("id", nums [1]); ("a_OTH", nums [7])]%Z;
     numeric_columns := ["a_OTH"] |}.

(** Duplicate keys *)
Definition dup_ref : ValidatedData :=
  {| filename := "ref.csv";
     dataframe := [("id", nums [1; 1; 2]); ("v", nums [10; 20; 30])]%Z;
     numeric_columns := ["v"] |}.

Definition dup_other : ValidatedData :=
  {| filename := "other.csv";
     dataframe := [("id", nums [1; 1; 3]); ("v", nums [11; 19; 99])]%Z;
     numeric_columns := ["v"] |}.

Definition dup_frame : DataFrame :=
  [("id", nums [1; 1; 1; 1]); ("difference", nums [1; 9; 9; 1])]%Z.

(** The tables of the repository's comparison tests. *)
Definition file1 : ValidatedData :=
  {| filename := "file1.csv";
     dataframe := [("op_col", nums [1; 2; 3; 4]); ("val1", nums [10; 20; 30; 40]);
                   ("val2", nums [5; 15; 25; 35])]%Z;
     numeric_columns := ["val1"; "val2"] |}.

Definition file2 : ValidatedData :=
  {| filename := "file2.csv";
     dataframe := [("op_col", nums [1; 2; 3; 5]); ("val1", nums [11; 22; 33; 55]);
                   ("val2", nums [7; 17; 27; 37])]%Z;
     numeric_columns := ["val1"; "val2"] |}.


Definition sample_results : Results :=
  [(("val1", "file1.csv", "file2.csv"),
    [("op_col", nums [1; 2; 3]); ("difference", nums [10; 5; 1])]%Z)].

End ComparisonExamples.

(** ** TableValidator: [validate_dataframes_for_processing] *)
Module Validator.
Import Pandas.

(** Frames are Python objects: the items hold references into a store
    and [DataFrame.copy()] allocates. *)
Abbreviation loc := nat.
Abbreviation Heap := (gmap loc DataFrame).

(** One item of [dataframes_data], one item of [validated_dfs] and one
    item of [validation_errors]. *)
Record Item := {
  filename : string;
  dataframe : loc
}.

Record ValidatedItem := {
  v_filename : string;
  v_dataframe : loc;
  v_numeric_columns : list string
}.

Record ErrorItem := {
  e_filename : string;
  e_error : string
}.

Definition ST (A : Type) : Type := Heap → A * Heap.

Definition ret {A} (a : A) : ST A := λ h, (a, h).

Definition bind {A B} (k : A → ST B) (m : ST A) : ST B :=
  λ h, let (a, h') := m h in k a h'.

#[global] Instance ST_mret : MRet ST := @ret.
#[global] Instance ST_mbind : MBind ST := @bind.

(** [obj.copy()] *)
Definition copy (l : loc) : ST loc :=
  λ h, let l' := fresh (dom h) in (l', <[l' := h !!! l]> h).

Definition read (l : loc) : ST DataFrame := λ h, (h !!! l, h).

(** [df[label] = s] on the object at [l] *)
Definition assign_column (l : loc) (label : string) (s : Series) : ST unit :=
  λ h, (tt, <[l := setitem (h !!! l) label s]> h).

Definition not_found_message (operation_column : string) : string :=
  "Operation column '" +:+ operation_column +:+ "' not found.".

Definition data_loss_message (operation_column : string) : string :=
  "Operation column '" +:+ operation_column
  +:+ "' could not be converted to a numeric type without significant data loss (all values became NaN).".

Definition converted_nan_message (operation_column : string) : string :=
  "Operation column '" +:+ operation_column
  +:+ "' contains non-numeric values that were converted to NaN, or it originally contained NaNs. This column must be purely numeric for merging.".

Definition contains_nan_message (operation_column : string) : string :=
  "Operation column '" +:+ operation_column
  +:+ "' contains NaN values. Files must not have NaNs in this column for merging.".

Definition no_numeric_message (operation_column : string) : string :=
  "No numeric columns found for comparison (excluding operation column '"
  +:+ operation_column +:+ "').".

Section WithCoercion.

(** The number [pd.to_numeric] reads in one string cell, [None] where
    [errors='coerce'] gives NaN. *)
Variable numeric_of_string : string → option Z.

(** [pd.to_numeric(s, errors='coerce')] *)
Definition to_numeric (s : Series) : Series :=
  match s with
  | NumSeries v => NumSeries v
  | ObjSeries v => NumSeries (map (λ x, x ≫= numeric_of_string) v)
  end.

(** The key column of a frame that has it. *)
Definition key_column (df : DataFrame) (operation_column : string) : Series :=
  default (ObjSeries []) (get_column df operation_column).

(** From the second NaN check to the end of the loop body. *)
Definition finish_item (name : string) (l : loc) (operation_column : string)
  : ST (ErrorItem + ValidatedItem) :=
  df ← read l;
  if isna_any (key_column df operation_column) then
    ret (inl {| e_filename := name; e_error := contains_nan_message operation_column |})
  else
    let numeric_cols :=
      filter (λ col, col ≠ operation_column ∧ is_numeric_dtype (key_column df col) = true)
             (columns df) in
    match numeric_cols with
    | [] => ret (inl {| e_filename := name; e_error := no_numeric_message operation_column |})
    | _ => ret (inr {| v_filename := name; v_dataframe := l;
                       v_numeric_columns := numeric_cols |})
    end.

(** The body of [for item in dataframes_data]. *)
Definition validate_item (item : Item) (operation_column : string)
  : ST (ErrorItem + ValidatedItem) :=
  l ← copy (dataframe item);
  df ← read l;
  if negb (has_column df operation_column) then
    ret (inl {| e_filename := filename item; e_error := not_found_message operation_column |})
  else if negb (is_numeric_dtype (key_column df operation_column)) then
    let original_non_na_count := notna_sum (key_column df operation_column) in
    let converted_op_col := to_numeric (key_column df operation_column) in
    if isna_all converted_op_col && (0 <? original_non_na_count)%nat then
      ret (inl {| e_filename := filename item; e_error := data_loss_message operation_column |})
    else
      _ ← assign_column l operation_column converted_op_col;
      df' ← read l;
      if isna_any (key_column df' operation_column) then
        ret (inl {| e_filename := filename item;
                    e_error := converted_nan_message operation_column |})
      else finish_item (filename item) l operation_column
  else finish_item (filename item) l operation_column.

Fixpoint validate_items (items : list Item) (operation_column : string)
    (validated_dfs : list ValidatedItem) (validation_errors : list ErrorItem)
  : ST (list ValidatedItem * list ErrorItem) :=
  match items with
  | [] => ret (validated_dfs, validation_errors)
  | item :: rest =>
      r ← validate_item item operation_column;
      match r with
      | inl e => validate_items rest operation_column validated_dfs (validation_errors ++ [e])
      | inr v => validate_items rest operation_column (validated_dfs ++ [v]) validation_errors
      end
  end.

Definition validate_dataframes_for_processing (dataframes_data : list Item)
    (operation_column : string) : ST (list ValidatedItem * list ErrorItem) :=
  validate_items dataframes_data operation_column [] [].

End WithCoercion.

(** A decimal reader for the examples: an optional minus sign and
    digits. *)
Fixpoint digits_value (s : string) (acc : Z) : option Z :=
  match s with
  | EmptyString => Some acc
  | String c rest =>
      let n := Ascii.nat_of_ascii c in
      if (48 <=? n)%nat && (n <=? 57)%nat
      then digits_value rest (10 * acc + Z.of_nat (n - 48))%Z
      else None
  end.

Definition decimal_of_string (s : string) : option Z :=
  match s with
  | EmptyString => None
  | String "-" (String c rest) => Z.opp <$> digits_value (String c rest) 0%Z
  | _ => digits_value s 0%Z
  end.

(** *** Vocabulary of the properties *)
(** The frame validation hands on: the copy, with the key column
    replaced by its coercion when it was not numeric. *)
Definition coerced (numeric_of_string : string → option Z) (df : DataFrame)
    (operation_column : string) : DataFrame :=
  if is_numeric_dtype (key_column df operation_column) then df
  else setitem df operation_column
               (to_numeric numeric_of_string (key_column df operation_column)).

(** The diagnostic of a key column that keeps a NaN after coercion. *)
Definition nan_rejection (numeric_of_string : string → option Z) (df : DataFrame)
    (operation_column : string) : string :=
  let key := key_column df operation_column in
  if is_numeric_dtype key then contains_nan_message operation_column
  else if isna_all (to_numeric numeric_of_string key) && (0 <? notna_sum key)%nat
       then data_loss_message operation_column
       else converted_nan_message operation_column.

(** [v] is the validated item of [item]: a new object that holds the
    coerced copy of the caller's frame. *)
Definition accepted (numeric_of_string : string → option Z) (operation_column : string)
    (h h' : Heap) (item : Item) (v : ValidatedItem) : Prop :=
  v_filename v = filename item ∧
  (v_dataframe v ∉ dom h) ∧
  h' !! v_dataframe v
  = Some (coerced numeric_of_string (h !!! dataframe item) operation_column) ∧
  has_column (h !!! dataframe item) operation_column = true ∧
  isna_any (to_numeric numeric_of_string
              (key_column (h !!! dataframe item) operation_column)) = false.

Definition nan_rejected (numeric_of_string : string → option Z) (operation_column : string)
    (h : Heap) (item : Item) : Prop :=
  has_column (h !!! dataframe item) operation_column = true ∧
  isna_any (to_numeric numeric_of_string
              (key_column (h !!! dataframe item) operation_column)) = true.

End Validator.

(** Example frames in an example store. *)
Module ValidatorExamples.
Import Pandas Validator.

(** The frames of the repository's validation tests. *)
Definition nan_frame : DataFrame :=
  [("op_col", NumSeries [Some 1; None; Some 3]%Z);
   ("data_col1", NumSeries [Some 10; Some 20; Some 30]%Z)].

Definition text_key_frame : DataFrame :=
  [("op_col", ObjSeries [Some "1"; Some "2"; Some "3"]);
   ("data_col1", NumSeries [Some 10; Some 20; Some 30]%Z)].

Definition example_heap : Heap := {[ 0 := nan_frame; 1 := text_key_frame ]}.

Definition nan_item : Item := {| filename := "op_has_nan.csv"; dataframe := 0 |}.
Definition text_key_item : Item := {| filename := "op_text.csv"; dataframe := 1 |}.

(** A key column of text that no cell of which reads as a number. *)
Definition xyz_frame : DataFrame :=
  [("op_col", ObjSeries [Some "x"; Some "y"; Some "z"]);
   ("data_col1", NumSeries [Some 10; Some 20; Some 30]%Z)].

Definition xyz_heap : Heap := {[ 0 := xyz_frame ]}.

Definition xyz_item : Item := {| filename := "op_not_numeric.csv"; dataframe := 0 |}.

End ValidatorExamples.

(** ** ReportGenerator: the highlight set of [generate_excel_output] *)
Module Report.
Import Pandas Comparison.

(** [rows_to_highlight_map]: a set of (file name, key value) pairs. *)
Abbreviation HighlightSet := (gset (string * cell)).

(** [s.abs() > threshold_value] on a numeric column; a comparison with
    NaN is false. *)
Definition exceeds (threshold_value : Z) (x : option Z) : bool :=
  match x with
  | Some d => (threshold_value <? Z.abs d)%Z
  | None => false
  end.

(** [s[mask]] and [df[mask]] with a boolean mask of the frame's length *)
Definition mask_vals {A} (v : list A) (mask : list bool) : list A :=
  (filter (λ p, p.2 = true) (zip v mask)).*1.

Definition mask_series (s : Series) (mask : list bool) : Series :=
  match s with
  | NumSeries v => NumSeries (mask_vals v mask)
  | ObjSeries v => ObjSeries (mask_vals v mask)
  end.

Definition mask_frame (df : DataFrame) (mask : list bool) : DataFrame :=
  map (λ c, (c.1, mask_series c.2 mask)) df.

Definition add_both (ref_filename other_filename : string) (acc : HighlightSet) (op_col_val : cell)
  : HighlightSet :=
  {[(other_filename, op_col_val)]} ∪ ({[(ref_filename, op_col_val)]} ∪ acc).

(** The body of the loop over [comparison_results.items()].  [None]: the
    source raises ([abs] of an object column). *)
Definition highlight_entry (operation_column : string) (threshold_value : Z)
    (acc : HighlightSet) (entry : result_key * DataFrame) : option HighlightSet :=
  let '((col_name, ref_filename, other_filename), diff_df) := entry in
  match get_column diff_df "difference" with
  | None => Some acc
  | Some (ObjSeries _) => None
  | Some (NumSeries d) =>
      let exceeding_threshold_df := mask_frame diff_df (map (exceeds threshold_value) d) in
      match get_column exceeding_threshold_df operation_column with
      | None => Some acc
      | Some keys =>
          Some (foldl (add_both ref_filename other_filename) acc (series_cells keys))
      end
  end.

Fixpoint highlight_entries (operation_column : string) (threshold_value : Z)
    (acc : HighlightSet) (entries : list (result_key * DataFrame)) : option HighlightSet :=
  match entries with
  | [] => Some acc
  | entry :: rest =>
      match highlight_entry operation_column threshold_value acc entry with
      | None => None
      | Some acc' => highlight_entries operation_column threshold_value acc' rest
      end
  end.

Definition rows_to_highlight_map (comparison_results : Results) (operation_column : string)
    (threshold_value : Z) : option HighlightSet :=
  highlight_entries operation_column threshold_value ∅ comparison_results.

(** *** Vocabulary of the properties *)
(** An entry of a difference frame that exceeds the threshold, with the
    key value of its row, gives a reason to highlight both files. *)
Definition exceeding_row (operation_column : string) (threshold_value : Z)
    (diff_df : DataFrame) (k : cell) : Prop :=
  ∃ d keys i x,
    get_column diff_df "difference" = Some (NumSeries d) ∧
    get_column diff_df operation_column = Some keys ∧
    d !! i = Some (Some x) ∧ (threshold_value < Z.abs x)%Z ∧
    series_cells keys !! i = Some k.

End Report.

(** Vocabulary of the parser's traces, and more example readers. *)
Module ParserTraces.
Import Pandas Parser ParserExamples.

(** The encoding an event reads the file with, if it decodes it. *)
Definition event_encoding (ev : io_event) : option encoding :=
  match ev with
  | ReadText _ e => Some e
  | ReadCsv _ opts => Some (enc opts)
  | PathExists _ | ReadBytes _ _ => None
  end.

(** A reader whose sniffing call raises [ParserError] on every file and
    whose other calls give one column. *)
Definition strict_read_csv (content : list byte) (opts : read_options) : exn + DataFrame :=
  match sep opts with
  | None => inl (ParserError ("Could not determine delimiter: " +:+ encoding_name (enc opts)))
  | Some _ => inr (one_column "data" [string_of_list_byte content])
  end.

(** A reader for a comma-separated file the sniffer does not split. *)
Definition two_column_frame : DataFrame :=
  [("id", NumSeries [Some 1%Z]); ("val", NumSeries [Some 100%Z])].

Definition comma_read_csv (content : list byte) (opts : read_options) : exn + DataFrame :=
  match sep opts with
  | Some d => if decide (d = ","%char) then inr two_column_frame
              else inr (one_column "id,val" ["1,100"])
  | None => inr (one_column "id,val" ["1,100"])
  end.

(** A reader whose sniffing call splits every file at the comma. *)
Definition sniffing_read_csv (content : list byte) (opts : read_options) : exn + DataFrame :=
  inr two_column_frame.

(** A folder with an empty file and a file of two text lines. *)
Definition valid_text : string := "id,val" +:+ String line_feed "1,100".

Definition more_files : list (string * list byte) :=
  [("empty.csv", []); ("valid.csv", list_byte_of_string valid_text)].

Definition inbox : FileSystem := folder "inbox" more_files.

End ParserTraces.

(** The rules of the validator, as a table of cases. *)
Module ValidatorRules.
Import Pandas Validator.

(** [numeric_cols] of the source: the labels, the key column apart, of
    the numeric columns, in the order of the columns. *)
Definition numeric_cols (df : DataFrame) (operation_column : string) : list string :=
  filter (λ col, col ≠ operation_column ∧ is_numeric_dtype (key_column df col) = true)
         (columns df).

(** The diagnostic of a table, [None] for a table that is handed on:
    the key column is missing; or it keeps a NaN after coercion; or no
    other column is numeric. *)
Definition diagnostic (numeric_of_string : string → option Z) (df : DataFrame)
    (operation_column : string) : option string :=
  if negb (has_column df operation_column) then Some (not_found_message operation_column)
  else if isna_any (to_numeric numeric_of_string (key_column df operation_column))
       then Some (nan_rejection numeric_of_string df operation_column)
       else match numeric_cols df operation_column with
            | [] => Some (no_numeric_message operation_column)
            | _ => None
            end.

Definition rejection (numeric_of_string : string → option Z) (h : Heap)
    (operation_column : string) (item : Item) : option ErrorItem :=
  Build_ErrorItem (filename item)
    <$> diagnostic numeric_of_string (h !!! dataframe item) operation_column.

(** The frames of the repository's other validation tests. *)
Definition clean_frame : DataFrame :=
  [("op_col", NumSeries [Some 1; Some 2; Some 3]%Z);
   ("data_col1", NumSeries [Some 10; Some 20; Some 30]%Z);
   ("text_col", ObjSeries [Some "a"; Some "b"; Some "c"])].

Definition missing_key_frame : DataFrame :=
  [("data_col1", NumSeries [Some 10; Some 20; Some 30]%Z)].

Definition no_numeric_frame : DataFrame :=
  [("op_col", NumSeries [Some 1; Some 2; Some 3]%Z);
   ("text_col", ObjSeries [Some "a"; Some "b"; Some "c"])].

Definition test_heap : Heap :=
  {[ 0 := clean_frame; 1 := missing_key_frame; 2 := no_numeric_frame ]}.

Definition clean_item : Item := {| filename := "valid.csv"; dataframe := 0 |}.
Definition missing_key_item : Item := {| filename := "op_missing.csv"; dataframe := 1 |}.
Definition no_numeric_item : Item := {| filename := "no_other_numeric.csv"; dataframe := 2 |}.

End ValidatorRules.

(** ** Python strings: more of the methods the program uses *)
Module Text.
Import Parser.

(** [s.endswith(suffix)] *)
Definition endswith (s suffix : string) : bool :=
  (String.length suffix <=? String.length s)%nat
  && bool_decide (drop_string (String.length s - String.length suffix) s = suffix).

End Text.

(** The tables the comparison is written for. *)
Module ComparisonRules.
Import Pandas Comparison ComparisonExamples.

(** A validated item as the validator builds it: the key column is
    numeric, and the listed columns are numeric columns of the frame
    other than the key column. *)
Definition well_formed (operation_column : string) (v : ValidatedData) : Prop :=
  (∃ keys, get_column (dataframe v) operation_column = Some (NumSeries keys)) ∧
  ∀ c, c ∈ numeric_columns v →
       c ≠ operation_column ∧ ∃ vals, get_column (dataframe v) c = Some (NumSeries vals).

(** No label of the frame ends in a merge suffix. *)
Definition plain_labels (v : ValidatedData) : Prop :=
  ∀ l, l ∈ columns (dataframe v) → plain_label l.

(** The warnings a pair of tables and a column of the reference can
    give. *)
Definition pair_messages (operation_column : string) (ref_data other_data : ValidatedData)
    (msg : string) : Prop :=
  (∃ e, msg = merge_error_message (filename ref_data) (filename other_data)
                operation_column e) ∨
  msg = merge_warning_message (filename ref_data) (filename other_data) operation_column.

Definition column_messages (ref_data other_data : ValidatedData) (col_name : string)
    (msg : string) : Prop :=
  msg = internal_logic_message col_name (col_name +:+ "_REF")
          (filename ref_data) (filename other_data) ∨
  msg = column_missing_message col_name (col_name +:+ "_OTH")
          (filename ref_data) (filename other_data) ∨
  msg = data_type_message col_name (col_name +:+ "_REF") (col_name +:+ "_OTH")
          (filename ref_data) (filename other_data).

(** The integers that an int64 column and a float64 column both hold
    exactly, with room for one subtraction: up to 2^52 in magnitude.
    On such cells the subtraction and the absolute value of the code,
    in either dtype, are those of [abs_diff]; beyond them int64 wraps
    around and float64 rounds. *)
Definition exact_cell (x : Z) : Prop := (Z.abs x ≤ 2 ^ 52)%Z.

Definition exact_frame (df : DataFrame) : Prop :=
  ∀ l vals x, (l, NumSeries vals) ∈ df → Some x ∈ vals → exact_cell x.

(** The third table of the repository's comparison tests, which lacks
    the column [val2]. *)
Definition file3 : ValidatedData :=
  {| filename := "file3.csv";
     dataframe := [("op_col", NumSeries [Some 1; Some 3; Some 4]%Z);
                   ("val1", NumSeries [Some 10; Some 30; Some 42]%Z);
                   ("val_other", NumSeries [Some 1; Some 1; Some 1]%Z)];
     numeric_columns := ["val1"] |}.

(** The results and the warning of the runs of the tests, and the merged
    frame of the first and the third table. *)
Definition results_1_2 : Results :=
  [(("val1", "file1.csv", "file2.csv"),
    [("op_col", nums [1; 2; 3]); ("difference", nums [1; 2; 3])]%Z);
   (("val2", "file1.csv", "file2.csv"),
    [("op_col", nums [1; 2; 3]); ("difference", nums [2; 2; 2])]%Z)].

Definition results_1_3 : Results :=
  [(("val1", "file1.csv", "file3.csv"),
    [("op_col", nums [1; 3; 4]); ("difference", nums [0; 0; 2])]%Z)].

Definition warning_val2 : Warning :=
  {| w_type := InternalLogicWarning;
     w_message := internal_logic_message "val2" "val2_REF" "file1.csv" "file3.csv" |}.

Definition merged_1_3 : DataFrame :=
  [("op_col", nums [1; 3; 4]); ("val1_REF", nums [10; 30; 40]);
   ("val2", nums [5; 25; 35]); ("val1_OTH", nums [10; 30; 42])]%Z.

(** A table with a NaN cell, and its comparison with itself. *)
Definition with_nan : ValidatedData :=
  {| filename := "with_nan.csv";
     dataframe := [("op_col", nums [1; 2]%Z); ("val1", NumSeries [Some 7; None]%Z)];
     numeric_columns := ["val1"] |}.

Definition results_nan : Results :=
  [(("val1", "with_nan.csv", "with_nan.csv"),
    [("op_col", nums [1; 2]%Z); ("difference", NumSeries [Some 0; None]%Z)])].

Definition results_1_1 : Results :=
  [(("val1", "file1.csv", "file1.csv"),
    [("op_col", nums [1; 2; 3; 4]); ("difference", nums [0; 0; 0; 0])]%Z);
   (("val2", "file1.csv", "file1.csv"),
    [("op_col", nums [1; 2; 3; 4]); ("difference", nums [0; 0; 0; 0])]%Z)].

End ComparisonRules.

(** ** ReportGenerator: the workbook of [generate_excel_output] *)
Module Workbook.
Import Pandas Parser Comparison Report.

(** [s.isascii()]: every character is below 128.  For such a string a
    character of the Python string is one character of the string here,
    and [len] is its length. *)
Definition isascii (s : string) : bool :=
  forallb (λ c, (nat_of_ascii c <? 128)%nat) (list_ascii_of_string s).

(** [c.isalnum()] for an ASCII character: a digit or a letter.  On other
    characters [str.isalnum] follows the Unicode tables, which are not
    part of the embedding: the properties of the sheet names are stated
    for ASCII file names. *)
Definition isalnum (c : ascii) : bool :=
  let n := nat_of_ascii c in
  ((48 <=? n)%nat && (n <=? 57)%nat)
  || ((65 <=? n)%nat && (n <=? 90)%nat)
  || ((97 <=? n)%nat && (n <=? 122)%nat).

(** ["".join(f(c) for c in s)] and [s[:n]] *)
Fixpoint map_chars (f : ascii → ascii) (s : string) : string :=
  match s with
  | EmptyString => EmptyString
  | String c s' => String (f c) (map_chars f s')
  end.

Fixpoint take_string (n : nat) (s : string) : string :=
  match n, s with
  | S n', String c s' => String c (take_string n' s')
  | _, _ => EmptyString
  end.

(** The name of the sheet of a table.  Characters are tested, counted
    and cut as Python does for an ASCII file name; on other names
    Python works on code points. *)
Definition safe_sheet_name (original_filename : string) : string :=
  let safe_sheet_name :=
    map_chars (λ c, if isalnum c then c else "_"%char) original_filename in
  if (31 <? String.length safe_sheet_name)%nat
  then take_string 27 safe_sheet_name +:+ "_etc"
  else safe_sheet_name.

(** [f"{output_filename_base}_{timestamp}.xlsx"]; the time stamp is what
    [datetime.now().strftime("%Y%m%d_%H%M%S")] gives. *)
Definition unique_filename (output_filename_base timestamp : string) : string :=
  output_filename_base +:+ "_" +:+ timestamp +:+ ".xlsx".

(** [sorted(l)] on strings; the order of the bytes of UTF-8 is the order
    of the code points. *)
Definition sorted (l : list string) : list string := merge_sort String.le l.

(** A row of a frame, as [Styler.apply(..., axis=1)] hands it to the
    function: the labels with the cells of the row. *)
Abbreviation row := (list (string * cell)).

Definition row_at (df : DataFrame) (i : nat) : row :=
  map (λ c, (c.1, default (inr None) (series_cells c.2 !! i))) df.

Definition iterrows (df : DataFrame) : list row := map (row_at df) (seq 0 (nrows df)).

(** [row[label]], for a row with unique labels *)
Fixpoint row_get (r : row) (label : string) : option cell :=
  match r with
  | [] => None
  | (l, v) :: rest => if decide (l = label) then Some v else row_get rest label
  end.

Definition yellow : string := "background-color: yellow".

(** [(current_filename, op_val) in highlight_map], for a value read out
    of a frame.  A NaN of a numeric column is a new float at each read:
    it is not the object the set holds and it equals no float, so the
    pair is not found.  Numbers and strings are found by their value.
    For a missing cell of an object column the answer depends on the
    identity of the object; it is taken to be the one object pandas
    fills such cells with, and the properties leave rows with a missing
    key aside. *)
Definition in_highlight_map (current_filename : string) (op_val : cell)
    (highlight_map : HighlightSet) : bool :=
  match op_val with
  | inl None => false
  | _ => bool_decide ((current_filename, op_val) ∈ highlight_map)
  end.

Definition highlight_excel_rows (r : row) (current_filename op_col_name : string)
    (highlight_map : HighlightSet) : list string :=
  let style := replicate (length r) EmptyString in
  match row_get r op_col_name with
  | None => style
  | Some op_val =>
      if in_highlight_map current_filename op_val highlight_map
      then replicate (length r) yellow
      else style
  end.

(** One call of [to_excel]: the name of the sheet, the frame, and the
    styles of the rows when the frame is written through a Styler.  What
    the writer makes of the calls is not part of the embedding: openpyxl
    keeps one sheet for two calls with one name and refuses an empty
    name. *)
Record SheetWrite := {
  sheet_name : string;
  sheet_frame : DataFrame;
  sheet_styles : option (list (list string))
}.

(** The column [Value] of the sheet [Summary]. *)
Record Summary := {
  input_files : string;
  summary_operation_column : string;
  summary_threshold_value : Z;
  highlighted_rows : string;
  compared_columns : string
}.

Record Workbook := {
  summary : Summary;
  sheets : list SheetWrite
}.

(** One entry of [highlight_counts_summary]. *)
Definition highlight_count (highlight_map : HighlightSet) (operation_column : string)
    (df_data : ValidatedData) : string :=
  let fname := filename df_data in
  match get_column (dataframe df_data) operation_column with
  | Some keys =>
      let count :=
        length (filter (λ op_val, in_highlight_map fname op_val highlight_map = true)
                       (series_cells keys)) in
      fname +:+ ": " +:+ pretty count
  | None => fname +:+ ": (op_col missing)"
  end.

(** The body of the loop that writes the sheets of the tables. *)
Definition table_sheet (highlight_map : HighlightSet) (operation_column : string)
    (df_data : ValidatedData) : SheetWrite :=
  let original_filename := filename df_data in
  let df_to_write := dataframe df_data in
  {| sheet_name := safe_sheet_name original_filename;
     sheet_frame := df_to_write;
     sheet_styles :=
       if has_column df_to_write operation_column
       then Some (map (λ r, highlight_excel_rows r original_filename operation_column
                              highlight_map)
                      (iterrows df_to_write))
       else None |}.

(** [generate_excel_output]: the path of the workbook, the values of
    the summary and the calls of [to_excel] for the tables, in the order
    of the calls; [None] when the loop over the results raises.  The
    Excel writer that takes the calls is outside the embedding. *)
Definition generate_excel_output (validated_dataframes_data : list ValidatedData)
    (comparison_results : Results) (operation_column : string) (threshold_value : Z)
    (output_filename_base base_processed_folder timestamp : string)
  : option (string * Workbook) :=
  let unique_filename := unique_filename output_filename_base timestamp in
  let output_filepath := os_path_join base_processed_folder unique_filename in
  match rows_to_highlight_map comparison_results operation_column threshold_value with
  | None => None
  | Some rows_to_highlight_map =>
      let compared_columns_set := list_set (map (λ entry, entry.1.1.1) comparison_results) in
      let highlight_counts_summary :=
        map (highlight_count rows_to_highlight_map operation_column)
            validated_dataframes_data in
      Some (output_filepath,
            {| summary :=
                 {| input_files := join ", " (map filename validated_dataframes_data);
                    summary_operation_column := operation_column;
                    summary_threshold_value := threshold_value;
                    highlighted_rows :=
                      match highlight_counts_summary with
                      | [] => "0"
                      | _ => join "; " highlight_counts_summary
                      end;
                    compared_columns :=
                      match compared_columns_set with
                      | [] => "N/A"
                      | _ => join ", " (sorted compared_columns_set)
                      end |};
               sheets := map (table_sheet rows_to_highlight_map operation_column)
                             validated_dataframes_data |})
  end.

(** *** Vocabulary of the properties *)
(** Every column of the frame has the length of the frame. *)
Definition rectangular (df : DataFrame) : Prop :=
  ∀ l s, (l, s) ∈ df → series_len s = nrows df.

(** A cell that holds no value: NaN, or a missing object cell. *)
Definition is_missing (c : cell) : bool :=
  match c with
  | inl None | inr None => true
  | _ => false
  end.

(** The rows of a sheet that are styled in yellow. *)
Definition is_yellow (style : list string) : bool :=
  bool_decide (style ≠ [] ∧ style = replicate (length style) yellow).

Definition yellow_rows (sheet : SheetWrite) : nat :=
  length (filter (λ style, is_yellow style = true) (default [] (sheet_styles sheet))).

End Workbook.

(** The report of the repository's comparison tests. *)
Module WorkbookExamples.
Import Pandas Comparison ComparisonExamples ComparisonRules Workbook.

Definition report_1_2 : option (string * Workbook) :=
  generate_excel_output [file1; file2] sample_results "op_col" 5
    "comparison_report" "processed" "20240101_120000".

Definition report_two_columns : option (string * Workbook) :=
  generate_excel_output [file1; file2] results_1_2 "op_col" 2
    "comparison_report" "processed" "20240101_120000".

End WorkbookExamples.

(** ** The hand-over between the steps of [process_files] *)
Module Pipeline.
Import Pandas.

(** [process_files] passes the list [validated_dataframes] that the
    validator returns on to [perform_column_comparison] and to
    [generate_excel_output], which read the frames the items refer
    to. *)
Definition validated_data (h : Validator.Heap) (v : Validator.ValidatedItem)
  : Comparison.ValidatedData :=
  {| Comparison.filename := Validator.v_filename v;
     Comparison.dataframe := h !!! Validator.v_dataframe v;
     Comparison.numeric_columns := Validator.v_numeric_columns v |}.

(** The two tables of the comparison tests as parsed items in a
    store. *)
Definition parsed_heap : Validator.Heap :=
  {[ 0 := Comparison.dataframe ComparisonExamples.file1;
     1 := Comparison.dataframe ComparisonExamples.file2 ]}.

Definition parsed_file1 : Validator.Item :=
  {| Validator.filename := "file1.csv"; Validator.dataframe := 0 |}.

Definition parsed_file2 : Validator.Item :=
  {| Validator.filename := "file2.csv"; Validator.dataframe := 1 |}.

End Pipeline.

(** * Properties *)

(** ** The comparison engine *)
Module ComparisonProofs.
Import Pandas Comparison ComparisonExamples.

Section Join.
Context {K : Type} `{EqDecision K}.
Implicit Types (lk rk : list K) (k : K).

Lemma matching_positions_length k j rk :
  length (matching_positions k j rk) = occurrences k rk.
Proof.
  revert j. induction rk as [|k' rk IH]; intros j; [done|].
  unfold occurrences in *. simpl. rw filter_cons.
  destruct (decide (k' = k)); simpl; rw IH; done.
Qed.

Lemma matching_positions_elem k j0 rk j :
  j ∈ matching_positions k j0 rk ↔ ∃ n, j = j0 + n ∧ rk !! n = Some k.
Proof.
  revert j0. induction rk as [|k' rk IH]; intros j0; simpl.
  - split; [by intros ?%elem_of_nil|]. by intros (n & _ & ?).
  - destruct (decide (k' = k)) as [->|Hne].
    + rw elem_of_cons IH. split.
      * intros [->|(n & -> & Hn)]; [exists 0|exists (S n)]; split; auto with lia.
      * intros (n & -> & Hn). destruct n as [|n]; [left; lia|right].
        exists n. split; [lia|done].
    + rw IH. split.
      * intros (n & -> & Hn). exists (S n). split; [lia|done].
      * intros (n & -> & Hn). destruct n as [|n]; simpl in Hn; [congruence|].
        exists n. split; [lia|done].
Qed.

Lemma inner_join_from_elem i0 lk rk i j :
  (i, j) ∈ inner_join_from i0 lk rk ↔
  ∃ n k, i = i0 + n ∧ lk !! n = Some k ∧ rk !! j = Some k.
Proof.
  revert i0. induction lk as [|k lk IH]; intros i0; simpl.
  - split; [by intros ?%elem_of_nil|]. by intros (n & k & _ & ? & _).
  - rw elem_of_app IH list_elem_of_fmap. split.
    + intros [(j' & [= -> ->] & Hj)|(n & k' & -> & Hn & Hj)].
      * apply matching_positions_elem in Hj as (n & -> & Hn).
        exists 0, k. split; [lia|]. done.
      * exists (S n), k'. split; [lia|]. done.
    + intros (n & k' & -> & Hn & Hj). destruct n as [|n]; simpl in Hn.
      * left. injection Hn as ->. exists j. split; [f_equal; lia|].
        apply matching_positions_elem. exists j. done.
      * right. exists n, k'. split; [lia|done].
Qed.

Lemma inner_join_indexers_elem lk rk i j :
  (i, j) ∈ inner_join_indexers lk rk ↔ ∃ k, lk !! i = Some k ∧ rk !! j = Some k.
Proof.
  unfold inner_join_indexers. rw inner_join_from_elem. split.
  - intros (n & k & -> & ? & ?). by exists k.
  - intros (k & ? & ?). by exists i, k.
Qed.

Lemma occurrences_app k (l1 l2 : list K) :
  occurrences k (l1 ++ l2) = occurrences k l1 + occurrences k l2.
Proof. by rw /occurrences filter_app length_app. Qed.

Lemma occurrences_replicate k k' n :
  occurrences k (replicate n k') = if decide (k' = k) then n else 0.
Proof.
  rw /occurrences. induction n as [|n IH]; simpl; [by case_decide|].
  rw filter_cons. destruct (decide (k' = k)); simpl; [by f_equal|done].
Qed.

Lemma occurrences_pos k (l : list K) : 0 < occurrences k l ↔ k ∈ l.
Proof.
  rw /occurrences. induction l as [|x l IH]; simpl.
  - split; [lia|by intros ?%elem_of_nil].
  - rw filter_cons elem_of_cons. destruct (decide (x = k)) as [->|]; simpl.
    + split; [by left|lia].
    + rw IH. split; [by right|]. by intros [->|].
Qed.

End Join.

Section TakeJoin.
Context {A : Type} `{EqDecision A}.
Implicit Types (lk rk : list (option A)).

(** The key column of an inner join: every left key, once for each right
    row that carries it. *)
Lemma take_left_keys pre lk rk :
  take_vals (pre ++ lk) ((inner_join_from (length pre) lk rk).*1)
  = flat_map (λ k, replicate (occurrences k rk) k) lk.
Proof.
  revert pre. induction lk as [|k lk IH]; intros pre; [done|].
  simpl. rw fmap_app /take_vals map_app. f_equal.
  - rw -(matching_positions_length k 0 rk).
    induction (matching_positions k 0 rk) as [|j js IHjs]; [done|].
    simpl. f_equal; [|done]. by rw list_lookup_middle.
  - specialize (IH (pre ++ [k])). rw length_app in IH. simpl in IH.
    rw -assoc in IH. simpl in IH. by rw Nat.add_1_r in IH.
Qed.

Lemma joined_keys_count lk rk k :
  occurrences k (take_vals lk ((inner_join_indexers lk rk).*1))
  = occurrences k lk * occurrences k rk.
Proof.
  rw /inner_join_indexers (take_left_keys [] lk rk).
  induction lk as [|k' lk IH]; [done|].
  simpl. rw occurrences_app IH occurrences_replicate.
  change (k' :: lk) with ([k'] ++ lk). rw occurrences_app.
  rw /occurrences filter_cons. destruct (decide (k' = k)) as [->|]; simpl; lia.
Qed.

Lemma take_vals_length (v : list (option A)) indexer :
  length (take_vals v indexer) = length indexer.
Proof. by rw /take_vals length_map. Qed.

End TakeJoin.

Section Occurrences.
Context {A B : Type} `{EqDecision A} `{EqDecision B}.

Lemma occurrences_fmap_inj (f : A → B) `{!Inj (=) (=) f} k (l : list A) :
  occurrences (f k) (f <$> l) = occurrences k l.
Proof.
  rw /occurrences. induction l as [|x l IH]; [done|].
  rw fmap_cons !filter_cons.
  destruct (decide (f x = f k)) as [Heq|Hne], (decide (x = k)) as [->|Hne'];
    simpl; try by rw IH.
  by apply (inj f) in Heq.
Qed.

Lemma occurrences_fmap_none (f : A → B) k (l : list A) :
  (∀ x, f x ≠ k) → occurrences k (f <$> l) = 0.
Proof.
  intros Hf. rw /occurrences. induction l as [|x l IH]; [done|].
  rw fmap_cons filter_cons. by destruct (decide (f x = k)) as [?%Hf|].
Qed.

End Occurrences.

Section Frames.
Implicit Types (df left right merged : DataFrame) (s : Series).

Lemma get_column_elem df l s : get_column df l = Some s → (l, s) ∈ df.
Proof.
  induction df as [|[c s'] df IH]; simpl; [done|].
  case_decide; [intros [= ->]; subst; left|intros ?%IH; by right].
Qed.

Lemma get_column_columns df l : is_Some (get_column df l) ↔ l ∈ columns df.
Proof.
  induction df as [|[c s'] df IH]; simpl.
  - split; [by intros [? ?]|by intros ?%elem_of_nil].
  - rw elem_of_cons. case_decide as Hc; subst.
    + split; [by left|by eauto].
    + rw IH. split; [by right|]. by intros [->|].
Qed.

Lemma has_column_true df l : has_column df l = true ↔ l ∈ columns df.
Proof. rw /has_column. by rw bool_decide_eq_true. Qed.

Lemma getitem_one df l s s' : getitem df l = OneColumn s → (l, s') ∈ df → s' = s.
Proof.
  rw /getitem. intros Hg Hin.
  assert ((l, s') ∈ filter (λ c : string * Series, c.1 = l) df) as Hf.
  { by apply list_elem_of_filter. }
  destruct (filter _ df) as [|[c x] [|? ?]]; try done.
  injection Hg as ->. apply list_elem_of_singleton in Hf. by injection Hf.
Qed.

Lemma select_get_column df labels part l :
  select df labels = inr part →
  get_column part l = if decide (l ∈ labels) then get_column df l else None.
Proof.
  revert part. induction labels as [|c labels IH]; intros part Hsel; simpl in Hsel.
  - injection Hsel as <-. by destruct (decide (l ∈ [])) as [?%elem_of_nil|].
  - destruct (get_column df c) as [s|] eqn:Hc; [|done].
    destruct (select df labels) as [e|cols]; [done|]. injection Hsel as <-.
    specialize (IH cols eq_refl).
    cbn [get_column]. destruct (decide (c = l)) as [->|Hne].
    + by destruct (decide (l ∈ l :: labels)) as [|[]]; [|left].
    + rw IH. destruct (decide (l ∈ labels)) as [Hl|Hl],
        (decide (l ∈ c :: labels)) as [Hl'|Hl']; try done.
      * destruct Hl'. by right.
      * by apply elem_of_cons in Hl' as [->|].
Qed.

Lemma zip_columns {C} (g : string → string) (h : string * Series → C) df :
  zip (map g (columns df)) (map h df) = map (λ c, (g c.1, h c)) df.
Proof. induction df as [|c df IH]; simpl; [done|]. by f_equal. Qed.

Lemma rename_overlap_key left right on suffix :
  rename_overlap
    (filter (λ l, l ∈ columns (without on right)) (columns (without on left))) suffix on = on.
Proof.
  rw /rename_overlap. rw bool_decide_eq_false_2; [|done].
  intros [_ Hin]%list_elem_of_filter. rw /columns /without in Hin.
  apply list_elem_of_fmap in Hin as ([c s] & -> & [Hne _]%list_elem_of_filter). done.
Qed.

(** What a successful merge returns. *)
Lemma merge_inr left right on lsuffix rsuffix merged :
  merge left right on lsuffix rsuffix = inr merged →
  ∃ lkey rkey indexers,
    get_column left on = Some lkey ∧ get_column right on = Some rkey ∧
    join_keys lkey rkey = inr indexers ∧
    let overlap := filter (λ l, l ∈ columns (without on right)) (columns (without on left)) in
    merged = map (λ c, (rename_overlap overlap lsuffix c.1, take c.2 (indexers.*1))) left
             ++ map (λ c, (rename_overlap overlap rsuffix c.1, take c.2 (indexers.*2)))
                    (without on right).
Proof.
  rw /merge. destruct (get_column left on) as [lkey|] eqn:Hl; [|done].
  destruct (get_column right on) as [rkey|] eqn:Hr; [|done].
  destruct (join_keys lkey rkey) as [e|indexers] eqn:Hj; [done|].
  cbv zeta. case_bool_decide; [|done]. intros [= <-].
  exists lkey, rkey, indexers. split_and!; try done.
  by rw !zip_columns.
Qed.

(** The key column of the merged frame is the key column of the left
    frame at the left positions of the join. *)
Lemma merge_key_column left right on lsuffix rsuffix merged keys :
  merge left right on lsuffix rsuffix = inr merged →
  getitem merged on = OneColumn keys →
  ∃ lkey rkey indexers,
    get_column left on = Some lkey ∧ get_column right on = Some rkey ∧
    join_keys lkey rkey = inr indexers ∧ keys = take lkey (indexers.*1).
Proof.
  intros (lkey & rkey & indexers & Hl & Hr & Hj & ->)%merge_inr Hone.
  exists lkey, rkey, indexers. do 3 (split; [done|]).
  symmetry. apply (getitem_one _ _ _ _ Hone).
  apply elem_of_app. left. apply list_elem_of_fmap.
  exists (on, lkey). split; [|by apply get_column_elem].
  simpl. by rw rename_overlap_key.
Qed.

Lemma sub_abs_length (a b : list (option Z)) indexer1 indexer2 :
  length indexer1 = length indexer2 →
  length (sub_abs (take_vals a indexer1) (take_vals b indexer2)) = length indexer1.
Proof. intros Hlen. rw /sub_abs length_zip_with !take_vals_length. lia. Qed.

End Frames.

Lemma dict_set_elem (d : Results) k v k' v' :
  (k', v') ∈ dict_set d k v → (k' = k ∧ v' = v) ∨ (k', v') ∈ d.
Proof.
  induction d as [|[k0 v0] d IH]; simpl.
  - intros [= -> ->]%list_elem_of_singleton. by left.
  - destruct (decide (k0 = k)) as [->|Hne].
    + intros [[= -> ->]|Hin]%elem_of_cons; [by left|right; by right].
    + intros [[= -> ->]|Hin]%elem_of_cons; [right; by left|].
      destruct (IH Hin) as [?|?]; [by left|right; by right].
Qed.

Lemma dict_set_keys (d : Results) k v : d.*1 ⊆ (dict_set d k v).*1.
Proof.
  induction d as [|[k0 v0] d IH]; simpl.
  - by intros x ?%elem_of_nil.
  - destruct (decide (k0 = k)) as [->|Hne]; simpl; [done|].
    intros x [->|Hin]%elem_of_cons; [by left|right; by apply IH].
Qed.

Lemma dict_get_elem (d : Results) k v : dict_get d k = Some v → (k, v) ∈ d.
Proof.
  induction d as [|[k0 v0] d IH]; simpl; [done|].
  destruct (decide (k0 = k)) as [->|Hne]; [intros [= ->]; by left|].
  intros Hget. right. by apply IH.
Qed.

Section ComparisonInvariant.
Variable P : result_key → DataFrame → Prop.
Variables (operation_column : string) (ref_data : ValidatedData).

Lemma compare_column_inv ref_name other_name merged_df st col_name st' :
  all_items P st.1 →
  (∀ frame, stored_from operation_column merged_df col_name frame →
            P (col_name, ref_name, other_name) frame) →
  compare_column operation_column ref_name other_name merged_df st col_name = Some st' →
  all_items P st'.1.
Proof.
  intros Hst HP. rw /compare_column.
  destruct (has_column merged_df _); simpl; [|by intros [= <-]].
  destruct (has_column merged_df _); simpl; [|by intros [= <-]].
  destruct (getitem merged_df (col_name +:+ "_REF")) as [|[r|?]|] eqn:Hr;
    try by intros [= <-].
  destruct (getitem merged_df (col_name +:+ "_OTH")) as [|[o|?]|] eqn:Ho;
    try by intros [= <-].
  destruct (getitem merged_df operation_column) as [|keys|] eqn:Hk; try done.
  intros [= <-]. simpl. intros k v [[-> ->]|Hin]%dict_set_elem; [|by apply Hst].
  apply HP. by exists keys, r, o.
Qed.

Lemma compare_columns_inv ref_name other_name merged_df cols st st' :
  all_items P st.1 →
  (∀ col_name frame, col_name ∈ cols →
                     stored_from operation_column merged_df col_name frame →
                     P (col_name, ref_name, other_name) frame) →
  compare_columns operation_column ref_name other_name merged_df st cols = Some st' →
  all_items P st'.1.
Proof.
  revert st. induction cols as [|c cols IH]; intros st Hst HP; simpl.
  - by intros [= <-].
  - destruct (compare_column _ _ _ _ st c) as [st1|] eqn:Hc; [|done].
    apply IH.
    + eapply compare_column_inv; [done| |done]. intros frame. apply HP. by left.
    + intros col frame Hin. apply HP. by right.
Qed.

Lemma compare_pair_inv st other_data st' :
  all_items P st.1 →
  (∀ merged_df col_name frame,
     merge_pair ref_data other_data operation_column = inr merged_df →
     col_name ∈ numeric_columns ref_data →
     stored_from operation_column merged_df col_name frame →
     P (col_name, filename ref_data, filename other_data) frame) →
  compare_pair operation_column ref_data st other_data = Some st' →
  all_items P st'.1.
Proof.
  intros Hst HP. rw /compare_pair.
  destruct (merge_pair ref_data other_data operation_column) as [e|merged_df] eqn:Hm.
  { by intros [= <-]. }
  destruct (empty merged_df); [by intros [= <-]|].
  apply compare_columns_inv; [done|]. intros col frame. by apply HP.
Qed.

Lemma compare_pairs_inv others st st' :
  all_items P st.1 →
  (∀ other_data merged_df col_name frame,
     other_data ∈ others →
     merge_pair ref_data other_data operation_column = inr merged_df →
     col_name ∈ numeric_columns ref_data →
     stored_from operation_column merged_df col_name frame →
     P (col_name, filename ref_data, filename other_data) frame) →
  compare_pairs operation_column ref_data st others = Some st' →
  all_items P st'.1.
Proof.
  revert st. induction others as [|other others IH]; intros st Hst HP; simpl.
  - by intros [= <-].
  - destruct (compare_pair _ _ st other) as [st1|] eqn:Hc; [|done].
    apply IH.
    + eapply compare_pair_inv; [done| |done]. intros merged col frame.
      apply HP. by left.
    + intros o merged col frame Hin. apply HP. by right.
Qed.

End ComparisonInvariant.

Lemma perform_column_comparison_inv (P : result_key → DataFrame → Prop) data op st :
  (∀ ref_data other_data merged_df col_name frame,
     head data = Some ref_data → other_data ∈ tail data →
     merge_pair ref_data other_data op = inr merged_df →
     col_name ∈ numeric_columns ref_data → stored_from op merged_df col_name frame →
     P (col_name, filename ref_data, filename other_data) frame) →
  perform_column_comparison data op = Some st →
  all_items P st.1.
Proof.
  intros HP. rw /perform_column_comparison.
  destruct data as [|ref_data [|o others]];
    try (intros [= <-] k v Hin; by apply elem_of_nil in Hin).
  apply compare_pairs_inv; [by intros k v ?%elem_of_nil|]. intros other merged col frame Hin.
  by apply HP.
Qed.

Lemma getitem_elem (df : DataFrame) l s : getitem df l = OneColumn s → (l, s) ∈ df.
Proof.
  rw /getitem. intros Hg.
  assert (∀ c, c ∈ filter (λ c : string * Series, c.1 = l) df → c.1 = l ∧ c ∈ df) as Hf.
  { intros c. by rw list_elem_of_filter. }
  destruct (filter _ df) as [|[c x] [|? ?]]; try done.
  injection Hg as ->. destruct (Hf (c, s)) as [Hc ?]; [by left|]. simpl in Hc. by subst.
Qed.

Lemma take_series_len s indexer : series_len (take s indexer) = length indexer.
Proof. destruct s; simpl; by rw take_vals_length. Qed.

(** Every column of a merged frame has one cell for each row pair. *)
Lemma merge_series_len left right on lsuffix rsuffix merged :
  merge left right on lsuffix rsuffix = inr merged →
  ∃ n, ∀ l s, (l, s) ∈ merged → series_len s = n.
Proof.
  intros (lkey & rkey & indexers & _ & _ & _ & ->)%merge_inr.
  exists (length indexers). intros l s.
  rw elem_of_app !list_elem_of_fmap.
  intros [([c x] & [= -> ->] & _)|([c x] & [= -> ->] & _)];
    by rw take_series_len length_fmap.
Qed.

Lemma merge_pair_series_len ref_data other_data op merged_df :
  merge_pair ref_data other_data op = inr merged_df →
  ∃ n, ∀ l s, (l, s) ∈ merged_df → series_len s = n.
Proof.
  rw /merge_pair.
  destruct (select (dataframe ref_data) _) as [e|ref_part]; [done|].
  destruct (select (dataframe other_data) _) as [e|other_part]; [done|].
  apply merge_series_len.
Qed.

(** Every frame the comparison stores has a numeric difference column. *)
Lemma comparison_results_have_numeric_differences data op st key df s :
  perform_column_comparison data op = Some st →
  (key, df) ∈ st.1 →
  get_column df "difference" = Some s → is_numeric_dtype s = true.
Proof.
  intros Hrun Hin.
  pose (P := λ (_ : result_key) (fr : DataFrame),
    ∀ s, get_column fr "difference" = Some s → is_numeric_dtype s = true).
  assert (all_items P st.1) as Hall; [|by apply (Hall _ _ Hin)].
  apply (perform_column_comparison_inv P data op st); [|done].
  intros _ _ merged c fr _ _ _ _ (keys & r & o & _ & _ & _ & ->) x.
  rw /frame_of_dict2. destruct (decide (op = "difference")) as [->|Hne]; simpl.
  - destruct (decide ("difference" = "difference")); [|done]. by intros [= <-].
  - destruct (decide (op = "difference")); [done|].
    destruct (decide ("difference" = "difference")); [|done]. by intros [= <-].
Qed.

(** The key columns behind a successful [merge_pair]. *)
Lemma merge_pair_key_column ref_data other_data op merged_df keys :
  merge_pair ref_data other_data op = inr merged_df →
  getitem merged_df op = OneColumn keys →
  ∃ lkey rkey indexers,
    get_column (dataframe ref_data) op = Some lkey ∧
    get_column (dataframe other_data) op = Some rkey ∧
    join_keys lkey rkey = inr indexers ∧ keys = take lkey (indexers.*1).
Proof.
  rw /merge_pair.
  destruct (select (dataframe ref_data) _) as [e|ref_part] eqn:Href; [done|].
  destruct (select (dataframe other_data) _) as [e|other_part] eqn:Hoth; [done|].
  intros Hm Hk.
  destruct (merge_key_column _ _ _ _ _ _ _ Hm Hk) as (lkey & rkey & idx & Hl & Hr & Hj & ->).
  exists lkey, rkey, idx. split_and!; try done.
  - rw (select_get_column _ _ _ op Href) in Hl.
    destruct (decide (op ∈ _)); done.
  - rw (select_get_column _ _ _ op Hoth) in Hr.
    destruct (decide (op ∈ _)); done.
Qed.

Lemma joined_cells_count lkey rkey indexers k :
  join_keys lkey rkey = inr indexers →
  occurrences k (series_cells (take lkey (indexers.*1)))
  = occurrences k (series_cells lkey) * occurrences k (series_cells rkey).
Proof.
  destruct lkey as [a|a], rkey as [b|b]; simpl; try done; intros [= <-].
  - destruct k as [x|y].
    + by rw !(occurrences_fmap_inj inl) joined_keys_count.
    + by rw !(occurrences_fmap_none inl).
  - destruct k as [x|y].
    + by rw !(occurrences_fmap_none inr).
    + by rw !(occurrences_fmap_inj inr) joined_keys_count.
Qed.

(** C10: the inner join gives one row for every pair of a reference row
    and another row with the same key.  Every stored series is built
    from the joined key column [keys] and one difference per joined row,
    and a key value that occurs m times in the reference table and n
    times in the other table occurs m * n times among the joined rows;
    so a series can have more entries than there are shared key values
    (see the witness, where one shared key gives four entries). *)
Theorem join_multiplicity data op results warnings col ref_name other_name frame :
  perform_column_comparison data op = Some (results, warnings) →
  (col, ref_name, other_name, frame) ∈ results →
  ∃ ref_data other_data keys diffs,
    head data = Some ref_data ∧ other_data ∈ tail data ∧
    filename ref_data = ref_name ∧ filename other_data = other_name ∧
    frame = frame_of_dict2 op keys "difference" (NumSeries diffs) ∧
    length diffs = series_len keys ∧
    ∀ k, occurrences k (series_cells keys)
         = occurrences k (key_cells (dataframe ref_data) op)
           * occurrences k (key_cells (dataframe other_data) op).
Proof.
  intros Hrun Hlook.
  pose (P := λ (key : result_key) (fr : DataFrame),
    ∃ ref_data other_data keys diffs,
      head data = Some ref_data ∧ other_data ∈ tail data ∧
      filename ref_data = key.1.2 ∧ filename other_data = key.2 ∧
      fr = frame_of_dict2 op keys "difference" (NumSeries diffs) ∧
      length diffs = series_len keys ∧
      ∀ k, occurrences k (series_cells keys)
           = occurrences k (key_cells (dataframe ref_data) op)
             * occurrences k (key_cells (dataframe other_data) op)).
  assert (all_items P results) as Hall.
  { apply (perform_column_comparison_inv P data op (results, warnings)); [|done].
    intros ref_data other_data merged c fr Hhead Hin Hm Hc (keys & r & o & Hr & Ho & Hk & ->).
    exists ref_data, other_data, keys, (sub_abs r o). split_and!; try done.
    - destruct (merge_pair_series_len _ _ _ _ Hm) as [n Hn].
      apply getitem_elem, Hn in Hr, Ho, Hk. simpl in Hr, Ho.
      rw /sub_abs length_zip_with. lia.
    - intros k.
      destruct (merge_pair_key_column _ _ _ _ _ Hm Hk)
        as (lkey & rkey & idx & Hl & Hrk & Hj & ->).
      rw /key_cells Hl Hrk. simpl. by apply joined_cells_count. }
  apply (Hall _ _ Hlook).
Qed.

Section Warnings.
Variables (operation_column : string) (ref_data : ValidatedData).



Lemma compare_columns_app ref_name other_name merged_df st cols1 cols2 :
  compare_columns operation_column ref_name other_name merged_df st (cols1 ++ cols2)
  = compare_columns operation_column ref_name other_name merged_df st cols1
    ≫= λ st1, compare_columns operation_column ref_name other_name merged_df st1 cols2.
Proof.
  revert st. induction cols1 as [|c cols1 IH]; intros st; simpl; [done|].
  by destruct (compare_column _ _ _ _ st c).
Qed.

Lemma compare_pairs_app st others1 others2 :
  compare_pairs operation_column ref_data st (others1 ++ others2)
  = compare_pairs operation_column ref_data st others1
    ≫= λ st1, compare_pairs operation_column ref_data st1 others2.
Proof.
  revert st. induction others1 as [|o others1 IH]; intros st; simpl; [done|].
  by destruct (compare_pair _ _ st o).
Qed.

Lemma grows_refl st : grows st st.
Proof. by split. Qed.

Lemma grows_trans st1 st2 st3 : grows st1 st2 → grows st2 st3 → grows st1 st3.
Proof. intros [? ?] [? ?]. split; by etrans. Qed.

Lemma grows_warn st t msg : grows st (warn st t msg).
Proof. split; [done|]. by apply prefix_app_r. Qed.

Lemma compare_column_grows ref_name other_name merged_df st col_name st' :
  compare_column operation_column ref_name other_name merged_df st col_name = Some st' →
  grows st st'.
Proof.
  rw /compare_column.
  destruct (has_column merged_df _); simpl; [|intros [= <-]; apply grows_warn].
  destruct (has_column merged_df _); simpl; [|intros [= <-]; apply grows_warn].
  destruct (getitem merged_df (col_name +:+ "_REF")) as [|[r|?]|];
    try (intros [= <-]; apply grows_warn).
  destruct (getitem merged_df (col_name +:+ "_OTH")) as [|[o|?]|];
    try (intros [= <-]; apply grows_warn).
  destruct (getitem merged_df operation_column) as [|keys|]; try done.
  intros [= <-]. split; simpl; [|done]. apply dict_set_keys.
Qed.

Lemma compare_columns_grows ref_name other_name merged_df cols st st' :
  compare_columns operation_column ref_name other_name merged_df st cols = Some st' →
  grows st st'.
Proof.
  revert st. induction cols as [|c cols IH]; intros st; simpl.
  - intros [= <-]. apply grows_refl.
  - destruct (compare_column _ _ _ _ st c) as [st1|] eqn:Hc; [|done].
    intros Hrest. eapply grows_trans; [by eapply compare_column_grows|by apply IH].
Qed.

Lemma compare_pair_grows st other_data st' :
  compare_pair operation_column ref_data st other_data = Some st' → grows st st'.
Proof.
  rw /compare_pair.
  destruct (merge_pair ref_data other_data operation_column) as [e|merged_df].
  { intros [= <-]. apply grows_warn. }
  destruct (empty merged_df); [intros [= <-]; apply grows_warn|].
  apply compare_columns_grows.
Qed.

Lemma compare_pairs_grows others st st' :
  compare_pairs operation_column ref_data st others = Some st' → grows st st'.
Proof.
  revert st. induction others as [|o others IH]; intros st; simpl.
  - intros [= <-]. apply grows_refl.
  - destruct (compare_pair _ _ st o) as [st1|] eqn:Hc; [|done].
    intros Hrest. eapply grows_trans; [by eapply compare_pair_grows|by apply IH].
Qed.

End Warnings.





Section Suffixes.

Lemma append_cons (c : ascii) (a b : string) : String c a +:+ b = String c (a +:+ b).
Proof. reflexivity. Qed.

Lemma length_append (a b : string) :
  String.length (a +:+ b) = String.length a + String.length b.
Proof. induction a as [|c a IH]; [done|]. by rw append_cons /= IH. Qed.

Lemma append_suffix_inj (a b s1 s2 : string) :
  String.length s1 = String.length s2 → a +:+ s1 = b +:+ s2 → a = b ∧ s1 = s2.
Proof.
  revert b. induction a as [|c a IH]; intros [|c' b] Hlen Heq.
  - done.
  - apply (f_equal String.length) in Heq. rw !length_append /= in Heq. lia.
  - apply (f_equal String.length) in Heq. rw !length_append /= in Heq. lia.
  - rw !append_cons in Heq. injection Heq as -> Heq.
    destruct (IH b Hlen Heq) as [-> ->]. done.
Qed.

Lemma suffix_ref_inj (a b : string) : a +:+ "_REF" = b +:+ "_REF" → a = b.
Proof. by intros [? _]%append_suffix_inj. Qed.

Lemma suffix_oth_inj (a b : string) : a +:+ "_OTH" = b +:+ "_OTH" → a = b.
Proof. by intros [? _]%append_suffix_inj. Qed.

Lemma suffix_ref_oth (a b : string) : a +:+ "_REF" ≠ b +:+ "_OTH".
Proof. by intros [_ ?]%append_suffix_inj. Qed.

End Suffixes.

Section PlainMerge.
Implicit Types (df left right merged : DataFrame) (s : Series).

Lemma select_elem df labels part l s :
  select df labels = inr part → (l, s) ∈ part → get_column df l = Some s.
Proof.
  revert part. induction labels as [|c labels IH]; intros part Hsel; simpl in Hsel.
  - injection Hsel as <-. by intros ?%elem_of_nil.
  - destruct (get_column df c) as [x|] eqn:Hc; [|done].
    destruct (select df labels) as [e|cols]; [done|]. injection Hsel as <-.
    intros [[= -> ->]|Hin]%elem_of_cons; [done|]. by apply (IH cols).
Qed.

Lemma without_elem on df l s : (l, s) ∈ without on df → (l, s) ∈ df.
Proof. rw /without. by intros [_ ?]%list_elem_of_filter. Qed.

(** Where a suffixed label of a merged frame comes from, when no label
    of the two sides ends in a suffix. *)
Lemma merge_ref_column left right on merged col s :
  merge left right on "_REF" "_OTH" = inr merged →
  (∀ l, l ∈ columns left → plain_label l) →
  (∀ l, l ∈ columns right → plain_label l) →
  (col +:+ "_REF", s) ∈ merged →
  ∃ lkey rkey indexers x,
    get_column left on = Some lkey ∧ get_column right on = Some rkey ∧
    join_keys lkey rkey = inr indexers ∧
    (col, x) ∈ left ∧ s = take x (indexers.*1).
Proof.
  intros (lkey & rkey & indexers & Hl & Hr & Hj & ->)%merge_inr Hleft Hright.
  rw elem_of_app !list_elem_of_fmap.
  intros [([c x] & [= Hlabel ->] & Hin)|([c x] & [= Hlabel ->] & Hin)];
    rw /rename_overlap in Hlabel; simpl in Hlabel; case_bool_decide.
  - apply suffix_ref_inj in Hlabel as ->. by exists lkey, rkey, indexers, x.
  - assert (plain_label c) as Hplain.
    { apply Hleft, list_elem_of_fmap. by exists (c, x). }
    by destruct (Hplain col) as [Hno _].
  - by apply suffix_ref_oth in Hlabel.
  - assert (plain_label c) as Hplain.
    { apply Hright, list_elem_of_fmap. exists (c, x). split; [done|]. by eapply without_elem. }
    by destruct (Hplain col) as [Hno _].
Qed.

Lemma merge_oth_column left right on merged col s :
  merge left right on "_REF" "_OTH" = inr merged →
  (∀ l, l ∈ columns left → plain_label l) →
  (∀ l, l ∈ columns right → plain_label l) →
  (col +:+ "_OTH", s) ∈ merged →
  ∃ lkey rkey indexers x,
    get_column left on = Some lkey ∧ get_column right on = Some rkey ∧
    join_keys lkey rkey = inr indexers ∧
    (col, x) ∈ right ∧ s = take x (indexers.*2).
Proof.
  intros (lkey & rkey & indexers & Hl & Hr & Hj & ->)%merge_inr Hleft Hright.
  rw elem_of_app !list_elem_of_fmap.
  intros [([c x] & [= Hlabel ->] & Hin)|([c x] & [= Hlabel ->] & Hin)];
    rw /rename_overlap in Hlabel; simpl in Hlabel; case_bool_decide.
  - symmetry in Hlabel. by apply suffix_ref_oth in Hlabel.
  - assert (plain_label c) as Hplain.
    { apply Hleft, list_elem_of_fmap. by exists (c, x). }
    by destruct (Hplain col) as [_ Hno].
  - apply suffix_oth_inj in Hlabel as ->. exists lkey, rkey, indexers, x.
    split_and!; try done. by eapply without_elem.
  - assert (plain_label c) as Hplain.
    { apply Hright, list_elem_of_fmap. exists (c, x). split; [done|]. by eapply without_elem. }
    by destruct (Hplain col) as [_ Hno].
Qed.

Lemma select_columns df labels part l :
  select df labels = inr part → l ∈ columns part → l ∈ columns df.
Proof.
  intros Hsel ([c s] & -> & Hin)%list_elem_of_fmap.
  apply get_column_columns. exists s. by eapply select_elem.
Qed.

End PlainMerge.

Section PlainComparison.
Variables (operation_column : string) (ref_data other_data : ValidatedData).
Hypothesis Hplain_ref : ∀ l, l ∈ columns (dataframe ref_data) → plain_label l.
Hypothesis Hplain_other : ∀ l, l ∈ columns (dataframe other_data) → plain_label l.

(** With plain labels, the two columns the loop subtracts are the
    column of the reference table and the column of the other table, at
    the row pairs of the join. *)
Lemma merge_pair_columns merged_df col_name keys r o :
  merge_pair ref_data other_data operation_column = inr merged_df →
  getitem merged_df (col_name +:+ "_REF") = OneColumn (NumSeries r) →
  getitem merged_df (col_name +:+ "_OTH") = OneColumn (NumSeries o) →
  getitem merged_df operation_column = OneColumn keys →
  ∃ lkey rkey indexers refcol othcol,
    get_column (dataframe ref_data) operation_column = Some lkey ∧
    get_column (dataframe other_data) operation_column = Some rkey ∧
    join_keys lkey rkey = inr indexers ∧
    keys = take lkey (indexers.*1) ∧
    get_column (dataframe ref_data) col_name = Some (NumSeries refcol) ∧
    get_column (dataframe other_data) col_name = Some (NumSeries othcol) ∧
    r = take_vals refcol (indexers.*1) ∧ o = take_vals othcol (indexers.*2).
Proof.
  intros Hm Hr Ho Hk.
  destruct (merge_pair_key_column _ _ _ _ _ Hm Hk)
    as (lkey & rkey & indexers & Hl & Hrk & Hj & ->).
  revert Hm. rw /merge_pair.
  destruct (select (dataframe ref_data) _) as [e|ref_part] eqn:Href; [done|].
  destruct (select (dataframe other_data) _) as [e|other_part] eqn:Hoth; [done|].
  intros Hm.
  assert (∀ l, l ∈ columns ref_part → plain_label l) as Hp1.
  { intros l Hl'. apply Hplain_ref. by eapply select_columns. }
  assert (∀ l, l ∈ columns other_part → plain_label l) as Hp2.
  { intros l Hl'. apply Hplain_other. by eapply select_columns. }
  assert (get_column ref_part operation_column = Some lkey) as Hl1.
  { rw (select_get_column _ _ _ operation_column Href).
    destruct (merge_inr _ _ _ _ _ _ Hm) as (lk & ? & ? & Hlk & _).
    rw (select_get_column _ _ _ operation_column Href) in Hlk.
    by destruct (decide (operation_column ∈ _)). }
  assert (get_column other_part operation_column = Some rkey) as Hr1.
  { rw (select_get_column _ _ _ operation_column Hoth).
    destruct (merge_inr _ _ _ _ _ _ Hm) as (? & rk & ? & _ & Hrk' & _).
    rw (select_get_column _ _ _ operation_column Hoth) in Hrk'.
    by destruct (decide (operation_column ∈ _)). }
  apply getitem_elem in Hr, Ho.
  destruct (merge_ref_column _ _ _ _ _ _ Hm Hp1 Hp2 Hr)
    as (lkey1 & rkey1 & idx1 & x & Hl2 & Hr2 & Hj1 & Hx & Htake1).
  destruct (merge_oth_column _ _ _ _ _ _ Hm Hp1 Hp2 Ho)
    as (lkey2 & rkey2 & idx2 & y & Hl3 & Hr3 & Hj2 & Hy & Htake2).
  rw Hl1 in Hl2, Hl3. rw Hr1 in Hr2, Hr3.
  injection Hl2 as <-. injection Hl3 as <-. injection Hr2 as <-. injection Hr3 as <-.
  rw Hj in Hj1, Hj2. injection Hj1 as <-. injection Hj2 as <-.
  apply (select_elem _ _ _ _ _ Href) in Hx.
  apply (select_elem _ _ _ _ _ Hoth) in Hy.
  destruct x as [refcol|?]; [|done]. destruct y as [othcol|?]; [|done].
  injection Htake1 as ->. injection Htake2 as ->.
  by exists lkey, rkey, indexers, refcol, othcol.
Qed.

End PlainComparison.

Lemma take_vals_lookup {A} (v : list (option A)) indexer p x :
  take_vals v indexer !! p = Some x ↔ ∃ i, indexer !! p = Some i ∧ x = default None (v !! i).
Proof.
  rw /take_vals. change (map ?f indexer) with (f <$> indexer). rw list_lookup_fmap.
  destruct (indexer !! p) as [i|]; simpl.
  - split; [intros [= <-]; by exists i|]. by intros (i' & [= <-] & ->).
  - split; [done|]. by intros (i' & ? & _).
Qed.

(** A row of the joined key column comes from a row of each side with
    that key. *)
Lemma joined_rows lkey rkey indexers p k :
  join_keys lkey rkey = inr indexers →
  series_cells (take lkey (indexers.*1)) !! p = Some k →
  ∃ i j, indexers !! p = Some (i, j) ∧
         series_cells lkey !! i = Some k ∧ series_cells rkey !! j = Some k.
Proof.
  assert (∀ {A} `{EqDecision A} (a b : list (option A)) x,
    take_vals a ((inner_join_indexers a b).*1) !! p = Some x →
    ∃ i j, inner_join_indexers a b !! p = Some (i, j) ∧
           a !! i = Some x ∧ b !! j = Some x) as Hgen.
  { intros A ? a b x (i & Hi & ->)%take_vals_lookup.
    rw list_lookup_fmap in Hi.
    destruct (inner_join_indexers a b !! p) as [[i' j]|] eqn:Hp; [|done].
    injection Hi as ->. exists i, j. split; [done|].
    assert ((i, j) ∈ inner_join_indexers a b) as Hin.
    { apply list_elem_of_lookup. by exists p. }
    apply inner_join_indexers_elem in Hin as (kk & Ha & Hb). by rw Ha. }
  destruct lkey as [a|a], rkey as [b|b]; simpl; try done; intros [= <-];
    change (map ?f ?l) with (f <$> l); rw list_lookup_fmap;
    intros Hlook;
    destruct (take_vals a _ !! p) as [x|] eqn:Hx; try done;
    injection Hlook as <-;
    destruct (Hgen _ _ a b x Hx) as (i & j & Hp & Ha & Hb);
    exists i, j; rw !list_lookup_fmap Ha Hb; done.
Qed.

(** C1, for plain labels: the key values of a stored series are the
    keys both tables carry, and every difference is the absolute
    difference of the two cells of a row pair with that key. *)
Theorem plain_labels_give_sound_differences data op results warnings
    col ref_name other_name frame :
  perform_column_comparison data op = Some (results, warnings) →
  (col, ref_name, other_name, frame) ∈ results →
  op ≠ "difference" →
  (∀ t l, t ∈ data → l ∈ columns (dataframe t) → plain_label l) →
  ∃ ref_data other_data keys diffs refcol othcol,
    head data = Some ref_data ∧ other_data ∈ tail data ∧
    filename ref_data = ref_name ∧ filename other_data = other_name ∧
    get_column frame op = Some keys ∧
    get_column frame "difference" = Some (NumSeries diffs) ∧
    get_column (dataframe ref_data) col = Some (NumSeries refcol) ∧
    get_column (dataframe other_data) col = Some (NumSeries othcol) ∧
    (∀ k, k ∈ series_cells keys ↔
          k ∈ key_cells (dataframe ref_data) op ∧ k ∈ key_cells (dataframe other_data) op) ∧
    (∀ p k d, series_cells keys !! p = Some k → diffs !! p = Some d →
       ∃ i j, key_cells (dataframe ref_data) op !! i = Some k ∧
              key_cells (dataframe other_data) op !! j = Some k ∧
              d = abs_diff (default None (refcol !! i)) (default None (othcol !! j))).
Proof.
  intros Hrun Hin Hop Hplain.
  pose (P := λ (key : result_key) (fr : DataFrame),
    ∃ ref_data other_data keys diffs refcol othcol,
      head data = Some ref_data ∧ other_data ∈ tail data ∧
      filename ref_data = key.1.2 ∧ filename other_data = key.2 ∧
      get_column fr op = Some keys ∧
      get_column fr "difference" = Some (NumSeries diffs) ∧
      get_column (dataframe ref_data) key.1.1 = Some (NumSeries refcol) ∧
      get_column (dataframe other_data) key.1.1 = Some (NumSeries othcol) ∧
      (∀ k, k ∈ series_cells keys ↔
            k ∈ key_cells (dataframe ref_data) op ∧
            k ∈ key_cells (dataframe other_data) op) ∧
      (∀ p k d, series_cells keys !! p = Some k → diffs !! p = Some d →
         ∃ i j, key_cells (dataframe ref_data) op !! i = Some k ∧
                key_cells (dataframe other_data) op !! j = Some k ∧
                d = abs_diff (default None (refcol !! i)) (default None (othcol !! j)))).
  assert (all_items P results) as Hall; [|by apply (Hall _ _ Hin)].
  apply (perform_column_comparison_inv P data op (results, warnings)); [|done].
  intros ref_data other_data merged c fr Hhead Hother Hm Hc (keys & r & o & Hr & Ho & Hk & ->).
  assert (ref_data ∈ data) as Hrd.
  { destruct data as [|x data']; [done|]. injection Hhead as ->. by left. }
  assert (other_data ∈ data) as Hod.
  { destruct data as [|x data']; [by apply elem_of_nil in Hother|]. by right. }
  destruct (merge_pair_columns op ref_data other_data
              (λ l, Hplain ref_data l Hrd) (λ l, Hplain other_data l Hod)
              merged c keys r o Hm Hr Ho Hk)
    as (lkey & rkey & idx & refcol & othcol & Hl & Hrk & Hj & -> & Hrc & Hoc & -> & ->).
  exists ref_data, other_data, (take lkey idx.*1),
    (sub_abs (take_vals refcol idx.*1) (take_vals othcol idx.*2)), refcol, othcol.
  rw /frame_of_dict2 /key_cells Hl Hrk /=.
  destruct (decide (op = "difference")) as [?|_]; [done|]. simpl.
  destruct (decide (op = op)) as [_|?]; [|done].
  destruct (decide (op = "difference")) as [?|_]; [done|].
  split_and!; try done.
  - intros k. rw -!occurrences_pos (joined_cells_count _ _ _ _ Hj). nia.
  - intros p k d Hkp Hdp.
    destruct (joined_rows _ _ _ _ _ Hj Hkp) as (i & j & Hp & Hi & Hjj).
    exists i, j. split_and!; try done.
    apply lookup_zip_with_Some in Hdp as (x & y & -> & Hx & Hy).
    apply take_vals_lookup in Hx as (i' & Hi' & ->).
    apply take_vals_lookup in Hy as (j' & Hj' & ->).
    rw list_lookup_fmap Hp in Hi'. rw list_lookup_fmap Hp in Hj'.
    by injection Hi' as <-; injection Hj' as <-.
Qed.

(** C1, where the code departs from it: the reference table has the
    numeric columns [a] and [a_REF], the other table has [a_OTH] and no
    column [a].  No label is shared, so the merge adds no suffix, and
    the loop finds [a_REF] and [a_OTH] in the merged frame: the series
    stored for column [a] holds |100 - 7| = 93, the difference of two
    other columns, where the other table has no cell for [a] at all. *)
Lemma suffix_labels_compare_other_columns :
  ∃ warnings,
    perform_column_comparison [suffix_ref; suffix_other] "id"
    = Some ([(("a", "ref.csv", "other.csv"),
              [("id", nums [1]); ("difference", nums [93])]%Z)], warnings) ∧
    get_column (dataframe suffix_ref) "a" = Some (nums [10])%Z ∧
    get_column (dataframe suffix_ref) "a_REF" = Some (nums [100])%Z ∧
    get_column (dataframe suffix_other) "a" = None ∧
    get_column (dataframe suffix_other) "a_OTH" = Some (nums [7])%Z.
Proof. eexists. split; [vm_compute; reflexivity|]. by vm_compute. Qed.

(** C10 at two tables that both carry the key 1 twice: four joined rows
    for the one shared key. *)
Lemma join_multiplicity_witness :
  perform_column_comparison [dup_ref; dup_other] "id"
  = Some ([(("v", "ref.csv", "other.csv"), dup_frame)], []) ∧
  (("v", "ref.csv", "other.csv"), dup_frame)
    ∈ [(("v", "ref.csv", "other.csv"), dup_frame)] ∧
  ∃ keys, get_column dup_frame "id" = Some keys ∧
    ∀ k, occurrences k (series_cells keys)
         = occurrences k (key_cells (dataframe dup_ref) "id")
           * occurrences k (key_cells (dataframe dup_other) "id").
Proof.
  assert (perform_column_comparison [dup_ref; dup_other] "id"
          = Some ([(("v", "ref.csv", "other.csv"), dup_frame)], [])) as Hrun.
  { vm_compute. reflexivity. }
  assert ((("v", "ref.csv", "other.csv"), dup_frame)
            ∈ [(("v", "ref.csv", "other.csv"), dup_frame)]) as Hin by (by left).
  split; [done|]. split; [done|].
  destruct (join_multiplicity _ _ _ _ _ _ _ _ Hrun Hin)
    as (r & o & keys & diffs & Hhead & Hother & _ & _ & Hframe & _ & Hcount).
  injection Hhead as <-.
  apply list_elem_of_singleton in Hother as ->.
  exists keys. split; [|apply Hcount].
  rw /frame_of_dict2 in Hframe. destruct (decide ("id" = "difference")); [done|].
  by injection Hframe as <- _.
Defined.


End ComparisonProofs.

(** ** The validator *)
Module ValidatorProofs.
Import Pandas Validator ValidatorExamples.

Section ValidatorFacts.
Variable numeric_of_string : string → option Z.
Local Abbreviation to_numeric := (to_numeric numeric_of_string).
Local Abbreviation validate_item := (validate_item numeric_of_string).
Local Abbreviation coerced := (coerced numeric_of_string).
Implicit Types (h : Heap) (df : DataFrame).

Lemma get_column_setitem df l s : get_column (setitem df l s) l = Some s.
Proof.
  induction df as [|[c x] df IH]; simpl; [by rw decide_True|].
  destruct (decide (c = l)) as [->|Hne]; simpl; [by rw decide_True|].
  by rw decide_False.
Qed.

Lemma key_column_setitem df l s : key_column (setitem df l s) l = s.
Proof. by rw /key_column get_column_setitem. Qed.

Lemma to_numeric_numeric s : is_numeric_dtype s = true → to_numeric s = s.
Proof. by destruct s. Qed.

Lemma to_numeric_is_numeric s : is_numeric_dtype (to_numeric s) = true.
Proof. by destruct s. Qed.

Lemma key_column_coerced df op :
  key_column (coerced df op) op = to_numeric (key_column df op).
Proof.
  rw /coerced. destruct (is_numeric_dtype (key_column df op)) eqn:Hn.
  - by rw to_numeric_numeric.
  - by rw key_column_setitem.
Qed.

Lemma finish_item_heap name l op h : (finish_item name l op h).2 = h.
Proof.
  rw /finish_item /mbind /ST_mbind /bind /read /=.
  destruct (isna_any _); [done|]. by destruct (filter _ _).
Qed.

Lemma finish_item_inr name l op h v :
  (finish_item name l op h).1 = inr v →
  v_filename v = name ∧ v_dataframe v = l ∧
  isna_any (key_column (h !!! l) op) = false.
Proof.
  rw /finish_item /mbind /ST_mbind /bind /read /=.
  destruct (isna_any _); [done|]. destruct (filter _ _); [done|].
  simpl. by intros [= <-].
Qed.

Lemma finish_item_nan name l op h :
  isna_any (key_column (h !!! l) op) = true →
  (finish_item name l op h).1
  = inl {| e_filename := name; e_error := contains_nan_message op |}.
Proof.
  intros Hna. by rw /finish_item /mbind /ST_mbind /bind /read /= Hna.
Qed.

(** The store after one item: one new object, the copy. *)
Lemma validate_item_heap item op h :
  ∃ df', (validate_item item op h).2 = <[fresh (dom h) := df']> h.
Proof.
  rw /validate_item /mbind /ST_mbind /bind /copy /read /assign_column /=.
  rw lookup_total_insert_eq.
  destruct (has_column _ op); simpl; [|by eexists].
  destruct (is_numeric_dtype _); simpl.
  { rw finish_item_heap. by eexists. }
  destruct (_ && _); [by eexists|].
  rw lookup_total_insert_eq insert_insert_eq.
  destruct (isna_any _); [by eexists|].
  rw finish_item_heap. by eexists.
Qed.

Lemma validate_item_inr item op h v :
  (validate_item item op h).1 = inr v →
  v_filename v = filename item ∧ v_dataframe v = fresh (dom h) ∧
  (validate_item item op h).2 = <[fresh (dom h) := coerced (h !!! dataframe item) op]> h ∧
  has_column (h !!! dataframe item) op = true ∧
  isna_any (to_numeric (key_column (h !!! dataframe item) op)) = false.
Proof.
  rw /validate_item /mbind /ST_mbind /bind /copy /read /assign_column /=.
  rw lookup_total_insert_eq /coerced.
  destruct (has_column _ op); simpl; [|done].
  destruct (is_numeric_dtype _) eqn:Hnum; simpl.
  { rw finish_item_heap. intros Hv.
    apply finish_item_inr in Hv as (? & ? & Hna). rw lookup_total_insert_eq in Hna.
    split_and!; try done. by rw to_numeric_numeric. }
  destruct (_ && _); [done|].
  rw lookup_total_insert_eq insert_insert_eq key_column_setitem.
  destruct (isna_any _) eqn:Hna; [done|].
  rw finish_item_heap. intros Hv.
  apply finish_item_inr in Hv as (? & ? & _). by rw !lookup_total_insert_eq.
Qed.

Lemma validate_item_nan item op h :
  has_column (h !!! dataframe item) op = true →
  isna_any (to_numeric (key_column (h !!! dataframe item) op)) = true →
  (validate_item item op h).1
  = inl {| e_filename := filename item;
           e_error := nan_rejection numeric_of_string (h !!! dataframe item) op |}.
Proof.
  intros Hhas Hna.
  rw /validate_item /mbind /ST_mbind /bind /copy /read /assign_column /=.
  rw lookup_total_insert_eq /nan_rejection Hhas /=.
  destruct (is_numeric_dtype _) eqn:Hnum; simpl.
  { rw finish_item_nan; [|done].
    rw lookup_total_insert_eq. by rw to_numeric_numeric in Hna. }
  destruct (_ && _); [done|].
  by rw lookup_total_insert_eq insert_insert_eq key_column_setitem Hna.
Qed.

End ValidatorFacts.

Section ValidatorLoop.
Variable numeric_of_string : string → option Z.
Local Abbreviation to_numeric := (to_numeric numeric_of_string).
Local Abbreviation validate_item := (validate_item numeric_of_string).
Local Abbreviation validate_items := (validate_items numeric_of_string).
Local Abbreviation coerced := (coerced numeric_of_string).
Local Abbreviation accepted := (accepted numeric_of_string).
Local Abbreviation nan_rejected := (nan_rejected numeric_of_string).
Implicit Types (h : Heap) (df : DataFrame).

Lemma validate_item_subseteq item op h : h ⊆ (validate_item item op h).2.
Proof.
  destruct (validate_item_heap numeric_of_string item op h) as [df' ->].
  apply insert_subseteq, not_elem_of_dom, is_fresh.
Qed.

Lemma lookup_total_subseteq h h' l : l ∈ dom h → h ⊆ h' → h' !!! l = h !!! l.
Proof.
  intros [df Hl]%elem_of_dom Hsub.
  rw !lookup_total_alt Hl. by rw (lookup_weaken _ _ _ _ Hl Hsub).
Qed.

Lemma validate_items_spec items op vs es h :
  (∀ item, item ∈ items → dataframe item ∈ dom h) →
  let r := validate_items items op vs es h in
  h ⊆ r.2 ∧
  ∃ new_vs new_es,
    r.1.1 = vs ++ new_vs ∧ r.1.2 = es ++ new_es ∧
    length new_vs + length new_es = length items ∧
    (∀ v, v ∈ new_vs → ∃ item, item ∈ items ∧ accepted op h r.2 item v) ∧
    (∀ item, item ∈ items → nan_rejected op h item →
       {| e_filename := filename item;
          e_error := nan_rejection numeric_of_string (h !!! dataframe item) op |} ∈ new_es).
Proof.
  revert vs es h. induction items as [|item items IH]; intros vs es h Hdom; simpl.
  { split; [done|]. exists [], []. rw !app_nil_r. split_and!; try done.
    - by intros v ?%elem_of_nil.
    - by intros item ?%elem_of_nil. }
  rw /mbind /ST_mbind /bind.
  pose proof (validate_item_subseteq item op h) as Hsub.
  destruct (validate_item item op h) as [out h1] eqn:Hitem. simpl in Hsub.
  assert (∀ it, it ∈ items → dataframe it ∈ dom h1) as Hdom1.
  { intros it Hit. eapply (subseteq_dom h h1); [done|]. apply Hdom. by right. }
  assert (∀ it, it ∈ item :: items → h1 !!! dataframe it = h !!! dataframe it) as Hsame.
  { intros it Hit. apply lookup_total_subseteq; [by apply Hdom|done]. }
  destruct out as [e|v0].
  - destruct (IH vs (es ++ [e]) h1 Hdom1)
      as (Hsub' & new_vs & new_es & Hvs & Hes & Hlen & Hacc & Hrej).
    split; [by etrans|]. exists new_vs, (e :: new_es).
    rw Hvs Hes -assoc. split_and!; try done.
    + simpl. lia.
    + intros v Hv. destruct (Hacc v Hv) as (it & Hit & Hf & Hfresh & Hlook & Hhas & Hna).
      exists it. split; [by right|]. rw /accepted. rw -(Hsame it); [by right|].
      split_and!; try done. intros Hin. apply Hfresh. by eapply (subseteq_dom h h1).
    + intros it [->|Hit]%elem_of_cons Hn.
      * destruct Hn as [Hhas Hna].
        pose proof (validate_item_nan numeric_of_string item op h Hhas Hna) as Hout.
        rw Hitem in Hout. simpl in Hout. injection Hout as ->. by left.
      * right. rw -(Hsame it); [by right|]. apply Hrej; [done|].
        rw /nan_rejected. rw (Hsame it); [by right|]. done.
  - destruct (IH (vs ++ [v0]) es h1 Hdom1)
      as (Hsub' & new_vs & new_es & Hvs & Hes & Hlen & Hacc & Hrej).
    split; [by etrans|]. exists (v0 :: new_vs), new_es.
    rw Hvs Hes -assoc. split_and!; try done.
    + simpl. lia.
    + intros v [->|Hv]%elem_of_cons.
      * exists item. split; [by left|].
        pose proof (validate_item_inr numeric_of_string item op h v0) as Hin.
        rw Hitem in Hin. destruct (Hin eq_refl) as (Hf & Hl & Hh & Hhas & Hna).
        rw /accepted Hl. split_and!; try done; [apply is_fresh|].
        simpl in Hh. apply (lookup_weaken h1); [|done]. by rw Hh lookup_insert_eq.
      * destruct (Hacc v Hv) as (it & Hit & Hf & Hfresh & Hlook & Hhas & Hna).
        exists it. split; [by right|]. rw /accepted. rw -(Hsame it); [by right|].
        split_and!; try done. intros Hin. apply Hfresh. by eapply (subseteq_dom h h1).
    + intros it [->|Hit]%elem_of_cons Hn.
      * destruct Hn as [Hhas Hna].
        pose proof (validate_item_nan numeric_of_string item op h Hhas Hna) as Hout.
        by rw Hitem in Hout.
      * rw -(Hsame it); [by right|]. apply Hrej; [done|].
        rw /nan_rejected. rw (Hsame it); [by right|]. done.
Qed.

End ValidatorLoop.

Section ValidatorTheorems.
Variable numeric_of_string : string → option Z.
Local Abbreviation to_numeric := (to_numeric numeric_of_string).
Local Abbreviation coerced := (coerced numeric_of_string).
Local Abbreviation validate :=
  (validate_dataframes_for_processing numeric_of_string).

Lemma isna_any_false_numeric s :
  is_numeric_dtype s = true → isna_any s = false →
  ∃ vals, s = NumSeries vals ∧ None ∉ vals.
Proof.
  destruct s as [vals|vals]; [|done]. intros _ Hna. exists vals. split; [done|].
  simpl in Hna. intros Hin. apply list_elem_of_In in Hin.
  assert (existsb is_none vals = true) as Hex; [|congruence].
  apply existsb_exists. by exists None.
Qed.

Lemma series_len_to_numeric s : series_len (to_numeric s) = series_len s.
Proof. destruct s; simpl; [done|]. by rw length_map. Qed.

Lemma get_column_setitem_ne (df : DataFrame) l l' s :
  l' ≠ l → get_column (setitem df l s) l' = get_column df l'.
Proof.
  intros Hne. induction df as [|[c x] df IH]; simpl.
  - by rw decide_False.
  - destruct (decide (c = l)) as [->|Hc]; simpl.
    + by rw !decide_False.
    + by rw IH.
Qed.

(** Coercion keeps every column at its length: no row is dropped. *)
Lemma coerced_series_len (df : DataFrame) op c :
  series_len (key_column (coerced df op) c) = series_len (key_column df c).
Proof.
  destruct (decide (c = op)) as [->|Hne].
  - by rw key_column_coerced series_len_to_numeric.
  - rw /coerced. destruct (is_numeric_dtype _); [done|].
    by rw /key_column get_column_setitem_ne.
Qed.

(** C9: validation leaves every object of the caller's store as it was;
    each validated item refers to a new object, not one of the
    caller's, which holds the copy of the item's frame with the key
    column replaced by its coercion when it was not numeric; the
    caller's frame of that item is unchanged. *)
Theorem validation_leaves_inputs_unchanged (items : list Item) (op : string) (h : Heap) :
  (∀ item, item ∈ items → dataframe item ∈ dom h) →
  let r := validate items op h in
  (∀ l df, h !! l = Some df → r.2 !! l = Some df) ∧
  (∀ v, v ∈ r.1.1 →
     (v_dataframe v ∉ dom h) ∧
     ∃ item, item ∈ items ∧ v_filename v = filename item ∧
             r.2 !! v_dataframe v = Some (coerced (h !!! dataframe item) op) ∧
             r.2 !! dataframe item = h !! dataframe item).
Proof.
  intros Hdom r.
  destruct (validate_items_spec numeric_of_string items op [] [] h Hdom)
    as (Hsub & new_vs & new_es & Hvs & Hes & _ & Hacc & _).
  fold r in Hsub, Hvs, Hacc. split.
  - intros l df Hl. by apply (lookup_weaken h).
  - intros v Hv. rw Hvs in Hv. simpl in Hv.
    destruct (Hacc v Hv) as (item & Hit & Hf & Hfresh & Hlook & _).
    split; [done|]. exists item. split_and!; try done.
    pose proof (Hdom item Hit) as [df Hdf]%elem_of_dom.
    rw Hdf. by apply (lookup_weaken h).
Qed.

(** C3, amended: a table that has the key column and keeps a NaN in it
    after numeric coercion is rejected and its diagnostic is recorded:
    the data-loss diagnostic when the column was not numeric, every
    value became NaN and a value was present; one of the two
    missing-values diagnostics otherwise.  Every item gives one
    validated item or one diagnostic; every validated item comes from an
    item without NaN in the coerced key column, its frame has a numeric
    key column with no NaN, and all its columns keep their length (no
    row is dropped). *)
Theorem key_column_nan_is_rejected (items : list Item) (op : string) (h : Heap) :
  (∀ item, item ∈ items → dataframe item ∈ dom h) →
  let r := validate items op h in
  (∀ item, item ∈ items →
     has_column (h !!! dataframe item) op = true →
     isna_any (to_numeric (key_column (h !!! dataframe item) op)) = true →
     {| e_filename := filename item;
        e_error := nan_rejection numeric_of_string (h !!! dataframe item) op |} ∈ r.1.2) ∧
  (∀ v, v ∈ r.1.1 →
     ∃ item vals,
       item ∈ items ∧ v_filename v = filename item ∧
       isna_any (to_numeric (key_column (h !!! dataframe item) op)) = false ∧
       r.2 !! v_dataframe v = Some (coerced (h !!! dataframe item) op) ∧
       key_column (coerced (h !!! dataframe item) op) op = NumSeries vals ∧
       (None ∉ vals) ∧
       ∀ c, series_len (key_column (coerced (h !!! dataframe item) op) c)
            = series_len (key_column (h !!! dataframe item) c)) ∧
  length r.1.1 + length r.1.2 = length items.
Proof.
  intros Hdom r.
  destruct (validate_items_spec numeric_of_string items op [] [] h Hdom)
    as (Hsub & new_vs & new_es & Hvs & Hes & Hlen & Hacc & Hrej).
  fold r in Hsub, Hvs, Hes, Hacc. simpl in Hvs, Hes. split_and!.
  - intros item Hit Hhas Hna. rw Hes. by apply Hrej.
  - intros v Hv. rw Hvs in Hv.
    destruct (Hacc v Hv) as (item & Hit & Hf & Hfresh & Hlook & Hhas & Hna).
    destruct (isna_any_false_numeric (key_column (coerced (h !!! dataframe item) op) op))
      as (vals & Hvals & Hnone).
    { rw key_column_coerced. apply to_numeric_is_numeric. }
    { by rw key_column_coerced. }
    exists item, vals. split_and!; try done. apply coerced_series_len.
  - by rw Hvs Hes.
Qed.

End ValidatorTheorems.

(** C3 as stated fails: a key column of the texts x, y, z has only NaN
    after coercion, and the table is rejected with the data-loss
    diagnostic, which is neither of the missing-values diagnostics. *)
Lemma all_text_key_gets_data_loss_diagnostic :
  let r := validate_dataframes_for_processing decimal_of_string [xyz_item] "op_col" xyz_heap in
  has_column xyz_frame "op_col" = true ∧
  isna_any (to_numeric decimal_of_string (key_column xyz_frame "op_col")) = true ∧
  r.1 = ([], [{| e_filename := "op_not_numeric.csv";
                 e_error := data_loss_message "op_col" |}]) ∧
  data_loss_message "op_col" ≠ converted_nan_message "op_col" ∧
  data_loss_message "op_col" ≠ contains_nan_message "op_col".
Proof. vm_compute. split_and!; done. Qed.

Lemma example_items_allocated :
  ∀ item, item ∈ [nan_item; text_key_item] → dataframe item ∈ dom example_heap.
Proof.
  intros item Hin. apply elem_of_dom.
  apply elem_of_cons in Hin as [->|Hin]; [by eexists|].
  apply list_elem_of_singleton in Hin as ->. by eexists.
Qed.

(** C3 at the key column 1, NaN, 3. *)
Lemma key_column_nan_witness :
  (∀ item, item ∈ [nan_item; text_key_item] → dataframe item ∈ dom example_heap) ∧
  {| e_filename := "op_has_nan.csv"; e_error := contains_nan_message "op_col" |}
    ∈ (validate_dataframes_for_processing decimal_of_string [nan_item; text_key_item]
         "op_col" example_heap).1.2.
Proof.
  split; [apply example_items_allocated|].
  apply (proj1 (key_column_nan_is_rejected decimal_of_string [nan_item; text_key_item]
                  "op_col" example_heap example_items_allocated) nan_item);
    [by left|done|done].
Defined.

(** C9 at a store with a text key column "1", "2", "3": the validated
    frame is a new object with the numbers 1, 2, 3, the caller's frame
    still holds the texts. *)
Lemma validation_copies_witness :
  (∀ item, item ∈ [nan_item; text_key_item] → dataframe item ∈ dom example_heap) ∧
  let r := validate_dataframes_for_processing decimal_of_string [nan_item; text_key_item]
             "op_col" example_heap in
  r.2 !! 1 = Some text_key_frame ∧
  ∃ v, r.1.1 = [v] ∧ v_dataframe v ≠ 1 ∧
       r.2 !! v_dataframe v
       = Some [("op_col", NumSeries [Some 1; Some 2; Some 3]%Z);
               ("data_col1", NumSeries [Some 10; Some 20; Some 30]%Z)].
Proof.
  split; [apply example_items_allocated|]. intros r.
  destruct (validation_leaves_inputs_unchanged decimal_of_string [nan_item; text_key_item]
              "op_col" example_heap example_items_allocated) as [Hsame Hfresh].
  fold r in Hsame, Hfresh. split; [by apply Hsame|].
  destruct r.1.1 as [|v [|? ?]] eqn:Hvs; try by vm_compute in Hvs.
  exists v. split; [done|].
  destruct (Hfresh v) as (Hnew & item & Hitem & Hname & Hlook & _); [by left|].
  split.
  - intros Heq. apply Hnew. rw Heq. apply elem_of_dom. by eexists.
  - rw Hlook. assert (v_filename v = "op_text.csv") as Hv.
    { vm_compute in Hvs. by injection Hvs as <-. }
    rw Hv in Hname.
    apply elem_of_cons in Hitem as [->|Hitem]; [done|].
    apply list_elem_of_singleton in Hitem as ->. by vm_compute.
Defined.

End ValidatorProofs.

(** ** The highlight set of the report *)
Module ReportProofs.
Import Pandas Comparison Report ComparisonExamples.

Section HighlightFacts.
Variables (operation_column : string) (threshold_value : Z).

Lemma mask_vals_elem {A} (v : list A) (mask : list bool) x :
  x ∈ mask_vals v mask ↔ ∃ i, v !! i = Some x ∧ mask !! i = Some true.
Proof.
  rw /mask_vals list_elem_of_fmap. split.
  - intros ([y b] & -> & [Hb Hin]%list_elem_of_filter). simpl in Hb. subst b.
    apply list_elem_of_lookup in Hin as [i Hi].
    apply lookup_zip_with_Some in Hi as (y' & b' & [= <- <-] & ? & ?). by exists i.
  - intros (i & Hv & Hm). exists (x, true). split; [done|].
    apply list_elem_of_filter. split; [done|]. apply list_elem_of_lookup. exists i.
    apply lookup_zip_with_Some. by exists x, true.
Qed.

Lemma series_cells_mask s mask :
  series_cells (mask_series s mask) = mask_vals (series_cells s) mask.
Proof.
  destruct s as [v|v]; simpl; rw /mask_vals.
  - revert mask. induction v as [|a v IH]; intros [|b mask]; simpl; try done.
    rw !filter_cons. destruct b; simpl; by rw IH.
  - revert mask. induction v as [|a v IH]; intros [|b mask]; simpl; try done.
    rw !filter_cons. destruct b; simpl; by rw IH.
Qed.

Lemma get_column_mask_frame (df : DataFrame) mask l :
  get_column (mask_frame df mask) l = (λ s, mask_series s mask) <$> get_column df l.
Proof.
  induction df as [|[c s] df IH]; simpl; [done|]. by destruct (decide (c = l)).
Qed.

Lemma exceeds_lookup (d : list (option Z)) i :
  map (exceeds threshold_value) d !! i = Some true ↔
  ∃ x, d !! i = Some (Some x) ∧ (threshold_value < Z.abs x)%Z.
Proof.
  change (map (exceeds threshold_value) d) with (exceeds threshold_value <$> d).
  rw list_lookup_fmap. destruct (d !! i) as [[x|]|]; simpl.
  - rw /exceeds. split.
    + intros [= Hlt%Z.ltb_lt]. by exists x.
    + intros (x' & [= <-] & Hlt). f_equal. by apply Z.ltb_lt.
  - split; [done|]. by intros (x & ? & _).
  - split; [done|]. by intros (x & ? & _).
Qed.

Lemma foldl_add_both (rname oname : string) (cells : list cell) (acc : HighlightSet)
    (p : string * cell) :
  p ∈ foldl (add_both rname oname) acc cells ↔
  p ∈ acc ∨ ∃ k, k ∈ cells ∧ (p = (rname, k) ∨ p = (oname, k)).
Proof.
  revert acc. induction cells as [|c cells IH]; intros acc; simpl.
  - split; [by left|]. intros [?|(k & ?%elem_of_nil & _)]; done.
  - rw IH /add_both. split.
    + intros [Hin|(k & Hk & Hp)].
      * apply elem_of_union in Hin as [->%elem_of_singleton|Hin].
        { right. exists c. split; [by left|by right]. }
        apply elem_of_union in Hin as [->%elem_of_singleton|Hin]; [|by left].
        right. exists c. split; [by left|by left].
      * right. exists k. split; [by right|done].
    + intros [Hin|(k & [->|Hk]%elem_of_cons & Hp)].
      * left. by do 2 apply elem_of_union_r.
      * left. destruct Hp as [->| ->].
        -- by apply elem_of_union_r, elem_of_union_l, elem_of_singleton.
        -- by apply elem_of_union_l, elem_of_singleton.
      * right. by exists k.
Qed.

(** One frame of the results: what it adds to the set. *)
Lemma highlight_entry_spec (acc : HighlightSet) (col rname oname : string)
    (diff_df : DataFrame) (acc' : HighlightSet) :
  highlight_entry operation_column threshold_value acc ((col, rname, oname), diff_df)
  = Some acc' →
  ∀ f k, (f, k) ∈ acc' ↔
         (f, k) ∈ acc ∨
         (exceeding_row operation_column threshold_value diff_df k ∧ (f = rname ∨ f = oname)).
Proof.
  rw /highlight_entry /exceeding_row.
  destruct (get_column diff_df "difference") as [[d|?]|] eqn:Hd; [|done|].
  - rw get_column_mask_frame.
    destruct (get_column diff_df operation_column) as [keys|] eqn:Hk; simpl.
    + intros [= <-] f k. rw foldl_add_both series_cells_mask. split.
      * intros [?|(k' & Hin & Hp)]; [by left|right].
        apply mask_vals_elem in Hin as (i & Hi & Hm).
        apply exceeds_lookup in Hm as (x & Hx & Hlt).
        destruct Hp as [[= -> ->]|[= -> ->]];
          (split; [by exists d, keys, i, x|]); [by left|by right].
      * intros [?|[(d' & keys' & i & x & [= <-] & [= <-] & Hx & Hlt & Hi) Hf]];
          [by left|right].
        exists k. split.
        { apply mask_vals_elem. exists i. split; [done|].
          apply exceeds_lookup. by exists x. }
        destruct Hf as [->| ->]; [by left|by right].
    + intros [= <-] f k. split; [by left|].
      intros [?|[(d' & keys' & i & x & _ & ? & _) _]]; done.
  - intros [= <-] f k. split; [by left|].
    intros [?|[(d' & keys' & i & x & ? & _) _]]; done.
Qed.

Lemma highlight_entries_spec (entries : list (result_key * DataFrame))
    (acc acc' : HighlightSet) :
  highlight_entries operation_column threshold_value acc entries = Some acc' →
  ∀ f k, (f, k) ∈ acc' ↔
         (f, k) ∈ acc ∨
         ∃ col rname oname diff_df,
           ((col, rname, oname), diff_df) ∈ entries ∧
           exceeding_row operation_column threshold_value diff_df k ∧ (f = rname ∨ f = oname).
Proof.
  revert acc. induction entries as [|[[[col rname] oname] df] entries IH]; intros acc;
    cbn [highlight_entries].
  - intros [= <-] f k. split; [by left|].
    intros [?|(? & ? & ? & ? & ?%elem_of_nil & _)]; done.
  - destruct (highlight_entry operation_column threshold_value acc (col, rname, oname, df))
      as [acc1|] eqn:Hentry; [|done].
    intros Hrest f k. rw (IH _ Hrest) (highlight_entry_spec _ _ _ _ _ _ Hentry). split.
    + intros [[?|[? ?]]|(c & r & o & d & Hin & ?)]; [by left| |].
      * right. exists col, rname, oname, df. split; [by left|done].
      * right. exists c, r, o, d. split; [by right|done].
    + intros [?|(c & r & o & d & [[= -> -> -> ->]|Hin]%elem_of_cons & ?)].
      * by left; left.
      * by left; right.
      * right. by exists c, r, o, d.
Qed.

(** The loop returns as long as no difference column is an object
    column. *)
Lemma highlight_entries_total (entries : list (result_key * DataFrame)) (acc : HighlightSet) :
  (∀ key df s, (key, df) ∈ entries → get_column df "difference" = Some s →
               is_numeric_dtype s = true) →
  is_Some (highlight_entries operation_column threshold_value acc entries).
Proof.
  revert acc. induction entries as [|[[[col rname] oname] df] entries IH]; intros acc Hnum;
    cbn [highlight_entries].
  - by eexists.
  - assert (is_Some (highlight_entry operation_column threshold_value acc (col, rname, oname, df)))
      as [acc1 ->].
    { rw /highlight_entry.
      destruct (get_column df "difference") as [[d|v]|] eqn:Hd.
      - by destruct (get_column _ operation_column); eexists.
      - specialize (Hnum (col, rname, oname) df (ObjSeries v)). simpl in Hnum.
        discriminate Hnum; [by left|done].
      - by eexists. }
    apply IH. intros key df' s Hin. apply (Hnum key). by right.
Qed.

End HighlightFacts.

(** C2: when every difference column is numeric the loop returns the
    highlight set, and a pair (file, key value) is in it exactly when
    some entry of a stored series has that key value and an absolute
    difference strictly greater than the threshold, the file being the
    reference file or the other file of that series; an entry whose
    absolute difference equals the threshold does not exceed it. *)
Theorem highlight_iff_strictly_greater (comparison_results : Results)
    (operation_column : string) (threshold_value : Z) :
  (∀ key df s, (key, df) ∈ comparison_results →
               get_column df "difference" = Some s → is_numeric_dtype s = true) →
  ∃ highlighted,
    rows_to_highlight_map comparison_results operation_column threshold_value
    = Some highlighted ∧
    (∀ f k, (f, k) ∈ highlighted ↔
       ∃ col_name ref_filename other_filename diff_df d keys i x,
         (col_name, ref_filename, other_filename, diff_df) ∈ comparison_results ∧
         get_column diff_df "difference" = Some (NumSeries d) ∧
         get_column diff_df operation_column = Some keys ∧
         d !! i = Some (Some x) ∧ series_cells keys !! i = Some k ∧
         (threshold_value < Z.abs x)%Z ∧
         (f = ref_filename ∨ f = other_filename)) ∧
    (∀ x, Z.abs x = threshold_value → exceeds threshold_value (Some x) = false).
Proof.
  intros Hnum. rw /rows_to_highlight_map.
  destruct (highlight_entries_total operation_column threshold_value
              comparison_results ∅ Hnum) as [highlighted Hrun].
  exists highlighted. split; [done|]. split.
  - intros f k. rw (highlight_entries_spec _ _ _ _ _ Hrun). split.
    + intros [?%not_elem_of_empty|(c & r & o & df & Hin & Hrow & Hf)]; [done|].
      destruct Hrow as (d & keys & i & x & ? & ? & ? & ? & ?).
      by exists c, r, o, df, d, keys, i, x.
    + intros (c & r & o & df & d & keys & i & x & Hl & ? & ? & ? & ? & ? & ?).
      right. exists c, r, o, df. split; [done|].
      split; [|done]. by exists d, keys, i, x.
  - intros x <-. rw /exceeds. apply Z.ltb_irrefl.
Qed.

(** C2 at differences 10, 5, 1 and threshold 5: key 1 is highlighted
    for both files, key 2 (difference equal to the threshold) is not. *)
Lemma highlight_witness :
  (∀ key df s, (key, df) ∈ sample_results →
               get_column df "difference" = Some s → is_numeric_dtype s = true) ∧
  ∃ highlighted,
    rows_to_highlight_map sample_results "op_col" 5 = Some highlighted ∧
    ("file1.csv", inl (Some 1%Z)) ∈ highlighted ∧
    ("file2.csv", inl (Some 1%Z)) ∈ highlighted ∧
    ("file1.csv", inl (Some 2%Z)) ∉ highlighted.
Proof.
  assert (∀ key df s, (key, df) ∈ sample_results →
            get_column df "difference" = Some s → is_numeric_dtype s = true) as Hnum.
  { intros key df s [= -> ->]%list_elem_of_singleton [= <-]. reflexivity. }
  split; [done|].
  destruct (highlight_iff_strictly_greater sample_results "op_col" 5 Hnum)
    as (highlighted & Hrun & Hiff & _).
  exists highlighted. split_and!; [done| | |].
  - apply Hiff.
    exists "val1", "file1.csv", "file2.csv",
      [("op_col", nums [1; 2; 3]); ("difference", nums [10; 5; 1])]%Z,
      (map Some [10; 5; 1]%Z), (nums [1; 2; 3]%Z), 0, 10%Z.
    split_and!; [by left|reflexivity..|lia|by left].
  - apply Hiff.
    exists "val1", "file1.csv", "file2.csv",
      [("op_col", nums [1; 2; 3]); ("difference", nums [10; 5; 1])]%Z,
      (map Some [10; 5; 1]%Z), (nums [1; 2; 3]%Z), 0, 10%Z.
    split_and!; [by left|reflexivity..|lia|by right].
  - intros (c & r & o & df & d & keys & i & x & Hl & Hd & Hk & Hx & Hi & Hlt & _)%Hiff.
    apply list_elem_of_singleton in Hl. injection Hl as _ _ _ ->.
    vm_compute in Hd. injection Hd as <-. vm_compute in Hk. injection Hk as <-.
    destruct i as [|[|[|i]]]; vm_compute in Hx, Hi; try discriminate;
      injection Hx as <-; try discriminate; lia.
Defined.

End ReportProofs.

(** ** The parser *)
Module ParserProofs.
Import Pandas Parser ParserExamples.

Ltac io_simpl :=
  rw /mbind /IO_mbind /io_bind /mret /IO_mret /io_ret /emit /fmap /IO_fmap /io_map /=.

Lemma io_bind_fst {A B} (k : A → IO B) (m : IO A) : (m ≫= k).1 = (k m.1).1.
Proof. io_simpl. destruct m as [a t]. simpl. by destruct (k a). Qed.

Lemma io_bind_snd {A B} (k : A → IO B) (m : IO A) : (m ≫= k).2 = m.2 ++ (k m.1).2.
Proof. io_simpl. destruct m as [a t]. simpl. by destruct (k a). Qed.

Lemma io_fmap_fst {A B} (f : A → B) (m : IO A) : (f <$> m).1 = f m.1.
Proof. done. Qed.

Section ParserLoop.
Variable read_csv : list byte → read_options → exn + DataFrame.
Variable text_lines : list byte → encoding → nat → option (list string).
Variable fs : FileSystem.
Local Abbreviation read_csv_file := (read_csv_file read_csv text_lines fs).
Local Abbreviation read_csv_loop := (read_csv_loop read_csv text_lines fs).
Local Abbreviation read_csv_files := (read_csv_files read_csv text_lines fs).

(** The loop over the files gathers the outcomes of the files, each
    computed on its own. *)
Lemma read_csv_loop_spec names base ds es :
  let outcomes := map (λ name, (read_csv_file name base).1) names in
  read_csv_loop names base ds es
  = ((ds ++ parsed_items outcomes, es ++ error_items outcomes),
     concat (map (λ name, (read_csv_file name base).2) names)).
Proof.
  revert ds es. induction names as [|name names IH]; intros ds es.
  { simpl. by rw !app_nil_r. }
  cbn [Parser.read_csv_loop map concat]. io_simpl.
  destruct (read_csv_file name base) as [[e|item] t] eqn:Hfile; rw IH /=.
  - by rw -!assoc.
  - by rw -!assoc.
Qed.

Lemma read_csv_files_spec names base :
  let outcomes := map (λ name, (read_csv_file name base).1) names in
  read_csv_files names base
  = ((parsed_items outcomes, error_items outcomes),
     concat (map (λ name, (read_csv_file name base).2) names)).
Proof. apply (read_csv_loop_spec names base [] []). Qed.

Lemma read_csv_file_filename name base item :
  (read_csv_file name base).1 = inr item → filename item = name.
Proof.
  rw /Parser.read_csv_file.
  repeat (rw ?io_bind_fst; case_match); try done. all: try by intros [= <-].
Qed.

Lemma parsed_items_elem outcomes item :
  item ∈ parsed_items outcomes ↔ inr item ∈ outcomes.
Proof.
  rw /parsed_items list_elem_of_omap. split.
  - by intros ([e|it] & Hin & [= <-]).
  - intros Hin. by exists (inr item).
Qed.

Lemma error_items_elem outcomes e :
  e ∈ error_items outcomes ↔ inl e ∈ outcomes.
Proof.
  rw /error_items list_elem_of_omap. split.
  - by intros ([e'|it] & Hin & [= <-]).
  - intros Hin. by exists (inl e).
Qed.

(** A table in the output is the outcome of the file it is named
    after. *)
Lemma read_csv_files_parsed names base item :
  item ∈ (read_csv_files names base).1.1 ↔
  filename item ∈ names ∧ (read_csv_file (filename item) base).1 = inr item.
Proof.
  rw read_csv_files_spec /= parsed_items_elem list_elem_of_fmap. split.
  - intros (name & Hout & Hin). symmetry in Hout.
    by destruct (read_csv_file_filename _ _ _ Hout).
  - intros [Hin Hout]. by exists (filename item).
Qed.

Lemma read_csv_files_errors names base e :
  e ∈ (read_csv_files names base).1.2 ↔
  ∃ name, name ∈ names ∧ (read_csv_file name base).1 = inl e.
Proof.
  rw read_csv_files_spec /= error_items_elem list_elem_of_fmap. split.
  - intros (name & Hout & Hin). by exists name.
  - intros (name & Hin & Hout). by exists name.
Qed.

Lemma null_byte_found (chunk : list byte) :
  In x00 chunk → existsb (Byte.eqb x00) chunk = true.
Proof.
  intros Hin. apply existsb_exists. exists x00. split; [done|]. by apply byte_dec_lb.
Qed.

End ParserLoop.

(** C4: a file with a null byte among its first 1024 bytes gets the
    binary diagnostic; the only file-system events of its turn are the
    existence test and the read of the first 1024 bytes, so nothing is
    decoded or parsed; the diagnostic is in the errors of the batch and
    no table of the batch carries the name of the file. *)
Theorem binary_file_is_rejected read_csv text_lines (fs : FileSystem)
    (names : list string) (base name : string) (content : list byte) :
  fs (os_path_join base name) = Some (RegularFile content) →
  In x00 (firstn 1024 content) →
  name ∈ names →
  read_csv_file read_csv text_lines fs name base
  = (inl {| e_filename := name; e_error := binary_message |},
     [PathExists (os_path_join base name); ReadBytes (os_path_join base name) 1024]) ∧
  {| e_filename := name; e_error := binary_message |}
    ∈ (read_csv_files read_csv text_lines fs names base).1.2 ∧
  ∀ item, item ∈ (read_csv_files read_csv text_lines fs names base).1.1 →
          filename item ≠ name.
Proof.
  intros Hfile Hnull Hname.
  assert (read_csv_file read_csv text_lines fs name base
          = (inl {| e_filename := name; e_error := binary_message |},
             [PathExists (os_path_join base name); ReadBytes (os_path_join base name) 1024]))
    as Hout.
  { rw /read_csv_file /os_path_exists /_is_likely_binary_from_chunk. io_simpl.
    rw Hfile /=. by rw null_byte_found. }
  split_and!; [done| |].
  - apply read_csv_files_errors. exists name. by rw Hout.
  - intros item [_ Hitem]%read_csv_files_parsed Heq. rw Heq Hout in Hitem. done.
Qed.

Section SameBytes.
Variable read_csv : list byte → read_options → exn + DataFrame.
Variable text_lines : list byte → encoding → nat → option (list string).
Variables (fs1 fs2 : FileSystem) (path1 path2 : string) (content : list byte).
Hypothesis Hfile1 : fs1 path1 = Some (RegularFile content).
Hypothesis Hfile2 : fs2 path2 = Some (RegularFile content).

Lemma pd_read_csv_content opts :
  (pd_read_csv read_csv fs1 path1 opts).1 = read_csv content opts.
Proof. rw /pd_read_csv io_bind_fst /=. by rw Hfile1. Qed.

Lemma get_file_lines_content e n :
  (_get_file_lines text_lines fs1 path1 e n).1 = map strip <$> text_lines content e n.
Proof. rw /_get_file_lines io_bind_fst /=. by rw Hfile1. Qed.

Lemma is_likely_binary_content n :
  (_is_likely_binary_from_chunk fs1 path1 n).1 = existsb (Byte.eqb x00) (firstn n content).
Proof. rw /_is_likely_binary_from_chunk io_bind_fst /=. by rw Hfile1. Qed.

Lemma os_path_exists_content : (os_path_exists fs1 path1).1 = true.
Proof. rw /os_path_exists io_bind_fst /= Hfile1. by apply bool_decide_eq_true_2. Qed.

End SameBytes.

Section Determinism.
Variable read_csv : list byte → read_options → exn + DataFrame.
Variable text_lines : list byte → encoding → nat → option (list string).
Variables (fs1 fs2 : FileSystem) (path1 path2 : string) (content : list byte).
Hypothesis Hfile1 : fs1 path1 = Some (RegularFile content).
Hypothesis Hfile2 : fs2 path2 = Some (RegularFile content).

Local Abbreviation R1 := (pd_read_csv_content read_csv fs1 path1 content Hfile1).
Local Abbreviation R2 := (pd_read_csv_content read_csv fs2 path2 content Hfile2).

Lemma reparse_header_same e header_str delims :
  (reparse_header read_csv fs1 path1 e header_str delims).1
  = (reparse_header read_csv fs2 path2 e header_str delims).1.
Proof.
  induction delims as [|d delims IH]; [done|]. cbn [reparse_header].
  destruct (_ && _); [|done]. rw 2!io_bind_fst R1 R2.
  destruct (read_csv content _) as [x|df]; [done|]. by destruct (1 <? ncols df)%nat.
Qed.

Lemma try_delimiters_same e delims best :
  (try_delimiters read_csv fs1 path1 e delims best).1
  = (try_delimiters read_csv fs2 path2 e delims best).1.
Proof.
  revert best. induction delims as [|d delims IH]; intros best; [done|].
  cbn [try_delimiters]. rw 2!io_bind_fst R1 R2.
  destruct (read_csv content _) as [x|df]; [done|]. by destruct (1 <? ncols df)%nat.
Qed.

Lemma try_parse_same e delims :
  (_try_parse_csv_with_encoding read_csv fs1 path1 e delims).1
  = (_try_parse_csv_with_encoding read_csv fs2 path2 e delims).1.
Proof.
  rw /_try_parse_csv_with_encoding 2!io_bind_fst R1 R2.
  destruct (read_csv content _) as [[m|m|n m]|df];
    rw ?io_fmap_fst ?try_delimiters_same //.
  destruct (1 <? ncols df)%nat; [done|]. rw 2!io_bind_fst.
  destruct df as [|[header_str col] [|? ?]]; simpl;
    rw ?io_fmap_fst ?try_delimiters_same //.
  destruct (series_len col =? 0)%nat; simpl; rw ?io_fmap_fst ?try_delimiters_same //.
  rw reparse_header_same.
  destruct (reparse_header read_csv fs2 path2 e header_str delims).1; [done|].
  by rw !io_fmap_fst try_delimiters_same.
Qed.

Lemma try_encodings_same delims encs best msgs :
  (try_encodings read_csv fs1 path1 delims encs best msgs).1
  = (try_encodings read_csv fs2 path2 delims encs best msgs).1.
Proof.
  revert best msgs. induction encs as [|e encs IH]; intros best msgs; [done|].
  cbn [try_encodings]. rw 2!io_bind_fst try_parse_same.
  destruct (_try_parse_csv_with_encoding read_csv fs2 path2 e delims).1
    as [[m|m|n m]|[df|]]; try done.
  by destruct (1 <? ncols _)%nat.
Qed.

Lemma correct_over_splitting_same delims best :
  (correct_over_splitting read_csv text_lines fs1 path1 delims best).1
  = (correct_over_splitting read_csv text_lines fs2 path2 delims best).1.
Proof.
  rw /correct_over_splitting. destruct (_ && _); [|done].
  rw 2!io_bind_fst.
  rw (get_file_lines_content text_lines fs1 path1 content Hfile1).
  rw (get_file_lines_content text_lines fs2 path2 content Hfile2).
  destruct (negb _); [|done]. rw 2!io_bind_fst R1 R2.
  destruct (read_csv content _) as [x|df]; [done|]. by destruct (ncols df =? 1)%nat.
Qed.

End Determinism.

Lemma read_csv_file_same read_csv text_lines (fs1 fs2 : FileSystem)
    (base1 base2 name : string) (content : list byte) :
  fs1 (os_path_join base1 name) = Some (RegularFile content) →
  fs2 (os_path_join base2 name) = Some (RegularFile content) →
  (read_csv_file read_csv text_lines fs1 name base1).1
  = (read_csv_file read_csv text_lines fs2 name base2).1.
Proof.
  intros H1 H2. rw /read_csv_file. rw 2!io_bind_fst.
  rw (os_path_exists_content fs1 _ content H1) (os_path_exists_content fs2 _ content H2).
  cbn [negb]. rw 2!io_bind_fst.
  rw (is_likely_binary_content fs1 _ content H1) (is_likely_binary_content fs2 _ content H2).
  destruct (existsb _ _); [done|]. rw 2!io_bind_fst.
  rw (try_encodings_same read_csv fs1 fs2 _ _ content H1 H2).
  destruct (try_encodings read_csv fs2 _ _ _ _ _).1 as [[best|] msgs]; [|done].
  cbv beta iota. rw 2!io_bind_fst.
  by rw (correct_over_splitting_same read_csv text_lines fs1 fs2 _ _ content H1 H2).
Qed.

(** C8: the outcome for a file is a function of its name and its bytes.
    Two runs, on any two folders and any two lists of files, that find
    the same bytes under the name give the same outcome for it, and a
    table is among the tables of one run exactly when it is among the
    tables of the other.  (pandas enters as a function of the bytes and
    the options of the call.) *)
Theorem parsing_is_deterministic read_csv text_lines (fs1 fs2 : FileSystem)
    (names1 names2 : list string) (base1 base2 name : string) (content : list byte) :
  fs1 (os_path_join base1 name) = Some (RegularFile content) →
  fs2 (os_path_join base2 name) = Some (RegularFile content) →
  name ∈ names1 → name ∈ names2 →
  (read_csv_file read_csv text_lines fs1 name base1).1
  = (read_csv_file read_csv text_lines fs2 name base2).1 ∧
  ∀ item, filename item = name →
    (item ∈ (read_csv_files read_csv text_lines fs1 names1 base1).1.1 ↔
     item ∈ (read_csv_files read_csv text_lines fs2 names2 base2).1.1).
Proof.
  intros H1 H2 Hin1 Hin2.
  pose proof (read_csv_file_same read_csv text_lines fs1 fs2 base1 base2 name content H1 H2)
    as Hsame.
  split; [done|]. intros item Hname. rw !read_csv_files_parsed Hname Hsame. tauto.
Qed.

Section HeaderOnly.
Variable read_csv : list byte → read_options → exn + DataFrame.
Variable text_lines : list byte → encoding → nat → option (list string).
Variables (fs : FileSystem) (path : string).
Let content : list byte := list_byte_of_string "a,b,c".
Hypothesis Hfile : fs path = Some (RegularFile content).
Variable abc : DataFrame.
Hypothesis Hcols : columns abc = ["a"; "b"; "c"].
Hypothesis Hrows : nrows abc = 0.
Hypothesis Hreader :
  read_csv content (sniff_options Utf8Sig) = inr abc ∨
  ∃ col, read_csv content (sniff_options Utf8Sig) = inr [("a,b,c", col)] ∧
         series_len col = 0 ∧
         read_csv content (delimited_options "," Utf8Sig) = inr abc.

Local Abbreviation R := (pd_read_csv_content read_csv fs path content Hfile).

Lemma abc_shape : ∃ s1 s2 s3, abc = [("a", s1); ("b", s2); ("c", s3)] ∧ series_len s1 = 0.
Proof.
  destruct abc as [|[l1 s1] [|[l2 s2] [|[l3 s3] [|? ?]]]]; try done.
  injection Hcols as -> -> ->. by exists s1, s2, s3.
Qed.

Lemma try_parse_header_only :
  (_try_parse_csv_with_encoding read_csv fs path Utf8Sig common_delimiters).1
  = inr (Some abc).
Proof.
  destruct abc_shape as (s1 & s2 & s3 & Habc & Hlen).
  rw /_try_parse_csv_with_encoding io_bind_fst R.
  destruct Hreader as [->|(col & -> & Hcol & Hcomma)].
  - by rw Habc.
  - cbn [ncols length Nat.ltb Nat.leb]. rw io_bind_fst Hcol. cbn [Nat.eqb].
    rw /common_delimiters. cbn [reparse_header].
    change (contains "," "a,b,c" && (1 <? length (split "," "a,b,c"))%nat) with true.
    cbv iota. rw io_bind_fst R Hcomma. by rw Habc.
Qed.

Lemma try_encodings_header_only :
  (try_encodings read_csv fs path common_delimiters encodings_to_try None []).1
  = (Some abc, []).
Proof.
  rw /encodings_to_try. cbn [try_encodings]. rw io_bind_fst try_parse_header_only.
  destruct abc_shape as (s1 & s2 & s3 & -> & Hlen). done.
Qed.

Lemma read_csv_file_header_only name base :
  path = os_path_join base name →
  (read_csv_file read_csv text_lines fs name base).1
  = inr {| filename := name; dataframe := abc |}.
Proof.
  intros Hpath. rw /read_csv_file -Hpath. rw io_bind_fst.
  rw (os_path_exists_content fs _ content Hfile). cbn [negb]. rw io_bind_fst.
  rw (is_likely_binary_content fs _ content Hfile).
  change (existsb (Byte.eqb x00) (firstn 1024 content)) with false. cbv iota.
  rw io_bind_fst try_encodings_header_only. cbv beta iota. rw io_bind_fst.
  destruct abc_shape as (s1 & s2 & s3 & -> & Hlen).
  rw /correct_over_splitting /= Hlen /=. by rw /empty /= Hlen.
Qed.

End HeaderOnly.

Section NoColumns.
Variable read_csv : list byte → read_options → exn + DataFrame.
Variable text_lines : list byte → encoding → nat → option (list string).
Variables (fs : FileSystem) (path : string) (content : list byte).
Hypothesis Hfile : fs path = Some (RegularFile content).
Hypothesis Htext : existsb (Byte.eqb x00) (firstn 1024 content) = false.

(** After the loop over the encodings: the over-splitting check and the
    last test of the loop body. *)
Lemma read_csv_file_after_encodings name base best msgs :
  path = os_path_join base name →
  (try_encodings read_csv fs path common_delimiters encodings_to_try None []).1
  = (Some best, msgs) →
  (read_csv_file read_csv text_lines fs name base).1
  = let best_df_for_file :=
      (correct_over_splitting read_csv text_lines fs path common_delimiters best).1 in
    if empty best_df_for_file && (ncols best_df_for_file =? 0)%nat
    then inl {| e_filename := name; e_error := no_columns_message |}
    else inr {| filename := name; dataframe := best_df_for_file |}.
Proof.
  intros Hpath Hbest. rw /read_csv_file -Hpath. rw io_bind_fst.
  rw (os_path_exists_content fs _ content Hfile). cbn [negb]. rw io_bind_fst.
  rw (is_likely_binary_content fs _ content Hfile) Htext. rw io_bind_fst Hbest.
  cbv beta iota zeta. rw io_bind_fst. by destruct (_ && _).
Qed.

Lemma read_csv_file_no_columns name base best msgs :
  path = os_path_join base name →
  (try_encodings read_csv fs path common_delimiters encodings_to_try None []).1
  = (Some best, msgs) →
  ncols best = 0 →
  (read_csv_file read_csv text_lines fs name base).1
  = inl {| e_filename := name; e_error := no_columns_message |}.
Proof.
  intros Hpath Hbest Hzero. rw (read_csv_file_after_encodings name base best msgs) //.
  destruct best; [|done]. done.
Qed.

(** The over-splitting check, read off the bytes of the file. *)
Lemma correct_over_splitting_content best :
  (correct_over_splitting read_csv text_lines fs path common_delimiters best).1
  = if (1 <? ncols best)%nat && (0 <? nrows best)%nat then
      if negb (existsb
                 (λ delim, contains delim
                    (join " " (default [] (map strip <$> text_lines content Utf8Sig 5))))
                 common_delimiters)
      then match read_csv content (single_column_options Utf8Sig) with
           | inr single_col_df =>
               if (ncols single_col_df =? 1)%nat then single_col_df else best
           | inl _ => best
           end
      else best
    else best.
Proof.
  rw /correct_over_splitting. destruct (_ && _); [|done]. rw io_bind_fst.
  rw (get_file_lines_content text_lines fs path content Hfile).
  destruct (negb _); [|done].
  rw io_bind_fst (pd_read_csv_content read_csv fs path content Hfile).
  destruct (read_csv content _) as [x|df]; [done|]. by destruct (ncols df =? 1)%nat.
Qed.

End NoColumns.

Lemma no_columns_message_distinct :
  no_columns_message ≠ binary_message ∧
  (∀ full_path, no_columns_message ≠ not_found_message full_path) ∧
  (∀ msgs, no_columns_message ≠ could_not_parse_message msgs).
Proof. split_and!; [done|by intros p|by intros msgs]. Qed.

(** C6: for the bytes of "a,b,c": whether the sniffer splits the header
    at the commas, or reads it as one label and the re-parse with the
    comma splits it, the file gives the table of three columns and no
    rows, not a diagnostic.  A file whose best parse has no columns
    gives the no-columns diagnostic, whose message differs from the
    binary, not-found and could-not-parse messages. *)
Theorem header_only_table_and_no_columns_error read_csv text_lines (fs : FileSystem)
    (base header_name empty_name : string) (abc no_columns : DataFrame)
    (content : list byte) (msgs : list string) :
  fs (os_path_join base header_name) = Some (RegularFile (list_byte_of_string "a,b,c")) →
  columns abc = ["a"; "b"; "c"] → nrows abc = 0 →
  (read_csv (list_byte_of_string "a,b,c") (sniff_options Utf8Sig) = inr abc ∨
   ∃ col, read_csv (list_byte_of_string "a,b,c") (sniff_options Utf8Sig)
          = inr [("a,b,c", col)] ∧
          series_len col = 0 ∧
          read_csv (list_byte_of_string "a,b,c") (delimited_options "," Utf8Sig) = inr abc) →
  fs (os_path_join base empty_name) = Some (RegularFile content) →
  existsb (Byte.eqb x00) (firstn 1024 content) = false →
  (try_encodings read_csv fs (os_path_join base empty_name) common_delimiters
                 encodings_to_try None []).1 = (Some no_columns, msgs) →
  ncols no_columns = 0 →
  (read_csv_file read_csv text_lines fs header_name base).1
  = inr {| filename := header_name; dataframe := abc |} ∧
  ncols abc = 3 ∧
  (read_csv_file read_csv text_lines fs empty_name base).1
  = inl {| e_filename := empty_name; e_error := no_columns_message |} ∧
  no_columns_message ≠ binary_message ∧
  (∀ full_path, no_columns_message ≠ not_found_message full_path) ∧
  (∀ errors, no_columns_message ≠ could_not_parse_message errors).
Proof.
  intros Hheader Hcols Hrows Hreader Hempty Htext Hbest Hzero. split_and!.
  - by eapply read_csv_file_header_only.
  - by rw /ncols -(length_map fst abc) -/(columns abc) Hcols.
  - by eapply read_csv_file_no_columns.
  - apply no_columns_message_distinct.
  - apply no_columns_message_distinct.
  - apply no_columns_message_distinct.
Qed.

(** C7, amended: for a file whose best parse has several columns and
    whose sample (the first five stripped lines, read as utf-8-sig)
    holds none of the delimiter candidates: when the parse has at least
    one row and the re-parse of the file as one column labelled [data]
    succeeds with exactly one column, the file gives that re-parse;
    when the parse has no row, or the re-parse raises or has another
    number of columns, the file keeps the parse with several columns. *)
Theorem over_splitting_is_corrected read_csv text_lines (fs : FileSystem)
    (base name : string) (content : list byte) (best : DataFrame) (msgs : list string) :
  fs (os_path_join base name) = Some (RegularFile content) →
  existsb (Byte.eqb x00) (firstn 1024 content) = false →
  (try_encodings read_csv fs (os_path_join base name) common_delimiters
                 encodings_to_try None []).1 = (Some best, msgs) →
  1 < ncols best →
  existsb (λ delim, contains delim
             (join " " (default [] (map strip <$> text_lines content Utf8Sig 5))))
          common_delimiters = false →
  (read_csv_file read_csv text_lines fs name base).1
  = inr {| filename := name;
           dataframe :=
             match read_csv content (single_column_options Utf8Sig) with
             | inr single_col_df =>
                 if (0 <? nrows best)%nat && (ncols single_col_df =? 1)%nat
                 then single_col_df else best
             | inl _ => best
             end |}.
Proof.
  intros Hfile Htext Hbest Hmulti Hsample.
  rw (read_csv_file_after_encodings read_csv text_lines fs _ content Hfile Htext
        name base best msgs) //.
  rw (correct_over_splitting_content read_csv text_lines fs _ content Hfile) Hsample.
  cbv zeta. apply Nat.ltb_lt in Hmulti as Hm. rw Hm. cbn [negb andb].
  assert (empty best && (ncols best =? 0)%nat = false) as Hbestcols.
  { apply andb_false_iff. right. apply Nat.eqb_neq. lia. }
  destruct (0 <? nrows best)%nat; cbn [andb]; [|by rw Hbestcols; destruct (read_csv _ _)].
  destruct (read_csv content _) as [x|single]; [by rw Hbestcols|].
  destruct (ncols single =? 1)%nat eqn:Hone; [|by rw Hbestcols].
  apply Nat.eqb_eq in Hone. rw Hone. by rw andb_false_r.
Qed.

(** C4 at the binary file of the tests. *)
Lemma binary_file_witness :
  uploads (os_path_join "uploads" "unparseable.bin") = Some (RegularFile png_bytes) ∧
  In x00 (firstn 1024 png_bytes) ∧
  "unparseable.bin" ∈ ["header_only.csv"; "unparseable.bin"] ∧
  read_csv_file example_read_csv example_text_lines uploads "unparseable.bin" "uploads"
  = (inl {| e_filename := "unparseable.bin"; e_error := binary_message |},
     [PathExists "uploads/unparseable.bin"; ReadBytes "uploads/unparseable.bin" 1024]).
Proof.
  assert (uploads (os_path_join "uploads" "unparseable.bin") = Some (RegularFile png_bytes))
    as Hfile by (vm_compute; reflexivity).
  assert (In x00 (firstn 1024 png_bytes)) as Hnull.
  { cbn. do 8 right. by left. }
  assert ("unparseable.bin" ∈ ["header_only.csv"; "unparseable.bin"]) as Hin.
  { right. by left. }
  refine (conj Hfile (conj Hnull (conj Hin _))).
  exact (proj1 (binary_file_is_rejected example_read_csv example_text_lines uploads
                  _ "uploads" "unparseable.bin" png_bytes Hfile Hnull Hin)).
Defined.

(** C6 at the example folder. *)
Lemma header_only_witness :
  uploads (os_path_join "uploads" "header_only.csv")
  = Some (RegularFile (list_byte_of_string "a,b,c")) ∧
  columns abc_frame = ["a"; "b"; "c"] ∧ nrows abc_frame = 0 ∧
  example_read_csv (list_byte_of_string "a,b,c") (sniff_options Utf8Sig) = inr abc_frame ∧
  uploads (os_path_join "uploads" "blank.csv")
  = Some (RegularFile (list_byte_of_string blank_text)) ∧
  existsb (Byte.eqb x00) (firstn 1024 (list_byte_of_string blank_text)) = false ∧
  (try_encodings example_read_csv uploads (os_path_join "uploads" "blank.csv")
                 common_delimiters encodings_to_try None []).1 = (Some [], []) ∧
  (read_csv_file example_read_csv example_text_lines uploads "header_only.csv" "uploads").1
  = inr {| filename := "header_only.csv"; dataframe := abc_frame |} ∧
  (read_csv_file example_read_csv example_text_lines uploads "blank.csv" "uploads").1
  = inl {| e_filename := "blank.csv"; e_error := no_columns_message |}.
Proof.
  assert (uploads (os_path_join "uploads" "header_only.csv")
          = Some (RegularFile (list_byte_of_string "a,b,c"))) as H1
    by (vm_compute; reflexivity).
  assert (example_read_csv (list_byte_of_string "a,b,c") (sniff_options Utf8Sig)
          = inr abc_frame) as H2 by (vm_compute; reflexivity).
  assert (uploads (os_path_join "uploads" "blank.csv")
          = Some (RegularFile (list_byte_of_string blank_text))) as H3
    by (vm_compute; reflexivity).
  assert (existsb (Byte.eqb x00) (firstn 1024 (list_byte_of_string blank_text)) = false)
    as H4 by (vm_compute; reflexivity).
  assert ((try_encodings example_read_csv uploads (os_path_join "uploads" "blank.csv")
             common_delimiters encodings_to_try None []).1 = (Some [], [])) as H5
    by (vm_compute; reflexivity).
  destruct (header_only_table_and_no_columns_error example_read_csv example_text_lines
              uploads "uploads" "header_only.csv" "blank.csv" abc_frame [] _ []
              H1 eq_refl eq_refl (or_introl H2) H3 H4 H5 eq_refl)
    as (Htable & _ & Herror & _).
  exact (conj H1 (conj eq_refl (conj eq_refl (conj H2 (conj H3 (conj H4 (conj H5
           (conj Htable Herror)))))))).
Defined.

(** C7 at the two plain lines of the tests: the split at the letter l
    is replaced by the one column of the two lines. *)
Lemma over_splitting_witness :
  uploads (os_path_join "uploads" "single_col_text.txt")
  = Some (RegularFile (list_byte_of_string plain_text)) ∧
  existsb (Byte.eqb x00) (firstn 1024 (list_byte_of_string plain_text)) = false ∧
  (try_encodings example_read_csv uploads (os_path_join "uploads" "single_col_text.txt")
                 common_delimiters encodings_to_try None []).1
  = (Some over_split_frame, []) ∧
  1 < ncols over_split_frame ∧
  existsb (λ delim, contains delim
             (join " " (default [] (map strip <$>
                example_text_lines (list_byte_of_string plain_text) Utf8Sig 5))))
          common_delimiters = false ∧
  (read_csv_file example_read_csv example_text_lines uploads "single_col_text.txt"
                 "uploads").1
  = inr {| filename := "single_col_text.txt";
           dataframe := one_column "data" ["single_value_line1"; "single_value_line2"] |}.
Proof.
  assert (uploads (os_path_join "uploads" "single_col_text.txt")
          = Some (RegularFile (list_byte_of_string plain_text))) as H1
    by (vm_compute; reflexivity).
  assert (existsb (Byte.eqb x00) (firstn 1024 (list_byte_of_string plain_text)) = false)
    as H2 by (vm_compute; reflexivity).
  assert ((try_encodings example_read_csv uploads
             (os_path_join "uploads" "single_col_text.txt")
             common_delimiters encodings_to_try None []).1
          = (Some over_split_frame, [])) as H3 by (vm_compute; reflexivity).
  assert (1 < ncols over_split_frame) as H4 by (cbn; lia).
  assert (existsb (λ delim, contains delim
             (join " " (default [] (map strip <$>
                example_text_lines (list_byte_of_string plain_text) Utf8Sig 5))))
          common_delimiters = false) as H5 by (vm_compute; reflexivity).
  refine (conj H1 (conj H2 (conj H3 (conj H4 (conj H5 _))))).
  exact (over_splitting_is_corrected example_read_csv example_text_lines uploads
           "uploads" "single_col_text.txt" _ over_split_frame [] H1 H2 H3 H4 H5).
Defined.

(** C7 as stated fails: the header-only file "a b c" is split at the
    blanks into three columns without rows; its sample holds no
    delimiter candidate and the re-parse as one column would succeed,
    yet the file keeps the three columns. *)
Lemma multi_column_header_without_rows_is_kept :
  (try_encodings example_read_csv uploads (os_path_join "uploads" "spaced.txt")
                 common_delimiters encodings_to_try None []).1.1 = Some abc_frame ∧
  ncols abc_frame = 3 ∧
  existsb (λ delim, contains delim
             (join " " (default [] (map strip <$>
                example_text_lines (list_byte_of_string spaced_header_text) Utf8Sig 5))))
          common_delimiters = false ∧
  example_read_csv (list_byte_of_string spaced_header_text) (single_column_options Utf8Sig)
  = inr (one_column "data" ["a b c"]) ∧
  (read_csv_file example_read_csv example_text_lines uploads "spaced.txt" "uploads").1
  = inr {| filename := "spaced.txt"; dataframe := abc_frame |}.
Proof. vm_compute. split_and!; reflexivity. Qed.

(** C8 at the header-only file, found in two folders. *)
Lemma parsing_is_deterministic_witness :
  uploads (os_path_join "uploads" "header_only.csv")
  = Some (RegularFile (list_byte_of_string "a,b,c")) ∧
  archive (os_path_join "archive" "header_only.csv")
  = Some (RegularFile (list_byte_of_string "a,b,c")) ∧
  "header_only.csv" ∈ ["header_only.csv"; "blank.csv"] ∧
  "header_only.csv" ∈ ["unparseable.bin"; "header_only.csv"] ∧
  ∀ item, filename item = "header_only.csv" →
    (item ∈ (read_csv_files example_read_csv example_text_lines uploads
               ["header_only.csv"; "blank.csv"] "uploads").1.1 ↔
     item ∈ (read_csv_files example_read_csv example_text_lines archive
               ["unparseable.bin"; "header_only.csv"] "archive").1.1).
Proof.
  assert (uploads (os_path_join "uploads" "header_only.csv")
          = Some (RegularFile (list_byte_of_string "a,b,c"))) as H1
    by (vm_compute; reflexivity).
  assert (archive (os_path_join "archive" "header_only.csv")
          = Some (RegularFile (list_byte_of_string "a,b,c"))) as H2
    by (vm_compute; reflexivity).
  assert ("header_only.csv" ∈ ["header_only.csv"; "blank.csv"]) as H3 by (by left).
  assert ("header_only.csv" ∈ ["unparseable.bin"; "header_only.csv"]) as H4.
  { right. by left. }
  refine (conj H1 (conj H2 (conj H3 (conj H4 _)))).
  exact (proj2 (parsing_is_deterministic example_read_csv example_text_lines uploads archive
                  _ _ "uploads" "archive" "header_only.csv" _ H1 H2 H3 H4)).
Defined.

End ParserProofs.

(** ** The parser: what becomes of each file *)
Module ParserOutcomes.
Import Pandas Parser ParserExamples ParserTraces ParserProofs.

Lemma binary_message_distinct :
  (∀ full_path, not_found_message full_path ≠ binary_message) ∧
  no_columns_message ≠ binary_message ∧
  (∀ msgs, could_not_parse_message msgs ≠ binary_message).
Proof. split_and!; [by intros p|done|by intros msgs]. Qed.

Lemma null_byte_lookup (content : list byte) (n : nat) :
  existsb (Byte.eqb x00) (firstn n content) = true ↔
  ∃ i, i < n ∧ content !! i = Some x00.
Proof.
  rw existsb_exists. split.
  - intros (x & Hin & Heq). apply byte_dec_bl in Heq as <-.
    apply list_elem_of_In, list_elem_of_lookup in Hin as [i Hi].
    apply lookup_take_Some in Hi as [Hi Hlt]. by exists i.
  - intros (i & Hlt & Hi). exists x00. split; [|by apply byte_dec_lb].
    apply list_elem_of_In, list_elem_of_lookup. exists i.
    by apply lookup_take_Some.
Qed.

Lemma strip_bom_ncols e (df : DataFrame) : ncols (strip_bom e df) = ncols df.
Proof.
  rw /strip_bom /ncols. destruct e, df as [|[first s] rest]; try done.
  destruct (startswith bom first); [|done]. by rw length_map.
Qed.

Lemma empty_without_columns (df : DataFrame) :
  empty df && (ncols df =? 0)%nat = (ncols df =? 0)%nat.
Proof. rw /empty. destruct (ncols df =? 0)%nat; [done|]. by rw andb_false_r. Qed.

Section Outcomes.
Variable read_csv : list byte → read_options → exn + DataFrame.
Variable text_lines : list byte → encoding → nat → option (list string).
Variable fs : FileSystem.
Local Abbreviation read_csv_file := (read_csv_file read_csv text_lines fs).
Local Abbreviation read_csv_files := (read_csv_files read_csv text_lines fs).
Local Abbreviation try_encodings := (try_encodings read_csv fs).
Local Abbreviation try_delimiters := (try_delimiters read_csv fs).
Local Abbreviation reparse_header := (reparse_header read_csv fs).
Local Abbreviation try_parse := (_try_parse_csv_with_encoding read_csv fs).
Local Abbreviation correct_over_splitting := (correct_over_splitting read_csv text_lines fs).

(** The outcomes of a batch, one for each name, in the order of the
    names. *)
Lemma outcomes_accounted (names : list string) (outcomes : list (ErrorItem + ParsedItem)) :
  Forall2 (λ name o, match o with
                     | inl e => e_filename e = name
                     | inr item => filename item = name
                     end) names outcomes →
  (filename <$> parsed_items outcomes) ++ (e_filename <$> error_items outcomes) ≡ₚ names ∧
  sublist (filename <$> parsed_items outcomes) names ∧
  sublist (e_filename <$> error_items outcomes) names.
Proof.
  induction 1 as [|name [e|item] names outcomes Hname _ (IHp & IHd & IHe)];
    [done| |]; rw /parsed_items /error_items /=; rw -/(parsed_items outcomes)
      -/(error_items outcomes) -Hname.
  - split_and!.
    + by rw -Permutation_middle IHp.
    + by apply sublist_cons.
    + by apply sublist_skip.
  - split_and!.
    + by rw IHp.
    + by apply sublist_skip.
    + by apply sublist_cons.
Qed.

Section OneFile.
Variables (path : string) (content : list byte).
Hypothesis Hfile : fs path = Some (RegularFile content).

Local Abbreviation pd_read_csv := (pd_read_csv read_csv fs).

Lemma pd_read_csv_run opts :
  pd_read_csv path opts = (read_csv content opts, [ReadCsv path opts]).
Proof. rw /Parser.pd_read_csv. io_simpl. by rw Hfile. Qed.

(** Strategy 2 when every call with a delimiter raises. *)
Lemma try_delimiters_all_raise e delims best :
  (∀ d, d ∈ delims → ∃ x, read_csv content (delimited_options d e) = inl x) →
  try_delimiters path e delims best
  = (best, map (λ d, ReadCsv path (delimited_options d e)) delims).
Proof.
  revert best. induction delims as [|d delims IH]; intros best Hall; [done|].
  cbn [Parser.try_delimiters]. rw pd_read_csv_run.
  destruct (Hall d) as [x Hx]; [by left|]. io_simpl. rw Hx IH //.
  intros d' Hd'. apply Hall. by right.
Qed.

(** Strategy 2 when some delimiter splits the file. *)
Lemma try_delimiters_finds_split e delims best d df' :
  d ∈ delims → read_csv content (delimited_options d e) = inr df' → 1 < ncols df' →
  ∃ df, (try_delimiters path e delims best).1 = Some df ∧ 1 < ncols df.
Proof.
  intros Hin Hd Hmulti. revert best.
  induction delims as [|d0 delims IH]; intros best; [by apply elem_of_nil in Hin|].
  cbn [Parser.try_delimiters]. rw io_bind_fst pd_read_csv_run. cbn [fst].
  destruct (decide (d0 = d)) as [->|Hne].
  - rw Hd. apply Nat.ltb_lt in Hmulti as Hm. rw Hm. by exists df'.
  - apply elem_of_cons in Hin as [?|Hin]; [done|].
    destruct (read_csv content (delimited_options d0 e)) as [x|df0]; [by apply IH|].
    destruct (1 <? ncols df0)%nat eqn:H0; [|by apply IH].
    exists df0. split; [done|]. by apply Nat.ltb_lt.
Qed.

Lemma reparse_header_multi e header_str delims df :
  (reparse_header path e header_str delims).1 = Some df → 1 < ncols df.
Proof.
  induction delims as [|d delims IH]; [done|]. cbn [Parser.reparse_header].
  destruct (_ && _); [|done]. rw io_bind_fst pd_read_csv_run. cbn [fst].
  destruct (read_csv content _) as [x|df0]; [done|].
  destruct (1 <? ncols df0)%nat eqn:H0; [|done].
  intros [= <-]. by apply Nat.ltb_lt.
Qed.

Lemma try_parse_finds_split e delims d df' :
  (∀ m, read_csv content (sniff_options e) ≠ inl (ParserError m)) →
  d ∈ delims → read_csv content (delimited_options d e) = inr df' → 1 < ncols df' →
  ∃ df, (try_parse path e delims).1 = inr (Some df) ∧ 1 < ncols df.
Proof.
  intros Hsniff Hin Hd Hmulti. rw /Parser._try_parse_csv_with_encoding.
  rw io_bind_fst pd_read_csv_run. cbn [fst].
  destruct (read_csv content (sniff_options e)) as [[m|m|n m]|df] eqn:Hs.
  - by destruct (Hsniff m).
  - rw io_fmap_fst.
    destruct (try_delimiters_finds_split e delims None d df' Hin Hd Hmulti) as (df & -> & ?).
    by exists df.
  - rw io_fmap_fst.
    destruct (try_delimiters_finds_split e delims None d df' Hin Hd Hmulti) as (df & -> & ?).
    by exists df.
  - destruct (1 <? ncols df)%nat eqn:H1.
    { exists df. split; [done|]. by apply Nat.ltb_lt. }
    rw io_bind_fst.
    match goal with |- context [match ?m.1 with Some _ => _ | None => _ end] =>
      destruct m.1 as [df1|] eqn:Hre end.
    + exists df1. split; [done|].
      destruct df as [|[header_str col] [|? ?]]; try done.
      destruct (series_len col =? 0)%nat; [|done].
      by eapply reparse_header_multi.
    + rw io_fmap_fst.
      destruct (try_delimiters_finds_split e delims (Some df) d df' Hin Hd Hmulti)
        as (df2 & -> & ?).
      by exists df2.
Qed.

(** One encoding, when the sniffing call raises [ParserError]. *)
Lemma try_parse_parser_error e delims m :
  read_csv content (sniff_options e) = inl (ParserError m) →
  try_parse path e delims = (inl (ParserError m), [ReadCsv path (sniff_options e)]).
Proof.
  intros Hs. rw /Parser._try_parse_csv_with_encoding pd_read_csv_run. io_simpl. by rw Hs.
Qed.

Lemma try_encodings_parser_errors (msg : encoding → string) delims encs best msgs :
  (∀ e, read_csv content (sniff_options e) = inl (ParserError (msg e))) →
  try_encodings path delims encs best msgs
  = ((best, msgs ++ map (λ e, attempt_error_message e (ParserError (msg e))) encs),
     map (λ e, ReadCsv path (sniff_options e)) encs).
Proof.
  intros Hs. revert msgs. induction encs as [|e encs IH]; intros msgs.
  { simpl. by rw app_nil_r. }
  cbn [Parser.try_encodings]. rw (try_parse_parser_error e delims (msg e)) //.
  io_simpl. rw IH /=. by rw -assoc.
Qed.

(** One encoding, when every call raises and the sniffing call raises
    something else than [ParserError]. *)
Lemma try_parse_all_raise e delims :
  (∀ opts, ∃ x, read_csv content opts = inl x ∧ ∀ m, x ≠ ParserError m) →
  try_parse path e delims
  = (inr None, ReadCsv path (sniff_options e)
               :: map (λ d, ReadCsv path (delimited_options d e)) delims).
Proof.
  intros Hall. rw /Parser._try_parse_csv_with_encoding pd_read_csv_run.
  destruct (Hall (sniff_options e)) as (x & Hx & Hnot).
  assert (try_delimiters path e delims None
          = (None, map (λ d, ReadCsv path (delimited_options d e)) delims)) as Hd.
  { apply try_delimiters_all_raise. intros d _.
    destruct (Hall (delimited_options d e)) as (y & Hy & _). by exists y. }
  io_simpl. rw Hx. destruct x as [m|m|n m]; [by destruct (Hnot m)| |]; by rw Hd.
Qed.

Lemma try_encodings_all_raise delims encs best msgs :
  (∀ opts, ∃ x, read_csv content opts = inl x ∧ ∀ m, x ≠ ParserError m) →
  try_encodings path delims encs best msgs
  = ((best, msgs),
     concat (map (λ e, ReadCsv path (sniff_options e)
                       :: map (λ d, ReadCsv path (delimited_options d e)) delims) encs)).
Proof.
  intros Hall. induction encs as [|e encs IH]; [done|].
  cbn [Parser.try_encodings]. rw (try_parse_all_raise e delims Hall).
  io_simpl. by rw IH.
Qed.

Lemma try_parse_sniff_split e delims df :
  read_csv content (sniff_options e) = inr df → 1 < ncols df →
  try_parse path e delims = (inr (Some df), [ReadCsv path (sniff_options e)]).
Proof.
  intros Hs Hmulti%Nat.ltb_lt.
  rw /Parser._try_parse_csv_with_encoding pd_read_csv_run. io_simpl. by rw Hs Hmulti.
Qed.

(** The first encoding, when its sniffing call splits the file. *)
Lemma try_encodings_first_split delims df :
  read_csv content (sniff_options Utf8Sig) = inr df → 1 < ncols df →
  try_encodings path delims encodings_to_try None []
  = ((Some (strip_bom Utf8Sig df), []), [ReadCsv path (sniff_options Utf8Sig)]).
Proof.
  intros Hs Hmulti. rw /encodings_to_try. cbn [Parser.try_encodings].
  rw (try_parse_sniff_split Utf8Sig delims df Hs Hmulti).
  apply Nat.ltb_lt in Hmulti as Hm. rw /mbind /IO_mbind /io_bind /better.
  cbv beta iota zeta. by rw strip_bom_ncols Hm.
Qed.

Lemma correct_over_splitting_trace delims best ev e :
  ev ∈ (correct_over_splitting path delims best).2 → event_encoding ev = Some e →
  e = Utf8Sig.
Proof.
  rw /Parser.correct_over_splitting /Parser._get_file_lines /Parser.pd_read_csv.
  destruct (_ && _); [|by intros ?%elem_of_nil].
  io_simpl. rw Hfile. destruct (negb _); [destruct (read_csv content _) as [x|df]|];
    try destruct (ncols df =? 1)%nat; simpl; intros Hin Henc;
    repeat (apply elem_of_cons in Hin as [->|Hin]); try (by apply elem_of_nil in Hin);
    simpl in Henc; congruence.
Qed.

(** The turn of a file that exists and has no null byte in its first
    1024 bytes, from the result of the loop over the encodings. *)
Lemma read_csv_file_run name base best msgs t :
  path = os_path_join base name →
  existsb (Byte.eqb x00) (firstn 1024 content) = false →
  try_encodings path common_delimiters encodings_to_try None [] = ((best, msgs), t) →
  read_csv_file name base
  = match best with
    | Some best_df =>
        let r := correct_over_splitting path common_delimiters best_df in
        (if empty r.1 && (ncols r.1 =? 0)%nat
         then inl {| e_filename := name; e_error := no_columns_message |}
         else inr {| filename := name; dataframe := r.1 |},
         [PathExists path; ReadBytes path 1024] ++ t ++ r.2)
    | None =>
        (inl {| e_filename := name; e_error := could_not_parse_message msgs |},
         [PathExists path; ReadBytes path 1024] ++ t)
    end.
Proof.
  intros Hpath Htext Hbest. rw /Parser.read_csv_file -Hpath.
  rw /os_path_exists /_is_likely_binary_from_chunk.
  rw /mbind /IO_mbind /io_bind /mret /IO_mret /io_ret /emit. cbv beta iota.
  rw Hfile Htext Hbest. rw bool_decide_eq_true_2; [by eexists|]. cbn [negb].
  cbv beta iota.
  destruct best as [best_df|]; simpl; [|by rw app_nil_r].
  destruct (correct_over_splitting path common_delimiters best_df) as [df t'].
  simpl. destruct (_ && _); by rw app_nil_r.
Qed.

End OneFile.

(** The three ways a turn of the loop over the files can go. *)
Lemma read_csv_file_cases name base :
  let path := os_path_join base name in
  (fs path = None ∧
   read_csv_file name base
   = (inl {| e_filename := name; e_error := not_found_message path |}, [PathExists path])) ∨
  ((fs path = Some Unreadable ∨
    ∃ content, fs path = Some (RegularFile content) ∧
               existsb (Byte.eqb x00) (firstn 1024 content) = true) ∧
   read_csv_file name base
   = (inl {| e_filename := name; e_error := binary_message |},
      [PathExists path; ReadBytes path 1024])) ∨
  (∃ content best msgs t,
     fs path = Some (RegularFile content) ∧
     existsb (Byte.eqb x00) (firstn 1024 content) = false ∧
     try_encodings path common_delimiters encodings_to_try None [] = ((best, msgs), t) ∧
     read_csv_file name base
     = match best with
       | Some best_df =>
           let r := correct_over_splitting path common_delimiters best_df in
           (if empty r.1 && (ncols r.1 =? 0)%nat
            then inl {| e_filename := name; e_error := no_columns_message |}
            else inr {| filename := name; dataframe := r.1 |},
            [PathExists path; ReadBytes path 1024] ++ t ++ r.2)
       | None =>
           (inl {| e_filename := name; e_error := could_not_parse_message msgs |},
            [PathExists path; ReadBytes path 1024] ++ t)
       end).
Proof.
  intros path.
  destruct (fs path) as [[content|]|] eqn:Hfile.
  - destruct (existsb (Byte.eqb x00) (firstn 1024 content)) eqn:Hnull.
    + right. left. split; [right; by exists content|].
      rw /Parser.read_csv_file /os_path_exists /_is_likely_binary_from_chunk -/path.
      rw /mbind /IO_mbind /io_bind /mret /IO_mret /io_ret /emit. cbv beta iota.
      rw Hfile Hnull. rw bool_decide_eq_true_2; [by eexists|]. done.
    + right. right.
      destruct (try_encodings path common_delimiters encodings_to_try None [])
        as [[best msgs] t] eqn:Hbest.
      exists content, best, msgs, t. split_and!; try done.
      by apply (read_csv_file_run path content Hfile).
  - right. left. split; [by left|].
    rw /Parser.read_csv_file /os_path_exists /_is_likely_binary_from_chunk -/path.
    rw /mbind /IO_mbind /io_bind /mret /IO_mret /io_ret /emit. cbv beta iota.
    rw Hfile. rw bool_decide_eq_true_2; [by eexists|]. done.
  - left. split; [done|].
    rw /Parser.read_csv_file /os_path_exists -/path.
    rw /mbind /IO_mbind /io_bind /mret /IO_mret /io_ret /emit. cbv beta iota.
    rw Hfile. rw bool_decide_eq_false_2; [by intros [? ?]|]. done.
Qed.

Lemma read_csv_file_ncols name base item :
  (read_csv_file name base).1 = inr item → 0 < ncols (dataframe item).
Proof.
  destruct (read_csv_file_cases name base)
    as [[_ ->]|[[_ ->]|(content & best & msgs & t & _ & _ & _ & ->)]]; try done.
  destruct best as [best_df|]; [|done]. cbv zeta. cbn [fst].
  rw empty_without_columns.
  destruct (ncols _ =? 0)%nat eqn:Hz; [done|].
  intros [= <-]. simpl. apply Nat.eqb_neq in Hz. lia.
Qed.

Lemma read_csv_file_error_name name base e :
  (read_csv_file name base).1 = inl e → e_filename e = name.
Proof.
  destruct (read_csv_file_cases name base)
    as [[_ ->]|[[_ ->]|(content & best & msgs & t & _ & _ & _ & ->)]];
    cbn [fst]; try by intros [= <-].
  destruct best as [best_df|]; cbv zeta; cbn [fst]; [destruct (_ && _)|];
    by intros [= <-].
Qed.

Lemma outcomes_named names base :
  Forall2 (λ name o, match o with
                     | inl e => e_filename e = name
                     | inr item => filename item = name
                     end) names (map (λ name, (read_csv_file name base).1) names).
Proof.
  induction names as [|name names IH]; simpl; constructor; [|done].
  destruct (read_csv_file name base).1 as [e|item] eqn:Hout.
  - by eapply read_csv_file_error_name.
  - by eapply read_csv_file_filename.
Qed.

End Outcomes.

(** X1: a name that names nothing in the upload folder: the file gets the
    not-found diagnostic with the joined path, the existence test is the
    only access to the file system, the diagnostic is among the errors
    of the batch and no table of the batch carries the name. *)
Theorem missing_file_is_reported read_csv text_lines (fs : FileSystem)
    (names : list string) (base name : string) :
  fs (os_path_join base name) = None →
  name ∈ names →
  read_csv_file read_csv text_lines fs name base
  = (inl {| e_filename := name; e_error := not_found_message (os_path_join base name) |},
     [PathExists (os_path_join base name)]) ∧
  {| e_filename := name; e_error := not_found_message (os_path_join base name) |}
    ∈ (read_csv_files read_csv text_lines fs names base).1.2 ∧
  ∀ item, item ∈ (read_csv_files read_csv text_lines fs names base).1.1 →
          filename item ≠ name.
Proof.
  intros Hfile Hname.
  assert (read_csv_file read_csv text_lines fs name base
          = (inl {| e_filename := name;
                    e_error := not_found_message (os_path_join base name) |},
             [PathExists (os_path_join base name)])) as Hout.
  { destruct (read_csv_file_cases read_csv text_lines fs name base)
      as [[_ ->]|[[[?|(c & ? & _)] _]|(c & ? & ? & ? & ? & _)]]; congruence. }
  split_and!; [done| |].
  - apply read_csv_files_errors. exists name. by rw Hout.
  - intros item [_ Hitem]%read_csv_files_parsed Heq. rw Heq Hout in Hitem. done.
Qed.

(** X2: the binary diagnostic is given exactly to the files that cannot be
    opened and to the files with a null byte among their first 1024
    bytes: a null byte further on does not make a file binary, and no
    other failure is reported with this message. *)
Theorem binary_diagnostic_iff read_csv text_lines (fs : FileSystem) (base name : string) :
  (read_csv_file read_csv text_lines fs name base).1
  = inl {| e_filename := name; e_error := binary_message |}
  ↔ fs (os_path_join base name) = Some Unreadable ∨
    ∃ content i, fs (os_path_join base name) = Some (RegularFile content) ∧
                 i < 1024 ∧ content !! i = Some x00.
Proof.
  destruct binary_message_distinct as (Hnf & Hnc & Hcp).
  destruct (read_csv_file_cases read_csv text_lines fs name base)
    as [[Hnone ->]|[[Hbin ->]|(content & best & msgs & t & Hfile & Htext & Hbest & ->)]];
    cbn [fst].
  - split.
    + intros Heq. destruct (Hnf (os_path_join base name)). congruence.
    + intros [?|(c & i & ? & _)]; congruence.
  - split; [intros _|done].
    destruct Hbin as [?|(content & Hfile & Hnull)]; [by left|right].
    apply null_byte_lookup in Hnull as (i & ? & ?). by exists content, i.
  - split.
    + destruct best as [best_df|]; cbv zeta; cbn [fst]; [destruct (_ && _)|];
        intros Heq;
        first [discriminate Heq|destruct Hnc; congruence|destruct (Hcp msgs); congruence].
    + intros [?|(c & i & Hc & Hlt & Hi)]; [congruence|].
      rw Hfile in Hc. injection Hc as <-.
      assert (existsb (Byte.eqb x00) (firstn 1024 content) = true) as Hex.
      { apply null_byte_lookup. by exists i. }
      congruence.
Qed.

(** X3: every requested name is accounted for once: the names of the tables
    followed by the names of the errors are the requested names up to
    order, both lists keep the order of the request, and no name is
    given both a table and an error. *)
Theorem every_file_is_accounted_for read_csv text_lines (fs : FileSystem)
    (names : list string) (base : string) :
  let r := (read_csv_files read_csv text_lines fs names base).1 in
  (filename <$> r.1) ++ (e_filename <$> r.2) ≡ₚ names ∧
  sublist (filename <$> r.1) names ∧
  sublist (e_filename <$> r.2) names ∧
  ∀ item e, item ∈ r.1 → e ∈ r.2 → filename item ≠ e_filename e.
Proof.
  intros r. rw /r.
  destruct (outcomes_accounted names _ (outcomes_named read_csv text_lines fs names base))
    as (Hp & Hd & He).
  rw read_csv_files_spec /=. split_and!; try done.
  intros item e Hitem He'.
  pose proof (read_csv_files_parsed read_csv text_lines fs names base item) as Hpi.
  pose proof (read_csv_files_errors read_csv text_lines fs names base e) as Hei.
  rw read_csv_files_spec /= in Hpi. rw read_csv_files_spec /= in Hei.
  apply Hpi in Hitem as [_ Hout]. apply Hei in He' as (name & _ & Hout').
  intros Heq. apply read_csv_file_error_name in Hout' as Hn.
  rw Heq Hn Hout' in Hout. done.
Qed.

(** X4: every table handed on has at least one column. *)
Theorem parsed_tables_have_columns read_csv text_lines (fs : FileSystem)
    (names : list string) (base : string) (item : ParsedItem) :
  item ∈ (read_csv_files read_csv text_lines fs names base).1.1 →
  0 < ncols (dataframe item).
Proof.
  intros [_ Hout]%read_csv_files_parsed. by eapply read_csv_file_ncols.
Qed.

(** X5: when the sniffing call raises [ParserError] for each of the three
    encodings, no call with a delimiter is made: the five events of the
    turn are the existence test, the read of the first bytes and the
    three sniffing calls, and the diagnostic lists the three errors. *)
Theorem parser_error_skips_the_delimiters read_csv text_lines (fs : FileSystem)
    (base name : string) (content : list byte) (msg : encoding → string) :
  fs (os_path_join base name) = Some (RegularFile content) →
  existsb (Byte.eqb x00) (firstn 1024 content) = false →
  (∀ e, read_csv content (sniff_options e) = inl (ParserError (msg e))) →
  read_csv_file read_csv text_lines fs name base
  = (inl {| e_filename := name;
            e_error := could_not_parse_message
                         [attempt_error_message Utf8Sig (ParserError (msg Utf8Sig));
                          attempt_error_message Utf8 (ParserError (msg Utf8));
                          attempt_error_message Latin1 (ParserError (msg Latin1))] |},
     [PathExists (os_path_join base name); ReadBytes (os_path_join base name) 1024;
      ReadCsv (os_path_join base name) (sniff_options Utf8Sig);
      ReadCsv (os_path_join base name) (sniff_options Utf8);
      ReadCsv (os_path_join base name) (sniff_options Latin1)]).
Proof.
  intros Hfile Htext Hs.
  rw (read_csv_file_run read_csv text_lines fs _ content Hfile name base None
        (map (λ e, attempt_error_message e (ParserError (msg e))) encodings_to_try)
        (map (λ e, ReadCsv (os_path_join base name) (sniff_options e)) encodings_to_try)) //.
  by rw (try_encodings_parser_errors read_csv fs _ content Hfile msg).
Qed.

(** X6: a file on which every [pd.read_csv] call raises, the sniffing calls
    something else than [ParserError] (an empty file: [EmptyDataError]
    every time): all fifteen calls are made and the diagnostic is the
    could-not-parse message without any specific error; the handler of
    [EmptyDataError] is not reached. *)
Theorem swallowed_errors_leave_no_detail read_csv text_lines (fs : FileSystem)
    (base name : string) (content : list byte) :
  fs (os_path_join base name) = Some (RegularFile content) →
  existsb (Byte.eqb x00) (firstn 1024 content) = false →
  (∀ opts, ∃ x, read_csv content opts = inl x ∧ ∀ m, x ≠ ParserError m) →
  let r := read_csv_file read_csv text_lines fs name base in
  r.1 = inl {| e_filename := name;
               e_error := "Could not parse CSV. Tried encodings ['utf-8-sig', 'utf-8', 'latin-1']." |} ∧
  length (filter (λ ev, is_Some (event_encoding ev)) r.2) = 15.
Proof.
  intros Hfile Htext Hall.
  rw (read_csv_file_run read_csv text_lines fs _ content Hfile name base None [] _ eq_refl
        Htext (try_encodings_all_raise read_csv fs _ content Hfile _ _ None [] Hall)).
  done.
Qed.

(** X7: when the sniffing call with utf-8-sig splits the file into several
    columns, that parse (with the byte-order mark removed from its
    labels) is the one the over-splitting check receives, and the file is
    never decoded with another encoding. *)
Theorem first_multi_column_parse_wins read_csv text_lines (fs : FileSystem)
    (base name : string) (content : list byte) (df : DataFrame) :
  fs (os_path_join base name) = Some (RegularFile content) →
  existsb (Byte.eqb x00) (firstn 1024 content) = false →
  read_csv content (sniff_options Utf8Sig) = inr df →
  1 < ncols df →
  let r := read_csv_file read_csv text_lines fs name base in
  r.1 = inr {| filename := name;
               dataframe := (correct_over_splitting read_csv text_lines fs
                               (os_path_join base name) common_delimiters
                               (strip_bom Utf8Sig df)).1 |} ∧
  ∀ ev e, ev ∈ r.2 → event_encoding ev = Some e → e = Utf8Sig.
Proof.
  intros Hfile Htext Hs Hmulti.
  rw (read_csv_file_run read_csv text_lines fs _ content Hfile name base _ _ _ eq_refl
        Htext (try_encodings_first_split read_csv fs _ content Hfile _ df Hs Hmulti)).
  cbv zeta. cbn [fst snd].
  set (r := correct_over_splitting read_csv text_lines fs _ _ _).
  assert (0 < ncols r.1) as Hcols.
  { rw /r (correct_over_splitting_content read_csv text_lines fs _ content Hfile).
    repeat case_match; rw ?strip_bom_ncols; try lia.
    match goal with H : (ncols _ =? 1)%nat = true |- _ => apply Nat.eqb_eq in H end. lia. }
  split.
  - rw empty_without_columns. destruct (ncols r.1 =? 0)%nat eqn:Hz; [|done].
    apply Nat.eqb_eq in Hz. lia.
  - intros ev e Hin. apply elem_of_app in Hin as [Hin|Hin].
    { apply elem_of_cons in Hin as [->|[->|?%elem_of_nil]%elem_of_cons]; done. }
    apply elem_of_app in Hin as [Hin|Hin].
    { apply list_elem_of_singleton in Hin as ->. by intros [= <-]. }
    intros Henc.
    exact (correct_over_splitting_trace read_csv text_lines fs _ content Hfile
             common_delimiters (strip_bom Utf8Sig df) ev e Hin Henc).
Qed.

(** X8: one encoding: when the sniffing call does not raise [ParserError]
    and one of the delimiters splits the file into several columns, the
    attempt returns a table of several columns. *)
Theorem delimiter_split_is_found read_csv (fs : FileSystem) (path : string)
    (content : list byte) (e : encoding) (delims : list ascii) (d : ascii)
    (df' : DataFrame) :
  fs path = Some (RegularFile content) →
  (∀ m, read_csv content (sniff_options e) ≠ inl (ParserError m)) →
  d ∈ delims →
  read_csv content (delimited_options d e) = inr df' →
  1 < ncols df' →
  ∃ df, (_try_parse_csv_with_encoding read_csv fs path e delims).1 = inr (Some df) ∧
        1 < ncols df.
Proof. intros Hfile. by apply try_parse_finds_split. Qed.

(** X1 at a name the example folder does not hold. *)
Lemma missing_file_witness :
  uploads (os_path_join "uploads" "nonexistent.csv") = None ∧
  "nonexistent.csv" ∈ ["header_only.csv"; "nonexistent.csv"] ∧
  read_csv_file example_read_csv example_text_lines uploads "nonexistent.csv" "uploads"
  = (inl {| e_filename := "nonexistent.csv";
            e_error := "File not found: uploads/nonexistent.csv" |},
     [PathExists "uploads/nonexistent.csv"]).
Proof.
  assert (uploads (os_path_join "uploads" "nonexistent.csv") = None) as Hfile
    by (vm_compute; reflexivity).
  assert ("nonexistent.csv" ∈ ["header_only.csv"; "nonexistent.csv"]) as Hin.
  { right. by left. }
  refine (conj Hfile (conj Hin _)).
  exact (proj1 (missing_file_is_reported example_read_csv example_text_lines uploads
                  _ "uploads" "nonexistent.csv" Hfile Hin)).
Defined.

(** X4 at the header-only table of a batch of two files. *)
Lemma parsed_tables_witness :
  {| filename := "header_only.csv"; dataframe := abc_frame |}
    ∈ (read_csv_files example_read_csv example_text_lines uploads
         ["unparseable.bin"; "header_only.csv"] "uploads").1.1 ∧
  0 < ncols abc_frame.
Proof.
  assert ({| filename := "header_only.csv"; dataframe := abc_frame |}
            ∈ (read_csv_files example_read_csv example_text_lines uploads
                 ["unparseable.bin"; "header_only.csv"] "uploads").1.1) as Hin.
  { vm_compute. by left. }
  exact (conj Hin (parsed_tables_have_columns example_read_csv example_text_lines uploads
                     _ "uploads" _ Hin)).
Defined.

(** X5 at a reader whose sniffing call always raises [ParserError]. *)
Lemma parser_error_witness :
  uploads (os_path_join "uploads" "header_only.csv")
  = Some (RegularFile (list_byte_of_string "a,b,c")) ∧
  existsb (Byte.eqb x00) (firstn 1024 (list_byte_of_string "a,b,c")) = false ∧
  (∀ e, strict_read_csv (list_byte_of_string "a,b,c") (sniff_options e)
        = inl (ParserError ("Could not determine delimiter: " +:+ encoding_name e))) ∧
  (read_csv_file strict_read_csv example_text_lines uploads "header_only.csv" "uploads").2
  = [PathExists "uploads/header_only.csv"; ReadBytes "uploads/header_only.csv" 1024;
     ReadCsv "uploads/header_only.csv" (sniff_options Utf8Sig);
     ReadCsv "uploads/header_only.csv" (sniff_options Utf8);
     ReadCsv "uploads/header_only.csv" (sniff_options Latin1)].
Proof.
  assert (uploads (os_path_join "uploads" "header_only.csv")
          = Some (RegularFile (list_byte_of_string "a,b,c"))) as Hfile
    by (vm_compute; reflexivity).
  assert (existsb (Byte.eqb x00) (firstn 1024 (list_byte_of_string "a,b,c")) = false)
    as Htext by (vm_compute; reflexivity).
  assert (∀ e, strict_read_csv (list_byte_of_string "a,b,c") (sniff_options e)
               = inl (ParserError ("Could not determine delimiter: " +:+ encoding_name e)))
    as Hs by (intros e; reflexivity).
  refine (conj Hfile (conj Htext (conj Hs _))).
  exact (f_equal snd
           (parser_error_skips_the_delimiters strict_read_csv example_text_lines uploads
              "uploads" "header_only.csv" _ _ Hfile Htext Hs)).
Defined.

(** X6 at the empty file, on which the example reader raises
    [EmptyDataError] at every call. *)
Lemma swallowed_errors_witness :
  inbox (os_path_join "inbox" "empty.csv") = Some (RegularFile []) ∧
  existsb (Byte.eqb x00) (firstn 1024 []) = false ∧
  (∀ opts, ∃ x, example_read_csv [] opts = inl x ∧ ∀ m, x ≠ ParserError m) ∧
  (read_csv_file example_read_csv example_text_lines inbox "empty.csv" "inbox").1
  = inl {| e_filename := "empty.csv";
           e_error := "Could not parse CSV. Tried encodings ['utf-8-sig', 'utf-8', 'latin-1']." |}.
Proof.
  assert (inbox (os_path_join "inbox" "empty.csv") = Some (RegularFile [])) as Hfile
    by (vm_compute; reflexivity).
  assert (existsb (Byte.eqb x00) (firstn 1024 []) = false) as Htext by reflexivity.
  assert (∀ opts, ∃ x, example_read_csv [] opts = inl x ∧ ∀ m, x ≠ ParserError m) as Hall.
  { intros opts. eexists. split; [reflexivity|done]. }
  refine (conj Hfile (conj Htext (conj Hall _))).
  exact (proj1 (swallowed_errors_leave_no_detail example_read_csv example_text_lines inbox
                  "inbox" "empty.csv" [] Hfile Htext Hall)).
Defined.

(** X7 at a file the sniffer splits at the comma. *)
Lemma first_multi_column_witness :
  inbox (os_path_join "inbox" "valid.csv")
  = Some (RegularFile (list_byte_of_string valid_text)) ∧
  existsb (Byte.eqb x00) (firstn 1024 (list_byte_of_string valid_text)) = false ∧
  sniffing_read_csv (list_byte_of_string valid_text) (sniff_options Utf8Sig)
  = inr two_column_frame ∧
  1 < ncols two_column_frame ∧
  (read_csv_file sniffing_read_csv example_text_lines inbox "valid.csv" "inbox").1
  = inr {| filename := "valid.csv"; dataframe := two_column_frame |}.
Proof.
  assert (inbox (os_path_join "inbox" "valid.csv")
          = Some (RegularFile (list_byte_of_string valid_text))) as Hfile
    by (vm_compute; reflexivity).
  assert (existsb (Byte.eqb x00) (firstn 1024 (list_byte_of_string valid_text)) = false)
    as Htext by (vm_compute; reflexivity).
  assert (1 < ncols two_column_frame) as Hmulti by (cbn; lia).
  refine (conj Hfile (conj Htext (conj eq_refl (conj Hmulti _)))).
  exact (proj1 (first_multi_column_parse_wins sniffing_read_csv example_text_lines inbox
                  "inbox" "valid.csv" _ two_column_frame Hfile Htext eq_refl Hmulti)).
Defined.

(** X8 at a file the sniffer leaves in one column and the comma splits. *)
Lemma delimiter_split_witness :
  inbox "inbox/valid.csv" = Some (RegularFile (list_byte_of_string valid_text)) ∧
  (∀ m, comma_read_csv (list_byte_of_string valid_text) (sniff_options Utf8)
        ≠ inl (ParserError m)) ∧
  (","%char ∈ common_delimiters) ∧
  comma_read_csv (list_byte_of_string valid_text) (delimited_options "," Utf8)
  = inr two_column_frame ∧
  1 < ncols two_column_frame ∧
  ∃ df, (_try_parse_csv_with_encoding comma_read_csv inbox "inbox/valid.csv" Utf8
           common_delimiters).1 = inr (Some df) ∧ 1 < ncols df.
Proof.
  assert (inbox "inbox/valid.csv" = Some (RegularFile (list_byte_of_string valid_text)))
    as Hfile by (vm_compute; reflexivity).
  assert (∀ m, comma_read_csv (list_byte_of_string valid_text) (sniff_options Utf8)
               ≠ inl (ParserError m)) as Hs by (by intros m).
  assert (","%char ∈ common_delimiters) as Hin by (by left).
  assert (1 < ncols two_column_frame) as Hmulti by (cbn; lia).
  refine (conj Hfile (conj Hs (conj Hin (conj eq_refl (conj Hmulti _))))).
  exact (delimiter_split_is_found comma_read_csv inbox _ _ Utf8 common_delimiters ","
           two_column_frame Hfile Hs Hin eq_refl Hmulti).
Defined.

End ParserOutcomes.

(** ** The validator: what becomes of each table *)
Module ValidatorOutcomes.
Import Pandas Validator ValidatorExamples ValidatorRules ValidatorProofs.

Section Rules.
Variable numeric_of_string : string → option Z.
Local Abbreviation to_numeric := (to_numeric numeric_of_string).
Local Abbreviation validate_item := (validate_item numeric_of_string).
Local Abbreviation validate_items := (validate_items numeric_of_string).
Local Abbreviation coerced := (coerced numeric_of_string).
Local Abbreviation diagnostic := (diagnostic numeric_of_string).
Local Abbreviation rejection := (rejection numeric_of_string).
Implicit Types (h : Heap) (df : DataFrame) (s : Series).

Lemma columns_setitem df l s : l ∈ columns df → columns (setitem df l s) = columns df.
Proof.
  induction df as [|[c x] df IH]; simpl; [by intros ?%elem_of_nil|].
  destruct (decide (c = l)) as [->|Hne]; [done|].
  intros [?|Hin]%elem_of_cons; [done|]. simpl. by rw IH.
Qed.

Lemma key_column_setitem_ne df l l' s :
  l' ≠ l → key_column (setitem df l s) l' = key_column df l'.
Proof. intros Hne. by rw /key_column get_column_setitem_ne. Qed.

Lemma numeric_cols_setitem df op s :
  op ∈ columns df → numeric_cols (setitem df op s) op = numeric_cols df op.
Proof.
  intros Hin. rw /numeric_cols columns_setitem //.
  apply list_filter_iff. intros col. split; intros [Hne Hnum]; split; try done.
  - by rw key_column_setitem_ne in Hnum.
  - by rw key_column_setitem_ne.
Qed.

Lemma numeric_cols_coerced df op :
  has_column df op = true → numeric_cols (coerced df op) op = numeric_cols df op.
Proof.
  intros Hhas%bool_decide_eq_true. rw /Validator.coerced.
  destruct (is_numeric_dtype _); [done|]. by apply numeric_cols_setitem.
Qed.

Lemma columns_coerced df op :
  has_column df op = true → columns (coerced df op) = columns df.
Proof.
  intros Hhas%bool_decide_eq_true. rw /Validator.coerced.
  destruct (is_numeric_dtype _); [done|]. by apply columns_setitem.
Qed.

Lemma isna_all_any s : isna_all s = true → 0 < series_len s → isna_any s = true.
Proof.
  destruct s as [[|x v]|[|x v]]; simpl; try lia;
    intros [Hx _]%andb_true_iff _; by rw Hx.
Qed.

Lemma notna_sum_le s : (notna_sum s ≤ series_len s)%nat.
Proof. destruct s; simpl; apply length_filter. Qed.

(** A key column that is lost to coercion keeps a NaN. *)
Lemma data_loss_is_nan s :
  isna_all (to_numeric s) && (0 <? notna_sum s)%nat = true → isna_any (to_numeric s) = true.
Proof.
  intros [Hall Hpos%Nat.ltb_lt]%andb_true_iff. apply isna_all_any; [done|].
  rw series_len_to_numeric. pose proof (notna_sum_le s). lia.
Qed.

(** The outcome of one table is read off the table of cases. *)
Lemma validate_item_outcome item op h :
  (validate_item item op h).1
  = match diagnostic (h !!! dataframe item) op with
    | Some msg => inl {| e_filename := filename item; e_error := msg |}
    | None => inr {| v_filename := filename item; v_dataframe := fresh (dom h);
                     v_numeric_columns := numeric_cols (h !!! dataframe item) op |}
    end.
Proof.
  rw /ValidatorRules.diagnostic.
  destruct (has_column (h !!! dataframe item) op) eqn:Hhas; simpl.
  2:{ rw /Validator.validate_item /mbind /ST_mbind /bind /copy /read /assign_column /=.
      by rw lookup_total_insert_eq Hhas. }
  destruct (isna_any (to_numeric (key_column (h !!! dataframe item) op))) eqn:Hna.
  { by apply validate_item_nan. }
  rw /Validator.validate_item /mbind /ST_mbind /bind /copy /read /assign_column /=.
  rw lookup_total_insert_eq Hhas /=.
  destruct (is_numeric_dtype (key_column (h !!! dataframe item) op)) eqn:Hnum; simpl.
  - rw /finish_item /mbind /ST_mbind /bind /read /=. rw lookup_total_insert_eq.
    rw to_numeric_numeric in Hna; [done|]. rw Hna.
    rw -/(numeric_cols (h !!! dataframe item) op). by destruct (numeric_cols _ _).
  - destruct (_ && _) eqn:Hloss.
    { apply data_loss_is_nan in Hloss. congruence. }
    rw lookup_total_insert_eq insert_insert_eq key_column_setitem Hna.
    rw /finish_item /mbind /ST_mbind /bind /read /=. rw !lookup_total_insert_eq.
    rw key_column_setitem Hna.
    rw -/(numeric_cols (setitem (h !!! dataframe item) op
                          (to_numeric (key_column (h !!! dataframe item) op))) op).
    rw numeric_cols_setitem; [by apply bool_decide_eq_true in Hhas|].
    by destruct (numeric_cols _ _).
Qed.

(** The loop: the diagnostics of the rejected tables and the validated
    items of the others, both in the order of the input. *)
Lemma validate_items_outcomes items op vs es h h0 :
  (∀ item, item ∈ items → dataframe item ∈ dom h) →
  (∀ item, item ∈ items → h !!! dataframe item = h0 !!! dataframe item) →
  let r := validate_items items op vs es h in
  r.1.2 = es ++ omap (rejection h0 op) items ∧
  ∃ new_vs,
    r.1.1 = vs ++ new_vs ∧
    Forall2 (λ item v,
               v_filename v = filename item ∧
               v_numeric_columns v = numeric_cols (h0 !!! dataframe item) op ∧
               r.2 !! v_dataframe v = Some (coerced (h0 !!! dataframe item) op))
            (filter (λ item, diagnostic (h0 !!! dataframe item) op = None) items) new_vs.
Proof.
  revert vs es h. induction items as [|item items IH]; intros vs es h Hdom Hsame; simpl.
  { split; [by rw app_nil_r|]. exists []. by rw app_nil_r. }
  rw /mbind /ST_mbind /bind.
  pose proof (validate_item_subseteq numeric_of_string item op h) as Hsub.
  pose proof (validate_item_outcome item op h) as Hout.
  pose proof (validate_item_inr numeric_of_string item op h) as Hinr.
  destruct (validate_item item op h) as [out h1] eqn:Hitem. simpl in Hsub, Hout, Hinr.
  assert (∀ it, it ∈ items → dataframe it ∈ dom h1) as Hdom1.
  { intros it Hit. eapply (subseteq_dom h h1); [done|]. apply Hdom. by right. }
  assert (∀ it, it ∈ items → h1 !!! dataframe it = h0 !!! dataframe it) as Hsame1.
  { intros it Hit. rw -Hsame; [by right|].
    apply lookup_total_subseteq; [|done]. apply Hdom. by right. }
  rw Hsame in Hout; [by left|]. rw /ValidatorRules.rejection filter_cons.
  destruct (diagnostic (h0 !!! dataframe item) op) as [msg|] eqn:Hdiag; subst out.
  - destruct (IH vs (es ++ [{| e_filename := filename item; e_error := msg |}]) h1
                Hdom1 Hsame1) as (Hes & new_vs & Hvs & Hall).
    case_decide; [done|]. simpl. split; [by rw Hes -assoc|]. by exists new_vs.
  - destruct (IH (vs ++ [{| v_filename := filename item; v_dataframe := fresh (dom h);
                            v_numeric_columns := numeric_cols (h0 !!! dataframe item) op |}])
                es h1 Hdom1 Hsame1) as (Hes & new_vs & Hvs & Hall).
    case_decide; [|done]. simpl. split; [done|].
    eexists (_ :: new_vs). split; [by rw Hvs -assoc|].
    constructor; [|done]. split_and!; try done. simpl.
    destruct (Hinr _ eq_refl) as (_ & _ & Hh1 & _).
    destruct (validate_items_spec numeric_of_string items op
                (vs ++ [{| v_filename := filename item; v_dataframe := fresh (dom h);
                           v_numeric_columns := numeric_cols (h0 !!! dataframe item) op |}])
                es h1 Hdom1) as [Hsub1 _].
    apply (lookup_weaken h1); [|done]. rw Hh1 lookup_insert_eq. f_equal.
    rw Hsame; [by left|]. done.
Qed.

Lemma diagnostic_none df op :
  diagnostic df op = None →
  has_column df op = true ∧
  isna_any (to_numeric (key_column df op)) = false ∧
  numeric_cols df op ≠ [].
Proof.
  rw /ValidatorRules.diagnostic. destruct (has_column df op); [|done]. simpl.
  destruct (isna_any _); [done|]. by destruct (numeric_cols df op).
Qed.

Lemma numeric_cols_elem df op c :
  c ∈ numeric_cols df op ↔
  c ≠ op ∧ ∃ vals, get_column df c = Some (NumSeries vals).
Proof.
  rw /numeric_cols list_elem_of_filter /key_column. split.
  - intros [[Hne Hnum] Hin]. split; [done|].
    destruct (proj2 (ComparisonProofs.get_column_columns df c) Hin) as [s Hs].
    rw Hs in Hnum. destruct s as [vals|vals]; [by exists vals|done].
  - intros [Hne [vals Hvals]]. rw Hvals. split; [done|].
    apply ComparisonProofs.get_column_columns. by eexists.
Qed.

End Rules.

Section Theorems.
Variable numeric_of_string : string → option Z.
Local Abbreviation to_numeric := (to_numeric numeric_of_string).
Local Abbreviation coerced := (coerced numeric_of_string).
Local Abbreviation diagnostic := (diagnostic numeric_of_string).
Local Abbreviation rejection := (rejection numeric_of_string).
Local Abbreviation validate := (validate_dataframes_for_processing numeric_of_string).

(** X9: the errors are the diagnostics of the rejected tables, and the
    validated items carry the names of the other tables, both in the
    order of the input: the outcome of a table depends on its own frame
    only, through the table of cases. *)
Theorem validation_follows_the_table_of_cases (items : list Item) (op : string) (h : Heap) :
  (∀ item, item ∈ items → dataframe item ∈ dom h) →
  let r := validate items op h in
  r.1.2 = omap (rejection h op) items ∧
  v_filename <$> r.1.1
  = filename <$> filter (λ item, diagnostic (h !!! dataframe item) op = None) items.
Proof.
  intros Hdom r.
  destruct (validate_items_outcomes numeric_of_string items op [] [] h h Hdom
              (λ _ _, eq_refl)) as (Hes & new_vs & Hvs & Hall).
  fold r in Hes, Hvs, Hall. simpl in Hes, Hvs. split; [done|]. rw Hvs.
  clear -Hall. induction Hall as [|item v its vs (Hname & _) _ IH]; [done|].
  rw !fmap_cons. by f_equal.
Qed.

(** X10: a table without the key column is rejected with the not-found
    diagnostic. *)
Theorem missing_key_column_is_reported (items : list Item) (op : string) (h : Heap)
    (item : Item) :
  (∀ item, item ∈ items → dataframe item ∈ dom h) →
  item ∈ items →
  has_column (h !!! dataframe item) op = false →
  {| e_filename := filename item; e_error := not_found_message op |}
    ∈ (validate items op h).1.2.
Proof.
  intros Hdom Hin Hhas.
  rw /validate_dataframes_for_processing.
  destruct (validate_items_outcomes numeric_of_string items op [] [] h h Hdom
              (λ _ _, eq_refl)) as (-> & _).
  simpl. apply list_elem_of_omap. exists item. split; [done|].
  by rw /ValidatorRules.rejection /ValidatorRules.diagnostic Hhas.
Qed.

(** X11: a table whose key column is fine after coercion and that has no
    other numeric column is rejected with the no-numeric-columns
    diagnostic. *)
Theorem table_without_numeric_columns_is_reported (items : list Item) (op : string)
    (h : Heap) (item : Item) :
  (∀ item, item ∈ items → dataframe item ∈ dom h) →
  item ∈ items →
  has_column (h !!! dataframe item) op = true →
  isna_any (to_numeric (key_column (h !!! dataframe item) op)) = false →
  (∀ c vals, get_column (h !!! dataframe item) c = Some (NumSeries vals) → c = op) →
  {| e_filename := filename item; e_error := no_numeric_message op |}
    ∈ (validate items op h).1.2.
Proof.
  intros Hdom Hin Hhas Hna Hnone.
  rw /validate_dataframes_for_processing.
  destruct (validate_items_outcomes numeric_of_string items op [] [] h h Hdom
              (λ _ _, eq_refl)) as (-> & _).
  simpl. apply list_elem_of_omap. exists item. split; [done|].
  rw /ValidatorRules.rejection /ValidatorRules.diagnostic Hhas Hna /=.
  destruct (numeric_cols (h !!! dataframe item) op) as [|c cols] eqn:Hcols; [done|].
  assert (c ∈ numeric_cols (h !!! dataframe item) op) as Hc by (rw Hcols; by left).
  apply numeric_cols_elem in Hc as [Hne [vals Hvals]]. by destruct (Hnone c vals).
Qed.

(** X12: the list of numeric columns of a validated item: the labels of the
    numeric columns of its frame, the key column apart, in the order of
    the columns; it is not empty, and each label in it names a numeric
    column of the frame. *)
Theorem validated_numeric_columns (items : list Item) (op : string) (h : Heap)
    (v : ValidatedItem) :
  (∀ item, item ∈ items → dataframe item ∈ dom h) →
  v ∈ (validate items op h).1.1 →
  ∃ df, (validate items op h).2 !! v_dataframe v = Some df ∧
        v_numeric_columns v
        = filter (λ col, col ≠ op ∧ is_numeric_dtype (key_column df col) = true)
                 (columns df) ∧
        v_numeric_columns v ≠ [] ∧
        (op ∉ v_numeric_columns v) ∧
        ∀ c, c ∈ v_numeric_columns v → ∃ vals, get_column df c = Some (NumSeries vals).
Proof.
  intros Hdom Hv.
  destruct (validate_items_outcomes numeric_of_string items op [] [] h h Hdom
              (λ _ _, eq_refl)) as (_ & new_vs & Hvs & Hall).
  simpl in Hvs. rw /validate_dataframes_for_processing Hvs in Hv.
  apply list_elem_of_lookup in Hv as [i Hi].
  destruct (Forall2_lookup_r _ _ _ _ _ Hall Hi) as (item & Hitem & _ & Hcols & Hlook).
  apply list_elem_of_lookup_2, list_elem_of_filter in Hitem as [Hdiag _].
  apply diagnostic_none in Hdiag as (Hhas & _ & Hne).
  exists (coerced (h !!! dataframe item) op).
  rw -/(numeric_cols (coerced (h !!! dataframe item) op) op).
  rw (numeric_cols_coerced numeric_of_string _ op Hhas) Hcols. split_and!; try done.
  - by intros [? _]%numeric_cols_elem.
  - intros c Hc. rw -(numeric_cols_coerced numeric_of_string _ op Hhas) in Hc.
    by apply numeric_cols_elem in Hc as [_ ?].
Qed.

(** X13: tables that need no repair pass as they are: when every table has a
    numeric key column without NaN and a numeric column besides, there
    is no error, and the validated items are, in the order of the
    input, copies that hold the frames of the input unchanged. *)
Theorem clean_tables_pass_unchanged (items : list Item) (op : string) (h : Heap) :
  (∀ item, item ∈ items → dataframe item ∈ dom h) →
  (∀ item, item ∈ items →
     ∃ keys c vals,
       get_column (h !!! dataframe item) op = Some (NumSeries keys) ∧ (None ∉ keys) ∧
       c ≠ op ∧ get_column (h !!! dataframe item) c = Some (NumSeries vals)) →
  let r := validate items op h in
  r.1.2 = [] ∧
  Forall2 (λ item v, v_filename v = filename item ∧
                     (v_dataframe v ∉ dom h) ∧
                     r.2 !! v_dataframe v = Some (h !!! dataframe item))
          items r.1.1.
Proof.
  intros Hdom Hclean r.
  assert (∀ item, item ∈ items →
            diagnostic (h !!! dataframe item) op = None ∧
            coerced (h !!! dataframe item) op = h !!! dataframe item) as Hnone.
  { intros item Hin. destruct (Hclean item Hin) as (keys & c & vals & Hk & Hnan & Hne & Hc).
    rw /ValidatorRules.diagnostic /Validator.coerced /has_column /key_column Hk.
    rw bool_decide_eq_true_2; [apply ComparisonProofs.get_column_columns; by eexists|].
    simpl. split; [|done].
    assert (existsb is_none keys = false) as ->.
    { destruct (existsb is_none keys) eqn:Hex; [|done].
      apply existsb_exists in Hex as ([x|] & Hin' & Hx); [done|].
      by apply list_elem_of_In in Hin'. }
    assert (c ∈ numeric_cols (h !!! dataframe item) op) as Hin'.
    { apply numeric_cols_elem. split; [done|]. by exists vals. }
    destruct (numeric_cols _ _); [by apply elem_of_nil in Hin'|done]. }
  assert (omap (rejection h op) items = [] ∧
          filter (λ item, diagnostic (h !!! dataframe item) op = None) items = items)
    as [Hrej Hfilter].
  { clear -Hnone. induction items as [|it items IH]; [done|].
    destruct (Hnone it) as [Hd _]; [by left|].
    destruct IH as [IH1 IH2]; [intros item Hin; apply Hnone; by right|].
    split; [|by rw filter_cons decide_True // IH2].
    simpl. rw /ValidatorRules.rejection Hd /=. exact IH1. }
  destruct (validate_items_outcomes numeric_of_string items op [] [] h h Hdom
              (λ _ _, eq_refl)) as (Hes & new_vs & Hvs & Hall).
  destruct (validate_items_spec numeric_of_string items op [] [] h Hdom)
    as (_ & new_vs' & _ & Hvs' & _ & _ & Hacc & _).
  fold r in Hes, Hvs, Hall, Hvs', Hacc. simpl in Hes, Hvs, Hvs'.
  rw Hfilter in Hall. split; [by rw Hes|]. rw Hvs.
  apply Forall2_same_length_lookup. split; [by eapply Forall2_length|].
  intros i item v Hi Hv.
  destruct (Forall2_lookup_lr _ _ _ _ _ _ Hall Hi Hv) as (Hname & _ & Hlook).
  split_and!; [done| |].
  - destruct (Hacc v) as (it & _ & _ & Hfresh & _); [|done].
    rw -Hvs' Hvs. by eapply list_elem_of_lookup_2.
  - rw Hlook. f_equal. apply Hnone. by eapply list_elem_of_lookup_2.
Qed.

End Theorems.

Lemma test_items_allocated :
  ∀ item, item ∈ [clean_item; missing_key_item; no_numeric_item] →
          dataframe item ∈ dom test_heap.
Proof.
  intros item Hin. apply elem_of_dom.
  repeat (apply elem_of_cons in Hin as [->|Hin]; [by eexists|]).
  by apply elem_of_nil in Hin.
Qed.

(** X9 at the three tables of the tests in one batch: one is handed on,
    two are rejected, each with its own diagnostic. *)
Lemma table_of_cases_witness :
  (∀ item, item ∈ [clean_item; missing_key_item; no_numeric_item] →
           dataframe item ∈ dom test_heap) ∧
  (validate_dataframes_for_processing decimal_of_string
     [clean_item; missing_key_item; no_numeric_item] "op_col" test_heap).1.2
  = [{| e_filename := "op_missing.csv"; e_error := not_found_message "op_col" |};
     {| e_filename := "no_other_numeric.csv"; e_error := no_numeric_message "op_col" |}].
Proof.
  split; [apply test_items_allocated|].
  rw (proj1 (validation_follows_the_table_of_cases decimal_of_string
               [clean_item; missing_key_item; no_numeric_item] "op_col" test_heap
               test_items_allocated)).
  vm_compute. reflexivity.
Defined.

(** X10 at the table of the tests that lacks [op_col]. *)
Lemma missing_key_column_witness :
  (∀ item, item ∈ [clean_item; missing_key_item; no_numeric_item] →
           dataframe item ∈ dom test_heap) ∧
  missing_key_item ∈ [clean_item; missing_key_item; no_numeric_item] ∧
  has_column (test_heap !!! dataframe missing_key_item) "op_col" = false ∧
  {| e_filename := "op_missing.csv"; e_error := "Operation column 'op_col' not found." |}
    ∈ (validate_dataframes_for_processing decimal_of_string
         [clean_item; missing_key_item; no_numeric_item] "op_col" test_heap).1.2.
Proof.
  assert (missing_key_item ∈ [clean_item; missing_key_item; no_numeric_item]) as Hin.
  { right. by left. }
  assert (has_column (test_heap !!! dataframe missing_key_item) "op_col" = false) as Hhas
    by (vm_compute; reflexivity).
  refine (conj test_items_allocated (conj Hin (conj Hhas _))).
  exact (missing_key_column_is_reported decimal_of_string _ "op_col" test_heap
           missing_key_item test_items_allocated Hin Hhas).
Defined.

(** X11 at the table of the tests with a key column and a text column
    only. *)
Lemma table_without_numeric_columns_witness :
  (∀ item, item ∈ [clean_item; missing_key_item; no_numeric_item] →
           dataframe item ∈ dom test_heap) ∧
  no_numeric_item ∈ [clean_item; missing_key_item; no_numeric_item] ∧
  has_column (test_heap !!! dataframe no_numeric_item) "op_col" = true ∧
  isna_any (to_numeric decimal_of_string
              (key_column (test_heap !!! dataframe no_numeric_item) "op_col")) = false ∧
  (∀ c vals, get_column (test_heap !!! dataframe no_numeric_item) c = Some (NumSeries vals) →
             c = "op_col") ∧
  {| e_filename := "no_other_numeric.csv"; e_error := no_numeric_message "op_col" |}
    ∈ (validate_dataframes_for_processing decimal_of_string
         [clean_item; missing_key_item; no_numeric_item] "op_col" test_heap).1.2.
Proof.
  assert (no_numeric_item ∈ [clean_item; missing_key_item; no_numeric_item]) as Hin.
  { right. right. by left. }
  assert (has_column (test_heap !!! dataframe no_numeric_item) "op_col" = true) as Hhas
    by (vm_compute; reflexivity).
  assert (isna_any (to_numeric decimal_of_string
            (key_column (test_heap !!! dataframe no_numeric_item) "op_col")) = false) as Hna
    by (vm_compute; reflexivity).
  assert (∀ c vals, get_column (test_heap !!! dataframe no_numeric_item) c
                    = Some (NumSeries vals) → c = "op_col") as Hnone.
  { intros c vals.
    change (test_heap !!! dataframe no_numeric_item) with no_numeric_frame.
    rw /no_numeric_frame /=. destruct (decide ("op_col" = c)) as [<-|_]; [done|].
    by destruct (decide ("text_col" = c)). }
  refine (conj test_items_allocated (conj Hin (conj Hhas (conj Hna (conj Hnone _))))).
  exact (table_without_numeric_columns_is_reported decimal_of_string _ "op_col" test_heap
           no_numeric_item test_items_allocated Hin Hhas Hna Hnone).
Defined.

(** X12 at the valid table of the tests, whose numeric column besides the
    key column is [data_col1]. *)
Lemma validated_numeric_columns_witness :
  (∀ item, item ∈ [clean_item; missing_key_item; no_numeric_item] →
           dataframe item ∈ dom test_heap) ∧
  ∃ v, v ∈ (validate_dataframes_for_processing decimal_of_string
              [clean_item; missing_key_item; no_numeric_item] "op_col" test_heap).1.1 ∧
       v_numeric_columns v = ["data_col1"] ∧
       ∃ df, (validate_dataframes_for_processing decimal_of_string
                [clean_item; missing_key_item; no_numeric_item] "op_col" test_heap).2
             !! v_dataframe v = Some df ∧
             ∀ c, c ∈ v_numeric_columns v → ∃ vals, get_column df c = Some (NumSeries vals).
Proof.
  split; [apply test_items_allocated|].
  destruct (validate_dataframes_for_processing decimal_of_string
              [clean_item; missing_key_item; no_numeric_item] "op_col" test_heap).1.1
    as [|v [|? ?]] eqn:Hvs; try by vm_compute in Hvs.
  assert (v ∈ (validate_dataframes_for_processing decimal_of_string
              [clean_item; missing_key_item; no_numeric_item] "op_col" test_heap).1.1) as Hv.
  { rw Hvs. by left. }
  exists v. rw -Hvs. split; [done|].
  split; [vm_compute in Hvs; by injection Hvs as <-|].
  destruct (validated_numeric_columns decimal_of_string _ "op_col" test_heap v
              test_items_allocated Hv) as (df & Hdf & _ & _ & _ & Hnum).
  by exists df.
Defined.

Lemma clean_items_allocated :
  ∀ item, item ∈ [clean_item] → dataframe item ∈ dom test_heap.
Proof. intros item ->%list_elem_of_singleton. apply test_items_allocated. by left. Qed.

(** X13 at the valid table of the tests. *)
Lemma clean_tables_witness :
  (∀ item, item ∈ [clean_item] → dataframe item ∈ dom test_heap) ∧
  (∀ item, item ∈ [clean_item] →
     ∃ keys c vals,
       get_column (test_heap !!! dataframe item) "op_col" = Some (NumSeries keys) ∧
       (None ∉ keys) ∧ c ≠ "op_col" ∧
       get_column (test_heap !!! dataframe item) c = Some (NumSeries vals)) ∧
  (validate_dataframes_for_processing decimal_of_string [clean_item] "op_col"
     test_heap).1.2 = [].
Proof.
  assert (∀ item, item ∈ [clean_item] →
     ∃ keys c vals,
       get_column (test_heap !!! dataframe item) "op_col" = Some (NumSeries keys) ∧
       (None ∉ keys) ∧ c ≠ "op_col" ∧
       get_column (test_heap !!! dataframe item) c = Some (NumSeries vals)) as Hclean.
  { intros item ->%list_elem_of_singleton.
    exists [Some 1; Some 2; Some 3]%Z, "data_col1", [Some 10; Some 20; Some 30]%Z.
    split_and!; [reflexivity| |done|reflexivity].
    intros Hin. repeat (apply elem_of_cons in Hin as [?|Hin]; [done|]).
    by apply elem_of_nil in Hin. }
  refine (conj clean_items_allocated (conj Hclean _)).
  exact (proj1 (clean_tables_pass_unchanged decimal_of_string [clean_item] "op_col"
                  test_heap clean_items_allocated Hclean)).
Defined.

End ValidatorOutcomes.

(** ** Python strings *)
Module TextProofs.
Import Parser Text ComparisonProofs.

Lemma drop_string_prefix (n : nat) (s : string) : ∃ pre, s = pre +:+ drop_string n s.
Proof.
  revert s. induction n as [|n IH]; intros s.
  { exists "". by destruct s. }
  destruct s as [|c s]; [by exists ""|]. destruct (IH s) as [pre Hpre].
  exists (String c pre). simpl. by rw append_cons -Hpre.
Qed.

Lemma drop_string_append (pre s : string) : drop_string (String.length pre) (pre +:+ s) = s.
Proof. induction pre as [|c pre IH]; [by destruct s|]. by rw append_cons. Qed.

(** [endswith] holds of the strings that are made of some prefix and
    the suffix. *)
Lemma endswith_spec (s suffix : string) :
  endswith s suffix = true ↔ ∃ pre, s = pre +:+ suffix.
Proof.
  rw /endswith andb_true_iff bool_decide_eq_true. split.
  - intros [_ Hdrop].
    destruct (drop_string_prefix (String.length s - String.length suffix) s) as [pre Hpre].
    exists pre. by rw -Hdrop.
  - intros [pre ->]. rw length_append. split; [apply Nat.leb_le; lia|].
    replace (String.length pre + String.length suffix - String.length suffix)
      with (String.length pre) by lia.
    apply drop_string_append.
Qed.

Lemma plain_label_endswith (l : string) :
  endswith l "_REF" = false → endswith l "_OTH" = false → Pandas.plain_label l.
Proof.
  intros Href Hoth pre. split; intros ->.
  - assert (endswith (pre +:+ "_REF") "_REF" = true) as H; [|congruence].
    apply endswith_spec. by exists pre.
  - assert (endswith (pre +:+ "_OTH") "_OTH" = true) as H; [|congruence].
    apply endswith_spec. by exists pre.
Qed.

End TextProofs.

(** ** The comparison engine: results and warnings of a run *)
Module ComparisonOutcomes.
Import Pandas Comparison ComparisonExamples ComparisonRules ComparisonProofs TextProofs.

Lemma grows_warning st st' w : grows st st' → w ∈ st.2 → w ∈ st'.2.
Proof. intros [_ [k ->]] Hin. apply elem_of_app. by left. Qed.

Lemma grows_key st st' k : grows st st' → k ∈ st.1.*1 → k ∈ st'.1.*1.
Proof. intros [Hsub _] Hin. by apply Hsub. Qed.

Lemma dict_set_key (d : Results) k v : k ∈ (dict_set d k v).*1.
Proof.
  induction d as [|[k0 v0] d IH]; simpl; [by left|].
  destruct (decide (k0 = k)) as [->|Hne]; simpl; [by left|by right].
Qed.

Section Cases.
Variables (operation_column : string) (ref_data : ValidatedData).

(** The four ways the body of the loop over the columns can go. *)
Lemma compare_column_cases ref_name other_name merged_df st col_name st' :
  compare_column operation_column ref_name other_name merged_df st col_name = Some st' →
  (has_column merged_df (col_name +:+ "_REF") = false ∧
   st' = warn st InternalLogicWarning
           (internal_logic_message col_name (col_name +:+ "_REF") ref_name other_name)) ∨
  (has_column merged_df (col_name +:+ "_REF") = true ∧
   has_column merged_df (col_name +:+ "_OTH") = false ∧
   st' = warn st ColumnMissingInOtherWarning
           (column_missing_message col_name (col_name +:+ "_OTH") ref_name other_name)) ∨
  (has_column merged_df (col_name +:+ "_REF") = true ∧
   has_column merged_df (col_name +:+ "_OTH") = true ∧
   (¬ ∃ r o, getitem merged_df (col_name +:+ "_REF") = OneColumn (NumSeries r) ∧
             getitem merged_df (col_name +:+ "_OTH") = OneColumn (NumSeries o)) ∧
   st' = warn st DataTypeWarning
           (data_type_message col_name (col_name +:+ "_REF") (col_name +:+ "_OTH")
              ref_name other_name)) ∨
  (∃ keys r o,
     getitem merged_df (col_name +:+ "_REF") = OneColumn (NumSeries r) ∧
     getitem merged_df (col_name +:+ "_OTH") = OneColumn (NumSeries o) ∧
     getitem merged_df operation_column = OneColumn keys ∧
     st' = (dict_set st.1 (col_name, ref_name, other_name)
              (frame_of_dict2 operation_column keys "difference" (NumSeries (sub_abs r o))),
            st.2)).
Proof.
  rw /compare_column.
  destruct (has_column merged_df (col_name +:+ "_REF")) eqn:Hr; simpl;
    [|intros [= <-]; by left].
  destruct (has_column merged_df (col_name +:+ "_OTH")) eqn:Ho; simpl;
    [|intros [= <-]; right; by left].
  destruct (getitem merged_df (col_name +:+ "_REF")) as [|[r|?]|] eqn:Hgr;
    try (intros [= <-]; right; right; left; split_and!; try done;
         by intros (r' & o' & ? & ?)).
  destruct (getitem merged_df (col_name +:+ "_OTH")) as [|[o|?]|] eqn:Hgo;
    try (intros [= <-]; right; right; left; split_and!; try done;
         by intros (r' & o' & ? & ?)).
  destruct (getitem merged_df operation_column) as [|keys|] eqn:Hk; try done.
  intros [= <-]. right. right. right. by exists keys, r, o.
Qed.

(** A step of a loop, seen from the whole run of the loop. *)
Lemma compare_columns_step ref_name other_name merged_df cols st st' col_name :
  compare_columns operation_column ref_name other_name merged_df st cols = Some st' →
  col_name ∈ cols →
  ∃ st0 st1, grows st st0 ∧
    compare_column operation_column ref_name other_name merged_df st0 col_name = Some st1 ∧
    grows st1 st'.
Proof.
  revert st. induction cols as [|c cols IH]; intros st; simpl.
  { by intros _ ?%elem_of_nil. }
  destruct (compare_column _ _ _ _ st c) as [st1|] eqn:Hc; [|done].
  intros Hrest [->|Hin]%elem_of_cons.
  - exists st, st1. split_and!; [apply grows_refl|done|].
    by eapply compare_columns_grows.
  - destruct (IH st1 Hrest Hin) as (st0 & st2 & Hg & Hstep & Hg').
    exists st0, st2. split_and!; try done.
    eapply grows_trans; [|done]. by eapply compare_column_grows.
Qed.

Lemma compare_pairs_step others st st' other_data :
  compare_pairs operation_column ref_data st others = Some st' →
  other_data ∈ others →
  ∃ st0 st1, grows st st0 ∧
    compare_pair operation_column ref_data st0 other_data = Some st1 ∧
    grows st1 st'.
Proof.
  revert st. induction others as [|o others IH]; intros st; simpl.
  { by intros _ ?%elem_of_nil. }
  destruct (compare_pair _ _ st o) as [st1|] eqn:Hc; [|done].
  intros Hrest [->|Hin]%elem_of_cons.
  - exists st, st1. split_and!; [apply grows_refl|done|].
    by eapply compare_pairs_grows.
  - destruct (IH st1 Hrest Hin) as (st0 & st2 & Hg & Hstep & Hg').
    exists st0, st2. split_and!; try done.
    eapply grows_trans; [|done]. by eapply compare_pair_grows.
Qed.

(** Warnings of a run: what holds of the warnings at the start and of
    every warning a step adds holds of all warnings at the end. *)
Lemma compare_columns_warnings (Q : Warning → Prop) ref_name other_name merged_df cols st st' :
  (∀ w, w ∈ st.2 → Q w) →
  (∀ st0 col_name st1 w,
     col_name ∈ cols →
     compare_column operation_column ref_name other_name merged_df st0 col_name = Some st1 →
     st1.2 = st0.2 ++ [w] → Q w) →
  compare_columns operation_column ref_name other_name merged_df st cols = Some st' →
  ∀ w, w ∈ st'.2 → Q w.
Proof.
  revert st. induction cols as [|c cols IH]; intros st Hst Hstep; simpl.
  { by intros [= <-]. }
  destruct (compare_column _ _ _ _ st c) as [st1|] eqn:Hc; [|done].
  apply IH.
  - destruct (compare_column_cases _ _ _ _ _ _ Hc)
      as [[_ ->]|[(_ & _ & ->)|[(_ & _ & _ & ->)|(? & ? & ? & _ & _ & _ & ->)]]]; simpl;
      try done;
      intros w [Hw| ->%list_elem_of_singleton]%elem_of_app; try (by apply Hst);
      eapply (Hstep st c); try done; by left.
  - intros st0 col st2 w Hin. apply Hstep. by right.
Qed.

Lemma compare_pairs_warnings (Q : Warning → Prop) others st st' :
  (∀ w, w ∈ st.2 → Q w) →
  (∀ other_data e, other_data ∈ others →
     merge_pair ref_data other_data operation_column = inl e →
     Q {| w_type := MergeError;
          w_message := merge_error_message (filename ref_data) (filename other_data)
                         operation_column e |}) →
  (∀ other_data merged_df, other_data ∈ others →
     merge_pair ref_data other_data operation_column = inr merged_df →
     empty merged_df = true →
     Q {| w_type := MergeWarning;
          w_message := merge_warning_message (filename ref_data) (filename other_data)
                         operation_column |}) →
  (∀ other_data merged_df st0 col_name st1 w, other_data ∈ others →
     merge_pair ref_data other_data operation_column = inr merged_df →
     empty merged_df = false →
     col_name ∈ numeric_columns ref_data →
     compare_column operation_column (filename ref_data) (filename other_data)
                    merged_df st0 col_name = Some st1 →
     st1.2 = st0.2 ++ [w] → Q w) →
  compare_pairs operation_column ref_data st others = Some st' →
  ∀ w, w ∈ st'.2 → Q w.
Proof.
  revert st. induction others as [|o others IH]; intros st Hst Herr Hempty Hcol; simpl.
  { by intros [= <-]. }
  destruct (compare_pair _ _ st o) as [st1|] eqn:Hc; [|done].
  apply IH.
  - revert Hc. rw /compare_pair.
    destruct (merge_pair ref_data o operation_column) as [e|merged_df] eqn:Hm.
    { intros [= <-]. simpl.
      intros w [Hw| ->%list_elem_of_singleton]%elem_of_app; [by apply Hst|].
      apply Herr; [by left|done]. }
    destruct (empty merged_df) eqn:He.
    { intros [= <-]. simpl.
      intros w [Hw| ->%list_elem_of_singleton]%elem_of_app; [by apply Hst|].
      eapply Hempty; [by left|done..]. }
    apply compare_columns_warnings; [done|].
    intros st0 col st2 w Hin. eapply Hcol; try done. by left.
  - intros other e Hin. apply Herr. by right.
  - intros other merged Hin. apply Hempty. by right.
  - intros other merged st0 col st2 w Hin. apply Hcol. by right.
Qed.

End Cases.

(** The difference column of a stored frame is the column of the
    absolute differences of two numeric columns. *)
Lemma stored_difference_column data op results warnings key frame s :
  perform_column_comparison data op = Some (results, warnings) →
  (key, frame) ∈ results →
  get_column frame "difference" = Some s →
  ∃ r o, s = NumSeries (sub_abs r o).
Proof.
  intros Hrun Hin.
  pose (P := λ (_ : result_key) (fr : DataFrame),
    ∀ s, get_column fr "difference" = Some s → ∃ r o, s = NumSeries (sub_abs r o)).
  assert (all_items P results) as Hall; [|by apply (Hall _ _ Hin)].
  apply (perform_column_comparison_inv P data op (results, warnings)); [|done].
  intros _ _ merged c fr _ _ _ _ (keys & r & o & _ & _ & _ & ->) x Hx.
  exists r, o. revert Hx. rw /frame_of_dict2.
  destruct (decide (op = "difference")) as [->|Hne]; simpl.
  - destruct (decide ("difference" = "difference")); [|done]. by intros [= <-].
  - destruct (decide (op = "difference")); [done|].
    destruct (decide ("difference" = "difference")); [|done]. by intros [= <-].
Qed.

(** Cells of the exact range stay in it through the selection and the
    merge. *)
Lemma take_vals_elem {A} (v : list (option A)) indexer (x : A) :
  Some x ∈ take_vals v indexer → Some x ∈ v.
Proof.
  intros [p Hp]%list_elem_of_lookup. apply take_vals_lookup in Hp as (i & _ & Hx).
  destruct (v !! i) as [y|] eqn:Hi; [|done]. simpl in Hx. subst y.
  by eapply list_elem_of_lookup_2.
Qed.

Lemma take_exact_frame (df : DataFrame) (g : string → string) indexer :
  exact_frame df → exact_frame (map (λ c, (g c.1, take c.2 indexer)) df).
Proof.
  intros Hdf l vals x. change (map ?f df) with (f <$> df).
  intros ([l0 s0] & [= -> Htake] & Hin)%list_elem_of_fmap Hx. simpl in Htake.
  destruct s0 as [v0|v0]; [|done]. injection Htake as ->.
  apply (Hdf l0 v0 x Hin). by eapply take_vals_elem.
Qed.

Lemma select_exact_frame df labels part :
  select df labels = inr part → exact_frame df → exact_frame part.
Proof.
  intros Hsel Hdf l vals x Hin. apply (Hdf l vals x).
  apply get_column_elem. by eapply select_elem.
Qed.

Lemma merge_exact_frame left right on lsuffix rsuffix merged :
  merge left right on lsuffix rsuffix = inr merged →
  exact_frame left → exact_frame right → exact_frame merged.
Proof.
  intros (lkey & rkey & idx & _ & _ & _ & ->)%merge_inr Hl Hr l vals x.
  intros [Hin|Hin]%elem_of_app.
  - by eapply (take_exact_frame left).
  - eapply (take_exact_frame (without on right)); [|done].
    intros l0 v0 x0 Hin0. apply (Hr l0 v0 x0). by eapply without_elem.
Qed.

Lemma merge_pair_exact_frame ref_data other_data op merged :
  merge_pair ref_data other_data op = inr merged →
  exact_frame (dataframe ref_data) → exact_frame (dataframe other_data) →
  exact_frame merged.
Proof.
  rw /merge_pair.
  destruct (select (dataframe ref_data) _) as [e|ref_part] eqn:Href; [done|].
  destruct (select (dataframe other_data) _) as [e|other_part] eqn:Hoth; [done|].
  intros Hm Hr Ho. eapply merge_exact_frame; [done|..]; by eapply select_exact_frame.
Qed.

Lemma abs_diff_exact (x y : option Z) d :
  (∀ u, x = Some u → exact_cell u) → (∀ v, y = Some v → exact_cell v) →
  abs_diff x y = Some d → (0 ≤ d ≤ 2 ^ 53)%Z.
Proof.
  destruct x as [u|], y as [v|]; simpl; try done. intros Hu Hv [= <-].
  specialize (Hu u eq_refl). specialize (Hv v eq_refl). rw /exact_cell in Hu, Hv.
  change (2 ^ 53)%Z with (2 * 2 ^ 52)%Z. lia.
Qed.

(** X14: for tables whose numbers are integers of the exact range (up to
    2^52 in magnitude, which int64 and float64 both subtract without
    wrapping or rounding), every difference the comparison stores is
    the absolute value of a subtraction: a number from 0 to 2^53, never
    a negative one. *)
Theorem differences_are_never_negative data op results warnings key frame s :
  perform_column_comparison data op = Some (results, warnings) →
  (∀ t, t ∈ data → exact_frame (dataframe t)) →
  (key, frame) ∈ results →
  get_column frame "difference" = Some s →
  ∃ diffs, s = NumSeries diffs ∧ ∀ x, Some x ∈ diffs → (0 ≤ x ≤ 2 ^ 53)%Z.
Proof.
  intros Hrun Hexact Hin.
  pose (P := λ (_ : result_key) (fr : DataFrame),
    ∀ s, get_column fr "difference" = Some s →
         ∃ diffs, s = NumSeries diffs ∧ ∀ x, Some x ∈ diffs → (0 ≤ x ≤ 2 ^ 53)%Z).
  assert (all_items P results) as Hall; [|by apply (Hall _ _ Hin)].
  apply (perform_column_comparison_inv P data op (results, warnings)); [|done].
  intros ref_data other_data merged c fr Hhead Hother Hm _
    (keys & r & o & Hr & Ho & _ & ->) x Hx.
  assert (exact_frame merged) as Hmerged.
  { apply (merge_pair_exact_frame _ _ _ _ Hm); apply Hexact.
    - destruct data as [|t data']; [done|]. injection Hhead as ->. by left.
    - destruct data as [|t data']; [done|]. by right. }
  apply getitem_elem in Hr, Ho.
  assert (x = NumSeries (sub_abs r o)) as ->.
  { revert Hx. rw /frame_of_dict2.
    destruct (decide (op = "difference")) as [->|Hne]; simpl.
    - destruct (decide ("difference" = "difference")); [|done]. by intros [= <-].
    - destruct (decide (op = "difference")); [done|].
      destruct (decide ("difference" = "difference")); [|done]. by intros [= <-]. }
  eexists. split; [done|]. intros d Hd.
  apply list_elem_of_lookup in Hd as [i Hi].
  apply lookup_zip_with_Some in Hi as (a & b & Heq & Ha & Hb).
  apply (abs_diff_exact a b d); [| |done].
  - intros u ->. apply (Hmerged _ r u Hr). by eapply list_elem_of_lookup_2.
  - intros v ->. apply (Hmerged _ o v Ho). by eapply list_elem_of_lookup_2.
Qed.

(** X15: for tables with plain labels whose numbers are integers of the
    exact range, a stored series belongs to the first table and one of
    the later ones; its key values are the keys both tables carry, and
    every difference is the absolute difference of the two cells of a
    row pair with that key, a number from 0 to 2^53, so that neither
    int64 nor float64 arithmetic departs from it. *)
Theorem plain_labels_give_exact_differences data op results warnings
    col ref_name other_name frame :
  perform_column_comparison data op = Some (results, warnings) →
  (col, ref_name, other_name, frame) ∈ results →
  op ≠ "difference" →
  (∀ t l, t ∈ data → l ∈ columns (dataframe t) → plain_label l) →
  (∀ t, t ∈ data → exact_frame (dataframe t)) →
  ∃ ref_data other_data keys diffs refcol othcol,
    head data = Some ref_data ∧ other_data ∈ tail data ∧
    filename ref_data = ref_name ∧ filename other_data = other_name ∧
    get_column frame op = Some keys ∧
    get_column frame "difference" = Some (NumSeries diffs) ∧
    get_column (dataframe ref_data) col = Some (NumSeries refcol) ∧
    get_column (dataframe other_data) col = Some (NumSeries othcol) ∧
    (∀ k, k ∈ series_cells keys ↔
          k ∈ key_cells (dataframe ref_data) op ∧ k ∈ key_cells (dataframe other_data) op) ∧
    (∀ p k d, series_cells keys !! p = Some k → diffs !! p = Some d →
       ∃ i j, key_cells (dataframe ref_data) op !! i = Some k ∧
              key_cells (dataframe other_data) op !! j = Some k ∧
              d = abs_diff (default None (refcol !! i)) (default None (othcol !! j)) ∧
              ∀ x, d = Some x → (0 ≤ x ≤ 2 ^ 53)%Z).
Proof.
  intros Hrun Hin Hop Hplain Hexact.
  destruct (plain_labels_give_sound_differences data op results warnings col ref_name
              other_name frame Hrun Hin Hop Hplain)
    as (ref_data & other_data & keys & diffs & refcol & othcol & Hhead & Hother & Hrn & Hon
        & Hk & Hd & Hr & Ho & Hkeys & Hrows).
  exists ref_data, other_data, keys, diffs, refcol, othcol. split_and!; try done.
  intros p k d Hp Hdp. destruct (Hrows p k d Hp Hdp) as (i & j & Hi & Hj & Hval).
  exists i, j. split_and!; try done. intros x ->. symmetry in Hval.
  apply (abs_diff_exact _ _ x) in Hval; [done|..].
  - intros u Hu. destruct (refcol !! i) as [y|] eqn:Hy; [|done]. simpl in Hu. subst y.
    apply (Hexact ref_data) with col refcol.
    + destruct data as [|t data']; [done|]. injection Hhead as ->. by left.
    + by apply get_column_elem.
    + by eapply list_elem_of_lookup_2.
  - intros v Hv. destruct (othcol !! j) as [y|] eqn:Hy; [|done]. simpl in Hv. subst y.
    apply (Hexact other_data) with col othcol.
    + destruct data as [|t data']; [done|]. by right.
    + by apply get_column_elem.
    + by eapply list_elem_of_lookup_2.
Qed.

(** The warnings of a whole run. *)
Lemma perform_column_comparison_warnings (Q : Warning → Prop) data op st :
  (∀ w, w_type w = SetupWarning ∨ w_type w = DataWarning → Q w) →
  (∀ ref_data other_data e,
     head data = Some ref_data → other_data ∈ tail data →
     merge_pair ref_data other_data op = inl e →
     Q {| w_type := MergeError;
          w_message := merge_error_message (filename ref_data) (filename other_data) op e |}) →
  (∀ ref_data other_data merged_df,
     head data = Some ref_data → other_data ∈ tail data →
     merge_pair ref_data other_data op = inr merged_df → empty merged_df = true →
     Q {| w_type := MergeWarning;
          w_message := merge_warning_message (filename ref_data) (filename other_data) op |}) →
  (∀ ref_data other_data merged_df st0 col_name st1 w,
     head data = Some ref_data → other_data ∈ tail data →
     merge_pair ref_data other_data op = inr merged_df → empty merged_df = false →
     col_name ∈ numeric_columns ref_data →
     compare_column op (filename ref_data) (filename other_data) merged_df st0 col_name
     = Some st1 →
     st1.2 = st0.2 ++ [w] → Q w) →
  perform_column_comparison data op = Some st →
  ∀ w, w ∈ st.2 → Q w.
Proof.
  intros Hfirst Herr Hempty Hcol. rw /perform_column_comparison.
  destruct data as [|ref_data [|o others]].
  - intros [= <-] w ->%list_elem_of_singleton. apply Hfirst. by left.
  - intros [= <-] w ->%list_elem_of_singleton. apply Hfirst. by left.
  - apply compare_pairs_warnings.
    + simpl. destruct (numeric_columns ref_data); [|by intros w ?%elem_of_nil].
      intros w ->%list_elem_of_singleton. apply Hfirst. by right.
    + intros other e Hin. by apply Herr.
    + intros other merged Hin. by apply Hempty.
    + intros other merged st0 col st1 w Hin. by apply Hcol.
Qed.

Section Labels.
Implicit Types (df left right merged : DataFrame) (s : Series).

Lemma select_labels df labels part : select df labels = inr part → columns part = labels.
Proof.
  revert part. induction labels as [|c labels IH]; intros part; simpl.
  { by intros [= <-]. }
  destruct (get_column df c) as [x|]; [|done].
  destruct (select df labels) as [e|cols]; [done|]. intros [= <-]. simpl.
  by rw (IH cols).
Qed.

Lemma columns_without on df l : l ∈ columns (without on df) ↔ l ∈ columns df ∧ l ≠ on.
Proof.
  rw /columns /without !list_elem_of_fmap. split.
  - intros ([c x] & -> & [Hne Hin]%list_elem_of_filter). split; [|done]. by exists (c, x).
  - intros [([c x] & -> & Hin) Hne]. exists (c, x). split; [done|].
    by apply list_elem_of_filter.
Qed.

Lemma merged_columns left right on lsuffix rsuffix merged :
  merge left right on lsuffix rsuffix = inr merged →
  let overlap := filter (λ l, l ∈ columns (without on right)) (columns (without on left)) in
  columns merged
  = map (rename_overlap overlap lsuffix) (columns left)
    ++ map (rename_overlap overlap rsuffix) (columns (without on right)).
Proof.
  intros (lkey & rkey & idx & _ & _ & _ & ->)%merge_inr overlap.
  rw /columns !map_app !map_map. done.
Qed.

Lemma overlap_elem left right on l :
  l ∈ filter (λ l, l ∈ columns (without on right)) (columns (without on left)) ↔
  l ≠ on ∧ l ∈ columns left ∧ l ∈ columns right.
Proof. rw list_elem_of_filter !columns_without. tauto. Qed.

(** With plain labels, the suffixed labels of a merged frame are the
    labels both sides carry, the key apart. *)
Lemma merged_ref_label left right on merged col :
  merge left right on "_REF" "_OTH" = inr merged →
  (∀ l, l ∈ columns left → plain_label l) →
  (∀ l, l ∈ columns right → plain_label l) →
  col +:+ "_REF" ∈ columns merged ↔ col ≠ on ∧ col ∈ columns left ∧ col ∈ columns right.
Proof.
  intros Hm Hleft Hright. rw (merged_columns _ _ _ _ _ _ Hm) -overlap_elem.
  rw elem_of_app !list_elem_of_fmap /rename_overlap. split.
  - intros [(c & Heq & Hc)|(c & Heq & Hc)]; case_bool_decide.
    + by apply suffix_ref_inj in Heq as ->.
    + by destruct (Hleft c Hc col) as [? _].
    + by apply suffix_ref_oth in Heq.
    + apply columns_without in Hc as [Hc _]. by destruct (Hright c Hc col) as [? _].
  - intros Hin. left. exists col. rw bool_decide_eq_true_2 //. split; [done|].
    by apply overlap_elem in Hin as (_ & ? & _).
Qed.

Lemma merged_oth_label left right on merged col :
  merge left right on "_REF" "_OTH" = inr merged →
  (∀ l, l ∈ columns left → plain_label l) →
  (∀ l, l ∈ columns right → plain_label l) →
  col +:+ "_OTH" ∈ columns merged ↔ col ≠ on ∧ col ∈ columns left ∧ col ∈ columns right.
Proof.
  intros Hm Hleft Hright. rw (merged_columns _ _ _ _ _ _ Hm) -overlap_elem.
  rw elem_of_app !list_elem_of_fmap /rename_overlap. split.
  - intros [(c & Heq & Hc)|(c & Heq & Hc)]; case_bool_decide.
    + symmetry in Heq. by apply suffix_ref_oth in Heq.
    + by destruct (Hleft c Hc col) as [_ ?].
    + by apply suffix_oth_inj in Heq as ->.
    + apply columns_without in Hc as [Hc _]. by destruct (Hright c Hc col) as [_ ?].
  - intros Hin. right. exists col. rw bool_decide_eq_true_2 //. split; [done|].
    apply overlap_elem in Hin as (? & _ & ?). by apply columns_without.
Qed.

End Labels.

Section PlainPairs.
Variables (operation_column : string) (ref_data other_data : ValidatedData).
Hypothesis Hplain_ref : plain_labels ref_data.
Hypothesis Hplain_other : plain_labels other_data.

Lemma cols_to_merge_elem (df : DataFrame) numeric_cols l :
  l ∈ cols_to_merge df numeric_cols operation_column ↔
  l = operation_column ∨ (l ∈ numeric_cols ∧ l ∈ columns df ∧ l ≠ operation_column).
Proof.
  rw /cols_to_merge /list_set elem_of_remove_dups elem_of_cons list_elem_of_filter. tauto.
Qed.

(** The suffixed labels of the frame the loop over the columns works
    on: the columns that both tables list as numeric. *)
Lemma merge_pair_suffixed merged_df col_name :
  merge_pair ref_data other_data operation_column = inr merged_df →
  (has_column merged_df (col_name +:+ "_REF") = true ↔
   has_column merged_df (col_name +:+ "_OTH") = true) ∧
  (has_column merged_df (col_name +:+ "_REF") = true →
   col_name ∈ numeric_columns ref_data ∧ col_name ∈ numeric_columns other_data).
Proof.
  rw /merge_pair.
  destruct (select (dataframe ref_data) _) as [e|ref_part] eqn:Href; [done|].
  destruct (select (dataframe other_data) _) as [e|other_part] eqn:Hoth; [done|].
  intros Hm.
  assert (∀ l, l ∈ columns ref_part → plain_label l) as Hp1.
  { intros l Hl. apply Hplain_ref. by eapply select_columns. }
  assert (∀ l, l ∈ columns other_part → plain_label l) as Hp2.
  { intros l Hl. apply Hplain_other. by eapply select_columns. }
  rw !has_column_true (merged_ref_label _ _ _ _ _ Hm Hp1 Hp2)
     (merged_oth_label _ _ _ _ _ Hm Hp1 Hp2).
  split; [done|]. intros (Hne & Hl & Hr).
  rw (select_labels _ _ _ Href) in Hl. rw (select_labels _ _ _ Hoth) in Hr.
  apply cols_to_merge_elem in Hl as [?|(? & _)]; [done|].
  by apply cols_to_merge_elem in Hr as [?|(? & _)].
Qed.

End PlainPairs.

(** X16: with plain labels the warning of the type
    [ColumnMissingInOtherWarning] is never given: a column of the
    reference is in the merged frame under its suffixed label only when
    the other table has it too, and then the other side is there as
    well. *)
Theorem column_missing_warning_is_never_given data op results warnings w :
  perform_column_comparison data op = Some (results, warnings) →
  (∀ t, t ∈ data → plain_labels t) →
  w ∈ warnings →
  w_type w ≠ ColumnMissingInOtherWarning.
Proof.
  intros Hrun Hplain.
  apply (perform_column_comparison_warnings
           (λ w, w_type w ≠ ColumnMissingInOtherWarning) data op (results, warnings));
    try done.
  - by intros w' [-> | ->].
  - intros ref_data other_data merged st0 col st1 w' Hhead Hother Hm _ _ Hc Hw.
    assert (ref_data ∈ data) as Hrd.
    { destruct data as [|x data']; [done|]. injection Hhead as ->. by left. }
    assert (other_data ∈ data) as Hod.
    { destruct data as [|x data']; [by apply elem_of_nil in Hother|]. by right. }
    destruct (merge_pair_suffixed op ref_data other_data (Hplain _ Hrd) (Hplain _ Hod)
                merged col Hm) as [Hiff _].
    destruct (compare_column_cases _ _ _ _ _ _ _ Hc)
      as [[_ ->]|[(Hr & Ho & ->)|[(_ & _ & _ & ->)|(? & ? & ? & _ & _ & _ & ->)]]];
      simpl in Hw.
    + apply app_inj_tail in Hw as [_ <-]. done.
    + apply Hiff in Hr. congruence.
    + apply app_inj_tail in Hw as [_ <-]. done.
    + apply (f_equal length) in Hw. rw length_app /= in Hw. lia.
Qed.

(** X17: with plain labels, a numeric column of the reference that the other
    table does not list as numeric is reported with an
    [InternalLogicWarning], for every other table whose join with the
    reference is not empty. *)
Theorem unmatched_column_gets_internal_logic_warning data op results warnings
    ref_data other_data merged_df col_name :
  perform_column_comparison data op = Some (results, warnings) →
  (∀ t, t ∈ data → plain_labels t) →
  head data = Some ref_data → other_data ∈ tail data →
  merge_pair ref_data other_data op = inr merged_df → empty merged_df = false →
  col_name ∈ numeric_columns ref_data →
  col_name ∉ numeric_columns other_data →
  {| w_type := InternalLogicWarning;
     w_message := internal_logic_message col_name (col_name +:+ "_REF")
                    (filename ref_data) (filename other_data) |} ∈ warnings.
Proof.
  intros Hrun Hplain Hhead Hother Hm Hne Hcol Hnot.
  assert (ref_data ∈ data) as Hrd.
  { destruct data as [|x data']; [done|]. injection Hhead as ->. by left. }
  assert (other_data ∈ data) as Hod.
  { destruct data as [|x data']; [by apply elem_of_nil in Hother|]. by right. }
  destruct (merge_pair_suffixed op ref_data other_data (Hplain _ Hrd) (Hplain _ Hod)
              merged_df col_name Hm) as [_ Hboth].
  assert (has_column merged_df (col_name +:+ "_REF") = false) as Hr.
  { destruct (has_column merged_df (col_name +:+ "_REF")) eqn:Hr; [|done].
    by destruct (Hboth eq_refl) as [_ ?]. }
  revert Hrun. rw /perform_column_comparison.
  destruct data as [|r [|o others]]; try by apply elem_of_nil in Hother.
  injection Hhead as ->. intros Hrun.
  destruct (compare_pairs_step _ _ _ _ _ _ Hrun Hother) as (st0 & st1 & _ & Hpair & Hg).
  apply (grows_warning st1 (results, warnings) _ Hg).
  revert Hpair. rw /compare_pair Hm Hne. intros Hcols.
  destruct (compare_columns_step _ _ _ _ _ _ _ _ Hcols Hcol) as (st2 & st3 & _ & Hc & Hg').
  apply (grows_warning st3 st1 _ Hg'). revert Hc. rw /compare_column Hr /=. intros [= <-].
  simpl. apply elem_of_app. right. by left.
Qed.

(** X18: nothing is dropped without a trace: for every other table, either a
    warning tells that the pair could not be merged or has no common
    key, or every numeric column of the reference has a result under
    its key or a warning that names it. *)
Theorem every_column_is_accounted_for data op results warnings ref_data other_data :
  perform_column_comparison data op = Some (results, warnings) →
  head data = Some ref_data → other_data ∈ tail data →
  (∃ w, w ∈ warnings ∧ w_type w ∈ [MergeError; MergeWarning] ∧
        pair_messages op ref_data other_data (w_message w)) ∨
  ∀ col_name, col_name ∈ numeric_columns ref_data →
    (col_name, filename ref_data, filename other_data) ∈ results.*1 ∨
    ∃ w, w ∈ warnings ∧
         w_type w ∈ [InternalLogicWarning; ColumnMissingInOtherWarning; DataTypeWarning] ∧
         column_messages ref_data other_data col_name (w_message w).
Proof.
  intros Hrun Hhead Hother. revert Hrun. rw /perform_column_comparison.
  destruct data as [|r [|o others]]; try by apply elem_of_nil in Hother.
  injection Hhead as ->. intros Hrun.
  destruct (compare_pairs_step _ _ _ _ _ _ Hrun Hother) as (st0 & st1 & _ & Hpair & Hg).
  revert Hpair. rw /compare_pair.
  destruct (merge_pair ref_data other_data op) as [e|merged_df] eqn:Hm.
  { intros [= <-]. left. eexists. split; [apply (grows_warning _ (results, warnings) _ Hg)|].
    - simpl. apply elem_of_app. right. by left.
    - simpl. split; [by left|]. left. by exists e. }
  destruct (empty merged_df) eqn:Hne.
  { intros [= <-]. left. eexists. split; [apply (grows_warning _ (results, warnings) _ Hg)|].
    - simpl. apply elem_of_app. right. by left.
    - simpl. split; [right; by left|]. by right. }
  intros Hcols. right. intros col Hcol.
  destruct (compare_columns_step _ _ _ _ _ _ _ _ Hcols Hcol) as (st2 & st3 & _ & Hc & Hg').
  destruct (compare_column_cases _ _ _ _ _ _ _ Hc)
    as [[_ ->]|[(_ & _ & ->)|[(_ & _ & _ & ->)|(? & ? & ? & _ & _ & _ & ->)]]].
  - right. eexists.
    split; [apply (grows_warning st1 (results, warnings) _ Hg), (grows_warning _ st1 _ Hg')|].
    + simpl. apply elem_of_app. right. by left.
    + simpl. split; [by left|]. by left.
  - right. eexists.
    split; [apply (grows_warning st1 (results, warnings) _ Hg), (grows_warning _ st1 _ Hg')|].
    + simpl. apply elem_of_app. right. by left.
    + simpl. split; [right; by left|]. right. by left.
  - right. eexists.
    split; [apply (grows_warning st1 (results, warnings) _ Hg), (grows_warning _ st1 _ Hg')|].
    + simpl. apply elem_of_app. right. by left.
    + simpl. split; [right; right; by left|]. right. by right.
  - left. apply (grows_key st1 (results, warnings) _ Hg), (grows_key _ st1 _ Hg').
    simpl. apply dict_set_key.
Qed.

Section Merging.
Implicit Types (df left right merged : DataFrame) (s : Series).

Lemma select_succeeds df labels :
  (∀ l, l ∈ labels → l ∈ columns df) → ∃ part, select df labels = inr part.
Proof.
  induction labels as [|c labels IH]; intros Hall; simpl; [by eexists|].
  destruct (proj2 (get_column_columns df c)) as [x ->]; [apply Hall; by left|].
  destruct IH as [part ->]; [intros l Hl; apply Hall; by right|]. by eexists.
Qed.

Lemma rename_overlap_nodup overlap suffix (l : list string) :
  suffix = "_REF" ∨ suffix = "_OTH" →
  (∀ x, x ∈ l → plain_label x) → NoDup l →
  NoDup (map (rename_overlap overlap suffix) l).
Proof.
  intros Hsuffix Hplain. apply NoDup_fmap_2_strong. intros x y Hx Hy.
  rw /rename_overlap. do 2 case_bool_decide; intros Heq; try done.
  - by apply append_suffix_inj in Heq as [? _].
  - destruct (Hplain y Hy x) as [? ?]. by destruct Hsuffix as [-> | ->].
  - destruct (Hplain x Hx y) as [? ?]. by destruct Hsuffix as [-> | ->].
Qed.

Lemma columns_without_nodup on df : NoDup (columns df) → NoDup (columns (without on df)).
Proof.
  intros Hnd. apply (sublist_NoDup _ (columns df)); [done|].
  rw /columns /without. apply (fmap_sublist fst), sublist_filter.
Qed.

Lemma column_of_label df l : l ∈ columns df → ∃ s, (l, s) ∈ df.
Proof. intros ([c s] & -> & Hin)%list_elem_of_fmap. by exists s. Qed.

Lemma label_of_column df l s : (l, s) ∈ df → l ∈ columns df.
Proof. intros Hin. apply list_elem_of_fmap. by exists (l, s). Qed.

(** A label carried by one column selects that column. *)
Lemma getitem_unique df l s : NoDup (columns df) → (l, s) ∈ df → getitem df l = OneColumn s.
Proof.
  rw /getitem. induction df as [|[c x] df IH]; simpl.
  { by intros _ ?%elem_of_nil. }
  intros [Hc Hnd]%NoDup_cons Hin. rw filter_cons. simpl.
  destruct (decide (c = l)) as [->|Hne].
  - assert (s = x) as ->.
    { apply elem_of_cons in Hin as [[= ->]|Hin]; [done|].
      destruct Hc. by eapply label_of_column. }
    destruct (filter _ df) as [|[c' x'] rest] eqn:Hf; [done|].
    assert ((c', x') ∈ filter (λ c0 : string * Series, c0.1 = l) df) as Hin'.
    { rw Hf. by left. }
    apply list_elem_of_filter in Hin' as [Heq Hin']. simpl in Heq. subst c'.
    destruct Hc. by eapply label_of_column.
  - apply elem_of_cons in Hin as [[= -> ->]|Hin]; [done|]. by apply IH.
Qed.

Lemma merge_succeeds left right on :
  (∃ lk, get_column left on = Some (NumSeries lk)) →
  (∃ rk, get_column right on = Some (NumSeries rk)) →
  (∀ l, l ∈ columns left → plain_label l) →
  (∀ l, l ∈ columns right → plain_label l) →
  NoDup (columns left) → NoDup (columns right) →
  ∃ merged, merge left right on "_REF" "_OTH" = inr merged.
Proof.
  intros [lk Hl] [rk Hr] Hpl Hpr Hnl Hnr. rw /merge Hl Hr /=.
  rw bool_decide_eq_true_2; [|by eexists]. split.
  - apply rename_overlap_nodup; [by left|done..].
  - apply rename_overlap_nodup; [by right| |by apply columns_without_nodup].
    intros x [Hx _]%columns_without. by apply Hpr.
Qed.

(** With plain labels, no two columns of a merged frame carry the same
    label. *)
Lemma merged_columns_nodup left right on merged :
  merge left right on "_REF" "_OTH" = inr merged →
  (∀ l, l ∈ columns left → plain_label l) →
  (∀ l, l ∈ columns right → plain_label l) →
  NoDup (columns merged).
Proof.
  intros Hm Hpl Hpr. rw (merged_columns _ _ _ _ _ _ Hm). cbv zeta.
  revert Hm. rw /merge.
  destruct (get_column left on) as [lkey|]; [|done].
  destruct (get_column right on) as [rkey|]; [|done].
  destruct (join_keys lkey rkey) as [e|idx]; [done|]. cbv zeta.
  case_bool_decide as Hnd; [|done]. intros _. destruct Hnd as [Hnl Hnr].
  apply NoDup_app. split_and!; [done| |done].
  intros x (c & -> & Hc)%list_elem_of_fmap (c' & Heq & Hc')%list_elem_of_fmap.
  apply columns_without in Hc' as Hc2. destruct Hc2 as [Hc2 Hne].
  revert Heq. rw /rename_overlap. do 2 case_bool_decide; intros Heq.
  - by apply suffix_ref_oth in Heq.
  - by destruct (Hpr c' Hc2 c) as [? _].
  - by destruct (Hpl c Hc c') as [_ ?].
  - subst c'. match goal with H : c ∉ _ |- _ => destruct H end.
    apply list_elem_of_filter. split; [done|]. by apply columns_without.
Qed.

End Merging.

Section WellFormedPairs.
Variables (operation_column : string) (ref_data other_data : ValidatedData).
Hypothesis Hwf_ref : well_formed operation_column ref_data.
Hypothesis Hwf_other : well_formed operation_column other_data.
Hypothesis Hplain_ref : plain_labels ref_data.
Hypothesis Hplain_other : plain_labels other_data.

Lemma cols_to_merge_present (v : ValidatedData) l :
  well_formed operation_column v →
  l ∈ cols_to_merge (dataframe v) (numeric_columns v) operation_column →
  ∃ vals, get_column (dataframe v) l = Some (NumSeries vals).
Proof.
  intros [Hkey Hcols] [->|(Hl & _ & _)]%cols_to_merge_elem; [done|].
  by destruct (Hcols l Hl) as [_ ?].
Qed.

Lemma select_part_succeeds (v : ValidatedData) :
  well_formed operation_column v →
  ∃ part, select (dataframe v)
            (cols_to_merge (dataframe v) (numeric_columns v) operation_column) = inr part.
Proof.
  intros Hwf. apply select_succeeds. intros l Hl.
  destruct (cols_to_merge_present v l Hwf Hl) as [vals Hvals].
  apply get_column_columns. by eexists.
Qed.

(** Every column of the part of a table that goes into the merge is
    numeric. *)
Lemma select_part_numeric (v : ValidatedData) part l s :
  well_formed operation_column v →
  select (dataframe v) (cols_to_merge (dataframe v) (numeric_columns v) operation_column)
  = inr part →
  (l, s) ∈ part → is_numeric_dtype s = true.
Proof.
  intros Hwf Hsel Hin.
  assert (l ∈ cols_to_merge (dataframe v) (numeric_columns v) operation_column) as Hl.
  { rw -(select_labels _ _ _ Hsel). by eapply label_of_column. }
  destruct (cols_to_merge_present v l Hwf Hl) as [vals Hvals].
  apply (select_elem _ _ _ _ _ Hsel) in Hin. rw Hvals in Hin. by injection Hin as <-.
Qed.

Lemma merge_pair_succeeds :
  ∃ merged_df, merge_pair ref_data other_data operation_column = inr merged_df.
Proof.
  rw /merge_pair.
  destruct (select_part_succeeds ref_data Hwf_ref) as [ref_part Href].
  destruct (select_part_succeeds other_data Hwf_other) as [other_part Hoth].
  rw Href Hoth. apply merge_succeeds.
  - rw (select_get_column _ _ _ operation_column Href).
    rw decide_True; [apply cols_to_merge_elem; by left|]. apply (proj1 Hwf_ref).
  - rw (select_get_column _ _ _ operation_column Hoth).
    rw decide_True; [apply cols_to_merge_elem; by left|]. apply (proj1 Hwf_other).
  - intros l Hl. apply Hplain_ref. by eapply select_columns.
  - intros l Hl. apply Hplain_other. by eapply select_columns.
  - rw (select_labels _ _ _ Href). apply NoDup_remove_dups.
  - rw (select_labels _ _ _ Hoth). apply NoDup_remove_dups.
Qed.

(** What the loop over the columns finds in the merged frame: the key
    column once, and for every suffixed label of the reference one
    numeric column on each side. *)
Lemma merge_pair_well_formed merged_df :
  merge_pair ref_data other_data operation_column = inr merged_df →
  (∃ keys, getitem merged_df operation_column = OneColumn keys) ∧
  ∀ col_name, has_column merged_df (col_name +:+ "_REF") = true →
    ∃ r o, getitem merged_df (col_name +:+ "_REF") = OneColumn (NumSeries r) ∧
           getitem merged_df (col_name +:+ "_OTH") = OneColumn (NumSeries o).
Proof.
  intros Hpair.
  pose proof (merge_pair_suffixed operation_column ref_data other_data
                Hplain_ref Hplain_other merged_df) as Hsuffixed.
  revert Hpair. rw /merge_pair.
  destruct (select (dataframe ref_data) _) as [e|ref_part] eqn:Href; [done|].
  destruct (select (dataframe other_data) _) as [e|other_part] eqn:Hoth; [done|].
  intros Hm.
  assert (∀ l, l ∈ columns ref_part → plain_label l) as Hp1.
  { intros l Hl. apply Hplain_ref. by eapply select_columns. }
  assert (∀ l, l ∈ columns other_part → plain_label l) as Hp2.
  { intros l Hl. apply Hplain_other. by eapply select_columns. }
  pose proof (merged_columns_nodup _ _ _ _ Hm Hp1 Hp2) as Hnd.
  split.
  - destruct (merge_inr _ _ _ _ _ _ Hm) as (lkey & rkey & idx & Hl & _ & _ & Hmerged).
    exists (take lkey idx.*1). apply getitem_unique; [done|].
    rw Hmerged. apply elem_of_app. left. apply list_elem_of_fmap.
    exists (operation_column, lkey). split; [|by apply get_column_elem].
    simpl. by rw rename_overlap_key.
  - intros col Hr.
    assert (has_column merged_df (col +:+ "_OTH") = true) as Ho.
    { apply (Hsuffixed col); [|done]. by rw /merge_pair Href Hoth. }
    apply has_column_true, column_of_label in Hr as [sr Hsr].
    apply has_column_true, column_of_label in Ho as [so Hso].
    destruct (merge_ref_column _ _ _ _ _ _ Hm Hp1 Hp2 Hsr)
      as (_ & _ & idx1 & x & _ & _ & _ & Hx & ->).
    destruct (merge_oth_column _ _ _ _ _ _ Hm Hp1 Hp2 Hso)
      as (_ & _ & idx2 & y & _ & _ & _ & Hy & ->).
    pose proof (select_part_numeric ref_data _ _ _ Hwf_ref Href Hx) as Hnx.
    pose proof (select_part_numeric other_data _ _ _ Hwf_other Hoth Hy) as Hny.
    destruct x as [xv|?]; [|done]. destruct y as [yv|?]; [|done].
    exists (take_vals xv idx1.*1), (take_vals yv idx2.*2).
    split; by apply getitem_unique.
Qed.

(** The body of the loop over the columns gives a result or an
    [InternalLogicWarning], nothing else. *)
Lemma compare_column_well_formed merged_df st col_name :
  merge_pair ref_data other_data operation_column = inr merged_df →
  ∃ st', compare_column operation_column (filename ref_data) (filename other_data)
           merged_df st col_name = Some st' ∧
         (st'.2 = st.2 ∨
          st'.2 = st.2 ++ [{| w_type := InternalLogicWarning;
                              w_message := internal_logic_message col_name
                                (col_name +:+ "_REF") (filename ref_data)
                                (filename other_data) |}]).
Proof.
  intros Hm. destruct (merge_pair_well_formed merged_df Hm) as [[keys Hk] Hcols].
  destruct (merge_pair_suffixed operation_column ref_data other_data
              Hplain_ref Hplain_other merged_df col_name Hm) as [Hiff _].
  rw /compare_column.
  destruct (has_column merged_df (col_name +:+ "_REF")) eqn:Hr; simpl;
    [|eexists; split; [done|by right]].
  rw (proj1 Hiff eq_refl) /=.
  destruct (Hcols col_name Hr) as (r & o & -> & ->). rw Hk.
  eexists. split; [done|by left].
Qed.

Lemma compare_columns_well_formed merged_df cols st :
  merge_pair ref_data other_data operation_column = inr merged_df →
  ∃ st', compare_columns operation_column (filename ref_data) (filename other_data)
           merged_df st cols = Some st' ∧
         ∀ w, w ∈ st'.2 → w ∈ st.2 ∨ w_type w = InternalLogicWarning.
Proof.
  intros Hm. revert st. induction cols as [|c cols IH]; intros st; simpl.
  { exists st. split; [done|]. by left. }
  destruct (compare_column_well_formed merged_df st c Hm) as (st1 & -> & Hw).
  destruct (IH st1) as (st' & -> & Hw'). exists st'. split; [done|].
  intros w [Hin|?]%Hw'; [|by right].
  destruct Hw as [Heq|Heq]; rw Heq in Hin; [by left|].
  apply elem_of_app in Hin as [?| ->%list_elem_of_singleton]; [by left|by right].
Qed.

Lemma compare_pair_well_formed st :
  ∃ st', compare_pair operation_column ref_data st other_data = Some st' ∧
         ∀ w, w ∈ st'.2 →
              w ∈ st.2 ∨ w_type w = MergeWarning ∨ w_type w = InternalLogicWarning.
Proof.
  rw /compare_pair. destruct merge_pair_succeeds as [merged_df Hm]. rw Hm.
  destruct (empty merged_df).
  - eexists. split; [done|]. simpl.
    intros w [?| ->%list_elem_of_singleton]%elem_of_app; [by left|right; by left].
  - destruct (compare_columns_well_formed merged_df (numeric_columns ref_data) st Hm)
      as (st' & -> & Hw).
    exists st'. split; [done|]. intros w [?|?]%Hw; [by left|right; by right].
Qed.

End WellFormedPairs.

Lemma compare_pairs_well_formed op ref_data others st :
  well_formed op ref_data → plain_labels ref_data →
  (∀ t, t ∈ others → well_formed op t ∧ plain_labels t) →
  ∃ st', compare_pairs op ref_data st others = Some st' ∧
         ∀ w, w ∈ st'.2 →
              w ∈ st.2 ∨ w_type w = MergeWarning ∨ w_type w = InternalLogicWarning.
Proof.
  intros Hwf Hplain. revert st. induction others as [|o others IH]; intros st Hall; simpl.
  { exists st. split; [done|]. by left. }
  destruct (Hall o) as [Hwfo Hplo]; [by left|].
  destruct (compare_pair_well_formed op ref_data o Hwf Hwfo Hplain Hplo st)
    as (st1 & -> & Hw).
  destruct (IH st1) as (st' & -> & Hw'); [intros t Ht; apply Hall; by right|].
  exists st'. split; [done|]. intros w [Hin|?]%Hw'; [|by right]. by apply Hw.
Qed.

(** A whole run on well-formed tables with plain labels. *)
Lemma compare_well_formed_tables data op :
  (∀ t, t ∈ data → well_formed op t) →
  (∀ t, t ∈ data → plain_labels t) →
  ∃ results warnings,
    perform_column_comparison data op = Some (results, warnings) ∧
    ∀ w, w ∈ warnings →
         w_type w ∈ [SetupWarning; DataWarning; MergeWarning; InternalLogicWarning].
Proof.
  intros Hwf Hplain. rw /perform_column_comparison.
  destruct data as [|ref_data [|o others]].
  - eexists _, _. split; [done|]. intros w ->%list_elem_of_singleton. by left.
  - eexists _, _. split; [done|]. intros w ->%list_elem_of_singleton. by left.
  - destruct (compare_pairs_well_formed op ref_data (o :: others)
                ([], match numeric_columns ref_data with
                     | [] => [{| w_type := DataWarning;
                                 w_message := "Reference DataFrame '" +:+ filename ref_data
                                   +:+ "' has no numeric columns to compare (excluding operation column)." |}]
                     | _ => []
                     end))
      as ([results warnings] & Hrun & Hw).
    + apply Hwf. by left.
    + apply Hplain. by left.
    + intros t Ht. split; [apply Hwf|apply Hplain]; by right.
    + exists results, warnings. split; [done|]. intros w [Hin|[->| ->]]%Hw.
      * simpl in Hin. destruct (numeric_columns ref_data); [|by apply elem_of_nil in Hin].
        apply list_elem_of_singleton in Hin as ->. right. by left.
      * do 2 right. by left.
      * do 3 right. by left.
Qed.

(** X19: tables whose key column and listed numeric columns are int64 or
    float64 columns (the numeric columns of the embedding, which has no
    bool columns), as the validator hands them on, with plain labels:
    they are compared without an exception and without a [MergeError],
    a [DataTypeWarning] or a [ColumnMissingInOtherWarning]; the only
    warnings are for a single table, for pairs without a common key and
    for columns the other table lacks. *)
Theorem well_formed_tables_compare_without_error data op :
  (∀ t, t ∈ data → well_formed op t) →
  (∀ t, t ∈ data → plain_labels t) →
  ∃ results warnings,
    perform_column_comparison data op = Some (results, warnings) ∧
    ∀ w, w ∈ warnings →
         w_type w ∈ [SetupWarning; DataWarning; MergeWarning; InternalLogicWarning].
Proof. apply compare_well_formed_tables. Qed.

(** X20: a table compared with itself, when its key values are all
    different: the stored frame has one row for each row of the joined
    keys, and the difference at a row is 0 where the cell of the row
    with that key holds a number and NaN where it holds NaN. *)
Theorem comparing_a_table_with_itself_gives_zero a b op results warnings
    col ref_name other_name frame :
  perform_column_comparison [a; b] op = Some (results, warnings) →
  dataframe b = dataframe a →
  plain_labels a →
  op ≠ "difference" →
  NoDup (key_cells (dataframe a) op) →
  ((col, ref_name, other_name), frame) ∈ results →
  ∃ keys vals diffs,
    get_column frame op = Some keys ∧
    get_column frame "difference" = Some (NumSeries diffs) ∧
    get_column (dataframe a) col = Some (NumSeries vals) ∧
    length diffs = series_len keys ∧
    ∀ p k, series_cells keys !! p = Some k →
      ∃ i, key_cells (dataframe a) op !! i = Some k ∧
           diffs !! p = Some ((λ _, 0%Z) <$> default None (vals !! i)).
Proof.
  intros Hrun Hsame Hplain Hop Hnodup Hin.
  pose (P := λ (key : result_key) (fr : DataFrame),
    ∃ keys vals diffs,
      get_column fr op = Some keys ∧
      get_column fr "difference" = Some (NumSeries diffs) ∧
      get_column (dataframe a) key.1.1 = Some (NumSeries vals) ∧
      length diffs = series_len keys ∧
      ∀ p k, series_cells keys !! p = Some k →
        ∃ i, key_cells (dataframe a) op !! i = Some k ∧
             diffs !! p = Some ((λ _, 0%Z) <$> default None (vals !! i))).
  assert (all_items P results) as Hall; [|by apply (Hall _ _ Hin)].
  apply (perform_column_comparison_inv P [a; b] op (results, warnings)); [|done].
  intros ref_data other_data merged c fr [= <-] ->%list_elem_of_singleton Hm Hc
    (keys & r & o & Hr & Ho & Hk & ->).
  assert (plain_labels b) as Hplain_b by (by rw /plain_labels Hsame).
  destruct (merge_pair_columns op a b Hplain Hplain_b merged c keys r o Hm Hr Ho Hk)
    as (lkey & rkey & idx & refcol & othcol & Hl & Hrk & Hj & -> & Hrc & Hoc & -> & ->).
  rw Hsame Hl in Hrk. injection Hrk as <-. rw Hsame Hrc in Hoc. injection Hoc as <-.
  exists (take lkey (idx.*1)), refcol,
    (sub_abs (take_vals refcol (idx.*1)) (take_vals refcol (idx.*2))).
  rw /P /frame_of_dict2 /=. destruct (decide (op = "difference")); [done|]. simpl.
  destruct (decide (op = op)); [|done]. destruct (decide (op = "difference")); [done|].
  split_and!; try done.
  { rw take_series_len. apply sub_abs_length. by rw !length_fmap. }
  intros p k Hpk.
  assert (∃ ks, series_cells lkey = ks ∧ NoDup ks ∧
                ∀ i j, (i, j) ∈ idx → ∃ k0, ks !! i = Some k0 ∧ ks !! j = Some k0) as Hkeys.
  { exists (series_cells lkey). split; [done|]. split.
    - revert Hnodup. by rw /key_cells Hl.
    - intros i j Hij.
      destruct lkey as [ks|ks]; simpl in Hj; injection Hj as <-;
        apply inner_join_indexers_elem in Hij as (k0 & Hi & Hj); simpl;
        rw !list_lookup_fmap Hi Hj; by eexists. }
  destruct Hkeys as (ks & Hks & Hnd & Hpairs).
  assert (∃ i j, idx !! p = Some (i, j) ∧ ∀ k0, ks !! i = Some k0 → k = k0) as Hrow.
  { rw -Hks. destruct lkey as [v|v]; simpl in Hpk |- *;
      rw list_lookup_fmap in Hpk;
      destruct (take_vals v (idx.*1) !! p) as [x|] eqn:Hx; try done;
      injection Hpk as <-;
      apply take_vals_lookup in Hx as (i & Hi & ->);
      rw list_lookup_fmap in Hi;
      destruct (idx !! p) as [[i' j]|]; try done; injection Hi as ->;
      exists i, j; (split; [done|]);
      rw list_lookup_fmap; destruct (v !! i); simpl; by intros k0 [= <-]. }
  destruct Hrow as (i & j & Hidx & Hki).
  destruct (Hpairs i j) as (k0 & Hi & Hj'); [by eapply list_elem_of_lookup_2|].
  rw (Hki k0 Hi).
  assert (i = j) as <- by (by eapply NoDup_lookup).
  exists i. split.
  - by rw /key_cells Hl Hks Hi.
  - rw /sub_abs lookup_zip_with.
    assert (take_vals refcol (idx.*1) !! p = Some (default None (refcol !! i))) as ->.
    { apply take_vals_lookup. exists i. by rw list_lookup_fmap Hidx. }
    assert (take_vals refcol (idx.*2) !! p = Some (default None (refcol !! i))) as ->.
    { apply take_vals_lookup. exists i. by rw list_lookup_fmap Hidx. }
    simpl. destruct (default None (refcol !! i)) as [u|]; simpl; [|done].
    do 2 f_equal. lia.
Qed.

(** *** Examples *)
Lemma test_tables_plain : ∀ t, t ∈ [file1; file2; file3] → plain_labels t.
Proof.
  intros t Hin l Hl.
  repeat (apply elem_of_cons in Hin as [->|Hin]); try (by apply elem_of_nil in Hin);
    simpl in Hl; repeat (apply elem_of_cons in Hl as [->|Hl]);
    try (by apply elem_of_nil in Hl); by apply plain_label_endswith.
Qed.

Lemma test_tables_well_formed : ∀ t, t ∈ [file1; file2; file3] → well_formed "op_col" t.
Proof.
  intros t Hin.
  repeat (apply elem_of_cons in Hin as [->|Hin]); try (by apply elem_of_nil in Hin);
    (split; [by eexists|]); intros c Hc; simpl in Hc;
    repeat (apply elem_of_cons in Hc as [->|Hc]); try (by apply elem_of_nil in Hc);
    (split; [done|by eexists]).
Qed.

Lemma run_1_2 : perform_column_comparison [file1; file2] "op_col" = Some (results_1_2, []).
Proof. vm_compute. reflexivity. Qed.

Lemma run_1_3 :
  perform_column_comparison [file1; file3] "op_col" = Some (results_1_3, [warning_val2]).
Proof. vm_compute. reflexivity. Qed.

Lemma run_1_1 :
  perform_column_comparison [file1; file1] "op_col" = Some (results_1_1, []).
Proof. vm_compute. reflexivity. Qed.

Lemma merge_1_3 : merge_pair file1 file3 "op_col" = inr merged_1_3.
Proof. vm_compute. reflexivity. Qed.

Lemma test_tables_exact : ∀ t, t ∈ [file1; file2] → exact_frame (dataframe t).
Proof.
  intros t Ht l vals x Hin Hx. rw /exact_cell.
  repeat (apply elem_of_cons in Ht as [->|Ht]); [| |by apply elem_of_nil in Ht];
    simpl in Hin;
    repeat (apply elem_of_cons in Hin as [[= _ ->]|Hin]);
    try (by apply elem_of_nil in Hin);
    simpl in Hx; repeat (apply elem_of_cons in Hx as [[= ->]|Hx]);
    try (by apply elem_of_nil in Hx); by vm_compute.
Qed.

(** X14 at the two tables of the tests and the differences 2, 2, 2 of
    [val2]. *)
Lemma differences_witness :
  perform_column_comparison [file1; file2] "op_col" = Some (results_1_2, []) ∧
  (∀ t, t ∈ [file1; file2] → exact_frame (dataframe t)) ∧
  (("val2", "file1.csv", "file2.csv"),
   [("op_col", nums [1; 2; 3]); ("difference", nums [2; 2; 2])]%Z) ∈ results_1_2 ∧
  ∃ diffs, nums [2; 2; 2]%Z = NumSeries diffs ∧
           ∀ x, Some x ∈ diffs → (0 ≤ x ≤ 2 ^ 53)%Z.
Proof.
  assert ((("val2", "file1.csv", "file2.csv"),
           [("op_col", nums [1; 2; 3]); ("difference", nums [2; 2; 2])]%Z) ∈ results_1_2)
    as Hin by (right; by left).
  refine (conj run_1_2 (conj test_tables_exact (conj Hin _))).
  exact (differences_are_never_negative _ _ _ _ _ _ _ run_1_2 test_tables_exact Hin eq_refl).
Defined.

(** X15 at the two tables of the tests: the differences 1, 2, 3 of
    [val1] at the keys 1, 2, 3. *)
Lemma sound_differences_witness :
  perform_column_comparison [file1; file2] "op_col" = Some (results_1_2, []) ∧
  "op_col" ≠ "difference" ∧
  (∀ t l, t ∈ [file1; file2] → l ∈ columns (dataframe t) → plain_label l) ∧
  (∀ t, t ∈ [file1; file2] → exact_frame (dataframe t)) ∧
  ∃ keys refcol othcol,
    get_column [("op_col", nums [1; 2; 3]); ("difference", nums [1; 2; 3])]%Z "op_col"
    = Some keys ∧
    get_column (dataframe file1) "val1" = Some (NumSeries refcol) ∧
    get_column (dataframe file2) "val1" = Some (NumSeries othcol) ∧
    ∀ p k d, series_cells keys !! p = Some k →
             map Some [1; 2; 3]%Z !! p = Some d →
             ∃ i j, key_cells (dataframe file1) "op_col" !! i = Some k ∧
                    key_cells (dataframe file2) "op_col" !! j = Some k ∧
                    d = abs_diff (default None (refcol !! i)) (default None (othcol !! j)) ∧
                    ∀ x, d = Some x → (0 ≤ x ≤ 2 ^ 53)%Z.
Proof.
  assert ("op_col" ≠ "difference") as Hop by done.
  assert (∀ t l, t ∈ [file1; file2] → l ∈ columns (dataframe t) → plain_label l) as Hplain.
  { intros t l Ht. apply (test_tables_plain t).
    apply elem_of_cons in Ht as [->|Ht]; [by left|]. right.
    apply list_elem_of_singleton in Ht as ->. by left. }
  refine (conj run_1_2 (conj Hop (conj Hplain (conj test_tables_exact _)))).
  destruct (plain_labels_give_exact_differences [file1; file2] "op_col" results_1_2 []
              "val1" "file1.csv" "file2.csv"
              [("op_col", nums [1; 2; 3]); ("difference", nums [1; 2; 3])]%Z
              run_1_2 ltac:(by left) Hop Hplain test_tables_exact)
    as (r & o & keys & diffs & refcol & othcol & Hhead & Hother & _ & _ & Hk & Hd & Hr & Ho
        & _ & Hrows).
  injection Hhead as <-. apply list_elem_of_singleton in Hother as ->.
  injection Hd as <-.
  by exists keys, refcol, othcol.
Defined.

(** X16 at the first and the third table of the tests: the warning for
    [val2] has another type. *)
Lemma column_missing_witness :
  perform_column_comparison [file1; file3] "op_col" = Some (results_1_3, [warning_val2]) ∧
  (∀ t, t ∈ [file1; file3] → plain_labels t) ∧
  warning_val2 ∈ [warning_val2] ∧
  w_type warning_val2 ≠ ColumnMissingInOtherWarning.
Proof.
  assert (∀ t, t ∈ [file1; file3] → plain_labels t) as Hplain.
  { intros t Ht. apply test_tables_plain.
    apply elem_of_cons in Ht as [->|Ht]; [by left|]. right. right.
    apply list_elem_of_singleton in Ht as ->. by left. }
  assert (warning_val2 ∈ [warning_val2]) as Hin by (by left).
  refine (conj run_1_3 (conj Hplain (conj Hin _))).
  exact (column_missing_warning_is_never_given _ _ _ _ _ run_1_3 Hplain Hin).
Defined.

(** X17 at the first and the third table of the tests, where the third
    lacks [val2]. *)
Lemma unmatched_column_witness :
  perform_column_comparison [file1; file3] "op_col" = Some (results_1_3, [warning_val2]) ∧
  (∀ t, t ∈ [file1; file3] → plain_labels t) ∧
  merge_pair file1 file3 "op_col" = inr merged_1_3 ∧ empty merged_1_3 = false ∧
  "val2" ∈ numeric_columns file1 ∧ ("val2" ∉ numeric_columns file3) ∧
  {| w_type := InternalLogicWarning;
     w_message := internal_logic_message "val2" "val2_REF" "file1.csv" "file3.csv" |}
    ∈ [warning_val2].
Proof.
  assert (∀ t, t ∈ [file1; file3] → plain_labels t) as Hplain.
  { intros t Ht. apply test_tables_plain.
    apply elem_of_cons in Ht as [->|Ht]; [by left|]. right. right.
    apply list_elem_of_singleton in Ht as ->. by left. }
  assert ("val2" ∈ numeric_columns file1) as Hcol by (right; by left).
  assert ("val2" ∉ numeric_columns file3) as Hnot.
  { by intros [?|?%elem_of_nil]%elem_of_cons. }
  refine (conj run_1_3 (conj Hplain (conj merge_1_3 (conj eq_refl (conj Hcol (conj Hnot _)))))).
  exact (unmatched_column_gets_internal_logic_warning [file1; file3] "op_col" _ _
           file1 file3 merged_1_3 "val2" run_1_3 Hplain eq_refl ltac:(by left)
           merge_1_3 eq_refl Hcol Hnot).
Defined.

(** X18 at the first and the third table of the tests: [val1] has a
    result and [val2] a warning. *)
Lemma accounted_witness :
  perform_column_comparison [file1; file3] "op_col" = Some (results_1_3, [warning_val2]) ∧
  ((∃ w, w ∈ [warning_val2] ∧ w_type w ∈ [MergeError; MergeWarning] ∧
         pair_messages "op_col" file1 file3 (w_message w)) ∨
   ∀ col_name, col_name ∈ numeric_columns file1 →
     (col_name, "file1.csv", "file3.csv") ∈ results_1_3.*1 ∨
     ∃ w, w ∈ [warning_val2] ∧
          w_type w ∈ [InternalLogicWarning; ColumnMissingInOtherWarning; DataTypeWarning] ∧
          column_messages file1 file3 col_name (w_message w)).
Proof.
  refine (conj run_1_3 _).
  exact (every_column_is_accounted_for [file1; file3] "op_col" _ _ file1 file3
           run_1_3 eq_refl ltac:(by left)).
Defined.

(** X19 at the three tables of the tests. *)
Lemma well_formed_tables_witness :
  (∀ t, t ∈ [file1; file2; file3] → well_formed "op_col" t) ∧
  (∀ t, t ∈ [file1; file2; file3] → plain_labels t) ∧
  ∃ results warnings,
    perform_column_comparison [file1; file2; file3] "op_col" = Some (results, warnings) ∧
    ∀ w, w ∈ warnings →
         w_type w ∈ [SetupWarning; DataWarning; MergeWarning; InternalLogicWarning].
Proof.
  refine (conj test_tables_well_formed (conj test_tables_plain _)).
  exact (well_formed_tables_compare_without_error [file1; file2; file3] "op_col"
           test_tables_well_formed test_tables_plain).
Defined.

Lemma run_nan :
  perform_column_comparison [with_nan; with_nan] "op_col" = Some (results_nan, []).
Proof. vm_compute. reflexivity. Qed.

(** X20 at a table with the cells 7 and NaN, compared with itself: the
    differences are 0 and NaN. *)
Lemma self_comparison_witness :
  perform_column_comparison [with_nan; with_nan] "op_col" = Some (results_nan, []) ∧
  plain_labels with_nan ∧ "op_col" ≠ "difference" ∧
  NoDup (key_cells (dataframe with_nan) "op_col") ∧
  ∃ keys vals diffs,
    keys = nums [1; 2]%Z ∧ vals = [Some 7; None]%Z ∧ diffs = [Some 0; None]%Z ∧
    ∀ p k, series_cells keys !! p = Some k →
      ∃ i, key_cells (dataframe with_nan) "op_col" !! i = Some k ∧
           diffs !! p = Some ((λ _, 0%Z) <$> default None (vals !! i)).
Proof.
  assert (plain_labels with_nan) as Hplain.
  { intros l Hl. simpl in Hl. repeat (apply elem_of_cons in Hl as [->|Hl]);
      try (by apply elem_of_nil in Hl); by apply plain_label_endswith. }
  assert ("op_col" ≠ "difference") as Hop by done.
  assert (NoDup (key_cells (dataframe with_nan) "op_col")) as Hnd.
  { apply (bool_decide_unpack _). by vm_compute. }
  refine (conj run_nan (conj Hplain (conj Hop (conj Hnd _)))).
  destruct (comparing_a_table_with_itself_gives_zero with_nan with_nan "op_col" results_nan []
              "val1" "with_nan.csv" "with_nan.csv"
              [("op_col", nums [1; 2]%Z); ("difference", NumSeries [Some 0; None]%Z)]
              run_nan eq_refl Hplain Hop Hnd ltac:(by left))
    as (keys & vals & diffs & Hk & Hd & Hv & _ & Hrows).
  injection Hk as <-. injection Hd as <-. injection Hv as <-.
  by exists (nums [1; 2]%Z), [Some 7; None]%Z, [Some 0; None]%Z.
Defined.

End ComparisonOutcomes.

(** ** The workbook of the report *)
Module WorkbookProofs.
Import Pandas Parser Comparison ComparisonExamples ComparisonRules Report Workbook
  WorkbookExamples ComparisonProofs ReportProofs.

Section Strings.

Lemma length_map_chars f (s : string) : String.length (map_chars f s) = String.length s.
Proof. induction s as [|c s IH]; simpl; [done|]. by rw IH. Qed.

Lemma length_take_string n (s : string) :
  String.length (take_string n s) = Nat.min n (String.length s).
Proof.
  revert s. induction n as [|n IH]; intros [|c s]; simpl; try done. by rw IH.
Qed.

Lemma chars_append (a b : string) :
  list_ascii_of_string (a +:+ b) = list_ascii_of_string a ++ list_ascii_of_string b.
Proof. induction a as [|c a IH]; [done|]. rw append_cons /=. by rw IH. Qed.

Lemma chars_map_chars f (s : string) :
  list_ascii_of_string (map_chars f s) = map f (list_ascii_of_string s).
Proof. induction s as [|c s IH]; simpl; [done|]. by rw IH. Qed.

Lemma chars_take_string n (s : string) :
  list_ascii_of_string (take_string n s) = firstn n (list_ascii_of_string s).
Proof.
  revert s. induction n as [|n IH]; intros [|c s]; simpl; try done. by rw IH.
Qed.

End Strings.

Lemma isascii_chars (s : string) c :
  isascii s = true → c ∈ list_ascii_of_string s → (nat_of_ascii c < 128)%nat.
Proof.
  rw /isascii forallb_forall. intros Hall Hc. apply Nat.ltb_lt, Hall.
  by apply list_elem_of_In.
Qed.

(** X21: for an ASCII file name, the name of the sheet is ASCII, has at
    most 31 characters, each a letter, a digit or an underscore, and a
    letter or a digit of the file name stays in its place; the name of a
    file of at most 31 characters keeps its length. *)
Theorem sheet_names_fit_excel (original_filename : string) :
  isascii original_filename = true →
  isascii (safe_sheet_name original_filename) = true ∧
  (String.length (safe_sheet_name original_filename) ≤ 31)%nat ∧
  (∀ c, c ∈ list_ascii_of_string (safe_sheet_name original_filename) →
        isalnum c = true ∨ c = "_"%char) ∧
  (∀ i c, (i < 27)%nat → list_ascii_of_string original_filename !! i = Some c →
          list_ascii_of_string (safe_sheet_name original_filename) !! i
          = Some (if isalnum c then c else "_"%char)) ∧
  ((String.length original_filename ≤ 31)%nat →
   String.length (safe_sheet_name original_filename) = String.length original_filename).
Proof.
  intros Hascii.
  assert (∀ c, c ∈ list_ascii_of_string (safe_sheet_name original_filename) →
               isalnum c = true ∨ c = "_"%char) as Hchars.
  { rw /safe_sheet_name. cbv zeta.
    set (safe := map_chars _ original_filename).
    assert (∀ c, c ∈ list_ascii_of_string safe → isalnum c = true ∨ c = "_"%char) as Hsafe.
    { intros c. rw /safe chars_map_chars. intros (c0 & -> & _)%list_elem_of_fmap.
      destruct (isalnum c0) eqn:Hc; [by left|by right]. }
    destruct (31 <? String.length safe)%nat; [|done].
    intros c. rw chars_append chars_take_string.
    intros [Hc%subseteq_take|Hc]%elem_of_app; [by apply Hsafe|].
    simpl in Hc. repeat (apply elem_of_cons in Hc as [->|Hc]); try by left.
    - by right.
    - by apply elem_of_nil in Hc. }
  split_and!; [|clear Hchars|done|clear Hchars|clear Hchars].
  - rw /isascii forallb_forall. intros c Hc%list_elem_of_In. apply Nat.ltb_lt.
    destruct (Hchars c Hc) as [Hal| ->]; [|vm_compute; lia].
    revert Hal. rw /isalnum. cbv zeta. rw !orb_true_iff !andb_true_iff !Nat.leb_le. lia.
  - rw /safe_sheet_name. cbv zeta. set (safe := map_chars _ original_filename).
    destruct (31 <? String.length safe)%nat eqn:Hlong.
    + rw length_append length_take_string.
      change (String.length "_etc") with 4. lia.
    + by apply Nat.ltb_ge in Hlong.
  - intros i c Hi Hc. rw /safe_sheet_name. cbv zeta.
    set (safe := map_chars _ original_filename).
    assert (list_ascii_of_string safe !! i = Some (if isalnum c then c else "_"%char))
      as Hsafe.
    { rw /safe chars_map_chars. change (map ?f ?l) with (f <$> l).
      by rw list_lookup_fmap Hc. }
    destruct (31 <? String.length safe)%nat; [|done].
    rw chars_append chars_take_string lookup_app_l.
    { rw length_take. apply lookup_lt_Some in Hsafe. lia. }
    by rw lookup_take_lt.
  - rw /safe_sheet_name. cbv zeta. set (safe := map_chars _ original_filename).
    assert (String.length safe = String.length original_filename) as Hlen.
    { apply length_map_chars. }
    destruct (31 <? String.length safe)%nat eqn:Hlong; [|done].
    apply Nat.ltb_lt in Hlong. lia.
Qed.

Section Sheets.
Variables (highlight_map : HighlightSet) (operation_column : string).

Lemma row_get_row_at (df : DataFrame) i keys :
  get_column df operation_column = Some keys →
  row_get (row_at df i) operation_column
  = Some (default (inr None) (series_cells keys !! i)).
Proof.
  rw /row_at. induction df as [|[c s] df IH]; simpl; [done|].
  destruct (decide (c = operation_column)); [by intros [= ->]|done].
Qed.

Lemma length_row_at (df : DataFrame) i : length (row_at df i) = ncols df.
Proof. by rw /row_at length_map. Qed.

Lemma is_yellow_replicate n (s : string) :
  is_yellow (replicate n s) = bool_decide ((0 < n)%nat ∧ s = yellow).
Proof.
  rw /is_yellow length_replicate. apply bool_decide_ext. split.
  - intros [Hne Heq]. destruct n as [|n]; [done|]. split; [lia|].
    simpl in Heq. by injection Heq.
  - intros [Hpos ->]. split; [|done]. destruct n; [lia|done].
Qed.

(** One row of the sheet of a table: it is yellow when the file and the
    key value of the row are in the highlight set. *)
Lemma highlight_row_yellow (df : DataFrame) fname i keys k :
  get_column df operation_column = Some keys →
  series_cells keys !! i = Some k →
  is_yellow (highlight_excel_rows (row_at df i) fname operation_column highlight_map)
  = in_highlight_map fname k highlight_map.
Proof.
  intros Hk Hi. rw /highlight_excel_rows (row_get_row_at df i keys Hk) Hi /=.
  rw length_row_at.
  assert (0 < ncols df)%nat as Hpos.
  { destruct df; [done|]. simpl. lia. }
  destruct (in_highlight_map fname k highlight_map); rw is_yellow_replicate.
  - by apply bool_decide_eq_true_2.
  - apply bool_decide_eq_false_2. by intros [_ ?].
Qed.

(** A value that is not missing is looked up by its value. *)
Lemma in_highlight_map_present fname k :
  is_missing k = false →
  in_highlight_map fname k highlight_map = bool_decide ((fname, k) ∈ highlight_map).
Proof. by destruct k as [[?|]|[?|]]. Qed.

Lemma series_cells_length (s : Series) : length (series_cells s) = series_len s.
Proof. destruct s; simpl; by rw length_map. Qed.

Lemma length_filter_seq {A B} (P : A → Prop) `{!∀ x, Decision (P x)}
    (Q : B → Prop) `{!∀ y, Decision (Q y)} (h : nat → B) (l : list A) n :
  (∀ i x, l !! i = Some x → (Q (h (n + i)) ↔ P x)) →
  length (filter Q (map h (seq n (length l)))) = length (filter P l).
Proof.
  revert n. induction l as [|x l IH]; intros n Hiff; [done|].
  simpl. rw !filter_cons.
  pose proof (Hiff 0 x eq_refl) as Hhead. rw Nat.add_0_r in Hhead.
  assert (length (filter Q (map h (seq (S n) (length l)))) = length (filter P l)) as Hrest.
  { apply IH. intros i y Hi. rw -(Hiff (S i) y Hi). by rw Nat.add_succ_r. }
  destruct (decide (Q (h n))) as [Hq|Hq], (decide (P x)) as [Hp|Hp]; simpl;
    try by rw Hrest.
  - by destruct Hp; apply Hhead.
  - by destruct Hq; apply Hhead.
Qed.

(** The count of the summary is the number of yellow rows of the
    sheet. *)
Lemma highlight_count_yellow_rows (df_data : ValidatedData) :
  has_column (dataframe df_data) operation_column = true →
  rectangular (dataframe df_data) →
  highlight_count highlight_map operation_column df_data
  = filename df_data +:+ ": "
    +:+ pretty (yellow_rows (table_sheet highlight_map operation_column df_data)).
Proof.
  intros Hhas Hrect. rw /highlight_count /yellow_rows /table_sheet /= Hhas /=.
  destruct (proj2 (get_column_columns (dataframe df_data) operation_column))
    as [keys Hk]; [by apply has_column_true|].
  rw Hk. do 3 f_equal. rw /iterrows.
  assert (nrows (dataframe df_data) = length (series_cells keys)) as ->.
  { rw series_cells_length. symmetry. eapply Hrect. by apply get_column_elem. }
  rw map_map. symmetry. apply length_filter_seq. intros i k Hi. simpl.
  by rw (highlight_row_yellow _ _ _ _ _ Hk Hi).
Qed.

End Sheets.

(** X22: the summary agrees with the sheets: for tables that have the key
    column, the entry of a table in [Total Highlighted Rows per File]
    is its name with the number of rows that are yellow in its sheet. *)
Theorem summary_counts_the_yellow_rows validated results op threshold base folder
    timestamp path (wb : Workbook) :
  generate_excel_output validated results op threshold base folder timestamp
  = Some (path, wb) →
  (∀ t, t ∈ validated →
        has_column (dataframe t) op = true ∧ rectangular (dataframe t)) →
  validated ≠ [] →
  highlighted_rows (summary wb)
  = join "; " (zip_with (λ t sheet, filename t +:+ ": " +:+ pretty (yellow_rows sheet))
                        validated (sheets wb)).
Proof.
  rw /generate_excel_output. cbv zeta.
  destruct (rows_to_highlight_map results op threshold) as [hl|]; [|done].
  intros [= _ <-] Hall Hne. simpl.
  assert (map (highlight_count hl op) validated
          = zip_with (λ t sheet, filename t +:+ ": " +:+ pretty (yellow_rows sheet))
                     validated (map (table_sheet hl op) validated)) as ->.
  { clear Hne. induction validated as [|t ts IH]; [done|]. simpl.
    destruct (Hall t) as [Hhas Hrect]; [by left|].
    rw (highlight_count_yellow_rows hl op t Hhas Hrect). f_equal.
    apply IH. intros t' Ht'. apply Hall. by right. }
  destruct validated as [|t ts]; [done|]. done.
Qed.

(** X23: which rows are yellow: the call of [to_excel] for a table
    that has the key column is made with the frame of the table and one
    style for each row, the style [highlight_excel_rows] gives it.  The
    style is yellow in all its cells or empty in all of them; for a row
    whose key is not missing it is yellow exactly when some stored
    series that names the file of the table has an entry with the key
    value of the row and an absolute difference above the threshold.  A
    row with a NaN key in a numeric key column is never yellow. *)
Theorem yellow_rows_are_the_exceeding_rows validated results op threshold base folder
    timestamp path (wb : Workbook) (n : nat) (t : ValidatedData) keys i k :
  generate_excel_output validated results op threshold base folder timestamp
  = Some (path, wb) →
  validated !! n = Some t →
  get_column (dataframe t) op = Some keys →
  rectangular (dataframe t) →
  series_cells keys !! i = Some k →
  ∃ sheet styles style,
    sheets wb !! n = Some sheet ∧
    sheet_frame sheet = dataframe t ∧
    sheet_styles sheet = Some styles ∧ styles !! i = Some style ∧
    length style = ncols (dataframe t) ∧
    (style = replicate (ncols (dataframe t)) yellow ∨
     style = replicate (ncols (dataframe t)) EmptyString) ∧
    (k = inl None → style = replicate (ncols (dataframe t)) EmptyString) ∧
    (is_missing k = false →
     (style = replicate (ncols (dataframe t)) yellow ↔
      ∃ col_name ref_filename other_filename diff_df,
        ((col_name, ref_filename, other_filename), diff_df) ∈ results ∧
        exceeding_row op threshold diff_df k ∧
        (filename t = ref_filename ∨ filename t = other_filename))).
Proof.
  rw /generate_excel_output. cbv zeta.
  destruct (rows_to_highlight_map results op threshold) as [hl|] eqn:Hhl; [|done].
  intros [= _ <-] Hin Hk Hrect Hi. simpl.
  assert (has_column (dataframe t) op = true) as Hhas.
  { apply has_column_true, get_column_columns. by eexists. }
  assert (i < nrows (dataframe t))%nat as Hlt.
  { rw -(Hrect op keys); [by apply get_column_elem|].
    rw -series_cells_length. by eapply lookup_lt_Some. }
  assert (0 < ncols (dataframe t))%nat as Hpos.
  { destruct (dataframe t); [done|]. simpl. lia. }
  exists (table_sheet hl op t).
  eexists _, (highlight_excel_rows (row_at (dataframe t) i) (filename t) op hl).
  split_and!; try done.
  - change (map ?f validated) with (f <$> validated). by rw list_lookup_fmap Hin.
  - by rw /table_sheet /= Hhas.
  - rw /iterrows. change (map ?f (map ?g ?l)) with (f <$> (g <$> l)).
    rw !list_lookup_fmap lookup_seq_lt //.
  - rw /highlight_excel_rows. destruct (row_get _ _); [destruct (in_highlight_map _ _ _)|];
      by rw length_replicate length_row_at.
  - rw /highlight_excel_rows length_row_at.
    destruct (row_get _ _); [destruct (in_highlight_map _ _ _)|]; by [left|right].
  - intros ->.
    by rw /highlight_excel_rows (row_get_row_at op (dataframe t) i keys Hk) Hi /=
          length_row_at.
  - intros Hpresent.
    rw /highlight_excel_rows (row_get_row_at op (dataframe t) i keys Hk) Hi /=.
    rw length_row_at (in_highlight_map_present hl (filename t) k Hpresent).
    rw /rows_to_highlight_map in Hhl.
    pose proof (highlight_entries_spec op threshold results ∅ hl Hhl (filename t) k) as Hspec.
    case_bool_decide as Hmem.
    + split; [intros _|done].
      apply Hspec in Hmem as [?%not_elem_of_empty|?]; done.
    + split.
      * intros Heq. destruct (ncols (dataframe t)); [lia|]. by injection Heq.
      * intros Hex. destruct Hmem. apply Hspec. by right.
Qed.

(** X24: the entry [Compared Columns] of the summary: N/A when there is no
    result; otherwise the compared columns, each once, in ascending
    order, joined by commas. *)
Theorem compared_columns_are_listed_once_in_order validated results op threshold base
    folder timestamp path (wb : Workbook) :
  generate_excel_output validated results op threshold base folder timestamp
  = Some (path, wb) →
  ∃ cols,
    compared_columns (summary wb)
    = (match results with [] => "N/A" | _ => join ", " cols end) ∧
    Sorted String.le cols ∧ NoDup cols ∧
    ∀ c, c ∈ cols ↔ ∃ ref_filename other_filename diff_df,
                      ((c, ref_filename, other_filename), diff_df) ∈ results.
Proof.
  rw /generate_excel_output. cbv zeta.
  destruct (rows_to_highlight_map results op threshold) as [hl|]; [|done].
  intros [= _ <-]. simpl.
  exists (sorted (list_set (map (λ entry : result_key * DataFrame, entry.1.1.1) results))).
  split_and!.
  - destruct results as [|e es]; [done|].
    destruct (list_set _) as [|c cs] eqn:Hset; [|done].
    assert (e.1.1.1 ∈ list_set (map (λ entry : result_key * DataFrame, entry.1.1.1)
                                   (e :: es))) as Hmem.
    { apply elem_of_remove_dups. by left. }
    rw Hset in Hmem. by apply elem_of_nil in Hmem.
  - apply Sorted_merge_sort, _.
  - rw /sorted merge_sort_Permutation. apply NoDup_remove_dups.
  - intros c. rw /sorted merge_sort_Permutation /list_set elem_of_remove_dups.
    change (map ?f results) with (f <$> results). rw list_elem_of_fmap. split.
    + intros ([[[c' r] o] df] & -> & Hin). by exists r, o, df.
    + intros (r & o & df & Hin). by exists (c, r, o, df).
Qed.

Lemma test_tables_rectangular t : t ∈ [file1; file2] → rectangular (dataframe t).
Proof.
  intros Ht l s Hin.
  repeat (apply elem_of_cons in Ht as [->|Ht]); [| |by apply elem_of_nil in Ht];
    simpl in Hin;
    repeat (apply elem_of_cons in Hin as [[= _ ->]|Hin]); try reflexivity;
    by apply elem_of_nil in Hin.
Qed.

(** X22 at the report of the two test tables at threshold 5, where only the
    difference 10 at key 1 exceeds: one yellow row in each sheet, and the
    summary says so. *)
Lemma summary_counts_witness :
  ∃ path wb,
    report_1_2 = Some (path, wb) ∧
    path = "processed/comparison_report_20240101_120000.xlsx" ∧
    map yellow_rows (sheets wb) = [1; 1] ∧
    highlighted_rows (summary wb) = "file1.csv: 1; file2.csv: 1" ∧
    highlighted_rows (summary wb)
    = join "; " (zip_with (λ t sheet, filename t +:+ ": " +:+ pretty (yellow_rows sheet))
                          [file1; file2] (sheets wb)).
Proof.
  destruct report_1_2 as [[path wb]|] eqn:Hgen; [|by vm_compute in Hgen].
  assert (fst <$> report_1_2
          = Some "processed/comparison_report_20240101_120000.xlsx") as Hpath.
  { by vm_compute. }
  assert (map yellow_rows ∘ sheets ∘ snd <$> report_1_2 = Some [1; 1]) as Hrows.
  { by vm_compute. }
  assert (highlighted_rows ∘ summary ∘ snd <$> report_1_2
          = Some "file1.csv: 1; file2.csv: 1") as Hsum.
  { by vm_compute. }
  rw Hgen in Hpath. rw Hgen in Hrows. rw Hgen in Hsum.
  apply (inj Some) in Hpath, Hrows, Hsum.
  exists path, wb. split_and!; [done..|].
  apply (summary_counts_the_yellow_rows [file1; file2] sample_results "op_col" 5
           "comparison_report" "processed" "20240101_120000" path wb Hgen); [|done].
  intros t Ht. split; [|by apply test_tables_rectangular].
  repeat (apply elem_of_cons in Ht as [->|Ht]); [done..|by apply elem_of_nil in Ht].
Defined.

(** X23 at the first row of the first test table, with key 1: its style is
    yellow in all three cells, for the difference 10 of [val1] against
    the second table at threshold 5. *)
Lemma yellow_rows_witness :
  ∃ path wb,
    report_1_2 = Some (path, wb) ∧
    ∃ sheet styles style,
      sheets wb !! 0 = Some sheet ∧ sheet_frame sheet = dataframe file1 ∧
      sheet_styles sheet = Some styles ∧ styles !! 0 = Some style ∧
      style = [yellow; yellow; yellow] ∧
      ∃ col_name ref_filename other_filename diff_df,
        ((col_name, ref_filename, other_filename), diff_df) ∈ sample_results ∧
        exceeding_row "op_col" 5 diff_df (inl (Some 1%Z)) ∧
        ("file1.csv" = ref_filename ∨ "file1.csv" = other_filename).
Proof.
  destruct report_1_2 as [[path wb]|] eqn:Hgen; [|by vm_compute in Hgen].
  exists path, wb. split; [done|].
  destruct (yellow_rows_are_the_exceeding_rows [file1; file2] sample_results "op_col" 5
              "comparison_report" "processed" "20240101_120000" path wb 0 file1
              (nums [1; 2; 3; 4]%Z) 0 (inl (Some 1%Z)) Hgen)
    as (sheet & styles & style & Hin & Hframe & Hstyles & Hrow & _ & _ & _ & Hiff);
    [done|done|apply test_tables_rectangular; by left|done|].
  specialize (Hiff eq_refl).
  assert (style = [yellow; yellow; yellow]) as Hyellow.
  { apply Hiff.
    exists "val1", "file1.csv", "file2.csv",
      [("op_col", nums [1; 2; 3]); ("difference", nums [10; 5; 1])]%Z.
    split_and!; [by left| |by left].
    exists (map Some [10; 5; 1]%Z), (nums [1; 2; 3]%Z), 0, 10%Z.
    split_and!; [reflexivity..|lia|reflexivity]. }
  exists sheet, styles, style. split_and!; [done..|].
  by apply Hiff.
Defined.

(** X24 at the report of the comparison of the two test tables, which compares
    [val1] and [val2]: the summary lists the two columns. *)
Lemma compared_columns_witness :
  ∃ path wb,
    report_two_columns = Some (path, wb) ∧
    compared_columns (summary wb) = "val1, val2" ∧
    ∃ cols,
      compared_columns (summary wb) = join ", " cols ∧
      Sorted String.le cols ∧ NoDup cols ∧
      ∀ c, c ∈ cols ↔ ∃ ref_filename other_filename diff_df,
                        ((c, ref_filename, other_filename), diff_df) ∈ results_1_2.
Proof.
  destruct report_two_columns as [[path wb]|] eqn:Hgen; [|by vm_compute in Hgen].
  assert (compared_columns ∘ summary ∘ snd <$> report_two_columns = Some "val1, val2")
    as Hcols.
  { by vm_compute. }
  rw Hgen in Hcols. apply (inj Some) in Hcols.
  exists path, wb. split_and!; [done..|].
  apply (compared_columns_are_listed_once_in_order [file1; file2] results_1_2 "op_col" 2
           "comparison_report" "processed" "20240101_120000" path wb Hgen).
Defined.

(** X21 at a file name of 44 characters with spaces, brackets and a
    dot. *)
Lemma sheet_names_witness :
  isascii "a very long file name (2024) with spaces.csv" = true ∧
  safe_sheet_name "a very long file name (2024) with spaces.csv"
  = "a_very_long_file_name__2024_etc" ∧
  isascii (safe_sheet_name "a very long file name (2024) with spaces.csv") = true ∧
  (String.length (safe_sheet_name "a very long file name (2024) with spaces.csv") ≤ 31)%nat.
Proof.
  assert (isascii "a very long file name (2024) with spaces.csv" = true) as Hascii.
  { reflexivity. }
  destruct (sheet_names_fit_excel "a very long file name (2024) with spaces.csv" Hascii)
    as (Hout & Hlen & _).
  split_and!; [done|reflexivity|exact Hout|exact Hlen].
Defined.

End WorkbookProofs.

(** ** From one step to the next *)
Module PipelineProofs.
Import Pandas Parser Validator Comparison Report Workbook Pipeline.
Import ValidatorRules ComparisonExamples ComparisonRules.
Import ComparisonProofs ValidatorProofs ReportProofs TextProofs ValidatorOutcomes
  ComparisonOutcomes.

Section HandOver.
Variable numeric_of_string : string → option Z.
Local Abbreviation validate := (validate_dataframes_for_processing numeric_of_string).
Local Abbreviation coerced := (Validator.coerced numeric_of_string).
Local Abbreviation diagnostic := (ValidatorRules.diagnostic numeric_of_string).

(** The frame of a table that is handed on. *)
Lemma coerced_well_formed df op :
  diagnostic df op = None →
  (∃ keys, get_column (coerced df op) op = Some (NumSeries keys)) ∧
  ∀ c, c ∈ numeric_cols df op →
       c ≠ op ∧ ∃ vals, get_column (coerced df op) c = Some (NumSeries vals).
Proof.
  intros (Hhas & Hna & _)%diagnostic_none. split.
  - rw /Validator.coerced /key_column.
    destruct (proj2 (get_column_columns df op)) as [s Hs]; [by apply has_column_true|].
    rw Hs /=. destruct s as [keys|vals]; simpl; [by exists keys|].
    rw get_column_setitem. by eexists.
  - intros c [Hne [vals Hvals]]%numeric_cols_elem. split; [done|]. exists vals.
    rw /Validator.coerced. destruct (is_numeric_dtype _); [done|].
    by rw get_column_setitem_ne.
Qed.

(** The validated items, read through the store of the result. *)
Lemma validated_items_well_formed items op h t :
  (∀ item, item ∈ items → Validator.dataframe item ∈ dom h) →
  (∀ item l, item ∈ items → l ∈ columns (h !!! Validator.dataframe item) →
             plain_label l) →
  t ∈ map (validated_data (validate items op h).2) (validate items op h).1.1 →
  well_formed op t ∧ plain_labels t.
Proof.
  intros Hdom Hplain.
  destruct (validate_items_outcomes numeric_of_string items op [] [] h h Hdom)
    as (_ & new_vs & Hvs & Hall); [done|].
  change (validate_items numeric_of_string items op [] [] h) with (validate items op h)
    in Hvs, Hall.
  rw Hvs /=. change (map ?f ?l) with (f <$> l).
  intros (v & -> & [i Hi]%list_elem_of_lookup)%list_elem_of_fmap.
  destruct (Forall2_lookup_r _ _ _ _ _ Hall Hi) as (item & Hitem & _ & Hcols & Hframe).
  apply list_elem_of_lookup_2, list_elem_of_filter in Hitem as [Hdiag Hitem].
  rw /validated_data /well_formed /plain_labels /=.
  rw (lookup_total_correct _ _ _ Hframe) Hcols.
  split; [by apply coerced_well_formed|].
  intros l. rw columns_coerced; [by apply diagnostic_none in Hdiag as [? _]|].
  by apply Hplain.
Qed.

End HandOver.

(** X25: what the validator hands on, the comparison takes: for tables
    of int64, float64 and object columns (the columns of the embedding,
    which has no bool columns) whose labels do not end in a merge
    suffix, the comparison of the validated items returns, and its
    warnings are for a single table, for a reference without numeric
    columns, for pairs without a common key and for columns the other
    table lacks. *)
Theorem validated_tables_are_compared numeric_of_string (items : list Item)
    (op : string) (h : Heap) :
  (∀ item, item ∈ items → Validator.dataframe item ∈ dom h) →
  (∀ item l, item ∈ items → l ∈ columns (h !!! Validator.dataframe item) →
             plain_label l) →
  let r := validate_dataframes_for_processing numeric_of_string items op h in
  ∃ results warnings,
    perform_column_comparison (map (validated_data r.2) r.1.1) op
    = Some (results, warnings) ∧
    ∀ w, w ∈ warnings →
         w_type w ∈ [SetupWarning; DataWarning; MergeWarning; InternalLogicWarning].
Proof.
  intros Hdom Hplain r.
  apply compare_well_formed_tables; intros t Ht;
    by destruct (validated_items_well_formed numeric_of_string items op h t Hdom Hplain Ht).
Qed.

(** The keys of the results name the first table and one of the
    others. *)
Lemma result_keys_name_tables data op results warnings col ref_name other_name frame :
  perform_column_comparison data op = Some (results, warnings) →
  ((col, ref_name, other_name), frame) ∈ results →
  ∃ ref_data other_data,
    head data = Some ref_data ∧ other_data ∈ tail data ∧
    Comparison.filename ref_data = ref_name ∧ Comparison.filename other_data = other_name.
Proof.
  intros Hrun Hin.
  pose (P := λ (key : result_key) (_ : DataFrame),
    ∃ ref_data other_data,
      head data = Some ref_data ∧ other_data ∈ tail data ∧
      Comparison.filename ref_data = key.1.2 ∧ Comparison.filename other_data = key.2).
  assert (all_items P results) as Hall; [|by apply (Hall _ _ Hin)].
  apply (perform_column_comparison_inv P data op (results, warnings)); [|done].
  intros ref_data other_data merged c fr Hhead Hother _ _ _. by exists ref_data, other_data.
Qed.

(** X26: what the comparison returns, the loop over the results of
    [generate_excel_output] takes: it does not raise, whatever the key
    column and the threshold, since every stored difference column is
    numeric; and every pair of the set it builds carries the file name
    of one of the compared tables. *)
Theorem highlight_loop_takes_every_comparison data op results warnings
    (operation_column : string) (threshold_value : Z) :
  perform_column_comparison data op = Some (results, warnings) →
  ∃ highlighted,
    rows_to_highlight_map results operation_column threshold_value = Some highlighted ∧
    ∀ f k, (f, k) ∈ highlighted → ∃ t, t ∈ data ∧ Comparison.filename t = f.
Proof.
  intros Hrun. rw /rows_to_highlight_map.
  destruct (highlight_entries_total operation_column threshold_value results ∅)
    as [hl Hhl].
  { intros key df s Hin Hs.
    by destruct (stored_difference_column _ _ _ _ _ _ _ Hrun Hin Hs) as (r & o & ->). }
  exists hl. split; [done|]. intros f k Hfk.
  apply (highlight_entries_spec _ _ _ _ _ Hhl) in Hfk
    as [?%not_elem_of_empty|(c & rn & on & df & Hin & _ & Hf)]; [done|].
  destruct (result_keys_name_tables _ _ _ _ _ _ _ _ Hrun Hin)
    as (ref_data & other_data & Hhead & Hother & Hrn & Hon).
  destruct data as [|t data']; [done|]. injection Hhead as ->. simpl in Hother.
  destruct Hf as [-> | ->].
  - exists ref_data. split; [by left|done].
  - exists other_data. split; [by right|done].
Qed.

(** X25 at the two tables of the comparison tests: validated and then
    compared, they give the results of the comparison tests. *)
Lemma validated_tables_witness :
  (∀ item, item ∈ [parsed_file1; parsed_file2] →
           Validator.dataframe item ∈ dom parsed_heap) ∧
  (∀ item l, item ∈ [parsed_file1; parsed_file2] →
             l ∈ columns (parsed_heap !!! Validator.dataframe item) → plain_label l) ∧
  let r := validate_dataframes_for_processing decimal_of_string
             [parsed_file1; parsed_file2] "op_col" parsed_heap in
  ∃ results warnings,
    perform_column_comparison (map (validated_data r.2) r.1.1) "op_col"
    = Some (results, warnings) ∧
    results = results_1_2 ∧
    ∀ w, w ∈ warnings →
         w_type w ∈ [SetupWarning; DataWarning; MergeWarning; InternalLogicWarning].
Proof.
  assert (∀ item, item ∈ [parsed_file1; parsed_file2] →
            Validator.dataframe item ∈ dom parsed_heap) as Hdom.
  { intros item Hin. apply elem_of_dom.
    repeat (apply elem_of_cons in Hin as [->|Hin]; [by eexists|]).
    by apply elem_of_nil in Hin. }
  assert (∀ item l, item ∈ [parsed_file1; parsed_file2] →
            l ∈ columns (parsed_heap !!! Validator.dataframe item) → plain_label l)
    as Hplain.
  { intros item l Hin Hl.
    repeat (apply elem_of_cons in Hin as [->|Hin]); try (by apply elem_of_nil in Hin);
      vm_compute in Hl; repeat (apply elem_of_cons in Hl as [->|Hl]);
      try (by apply elem_of_nil in Hl); by apply plain_label_endswith. }
  split; [done|]. split; [done|]. intros r.
  destruct (validated_tables_are_compared decimal_of_string [parsed_file1; parsed_file2]
              "op_col" parsed_heap Hdom Hplain) as (results & warnings & Hrun & Hw).
  exists results, warnings. split_and!; [done| |done].
  assert (perform_column_comparison (map (validated_data r.2) r.1.1) "op_col"
          = Some (results_1_2, [])) as Hval.
  { by vm_compute. }
  fold r in Hrun. congruence.
Defined.

(** X26 at the comparison of the two test tables and the threshold 2,
    which only the difference 3 of [val1] at key 3 exceeds. *)
Lemma highlight_loop_witness :
  perform_column_comparison [file1; file2] "op_col" = Some (results_1_2, []) ∧
  ∃ highlighted,
    rows_to_highlight_map results_1_2 "op_col" 2 = Some highlighted ∧
    ("file1.csv", inl (Some 3%Z)) ∈ highlighted ∧
    ∀ f k, (f, k) ∈ highlighted → f = "file1.csv" ∨ f = "file2.csv".
Proof.
  split; [apply run_1_2|].
  destruct (highlight_loop_takes_every_comparison [file1; file2] "op_col" results_1_2 []
              "op_col" 2 run_1_2) as (highlighted & Hrun & Hnames).
  exists highlighted. split_and!; [done| |].
  - assert ((λ h : HighlightSet, bool_decide (("file1.csv", inl (Some 3%Z)) ∈ h))
              <$> rows_to_highlight_map results_1_2 "op_col" 2 = Some true) as Hval.
    { vm_compute. reflexivity. }
    rw Hrun /= in Hval. injection Hval as Hval. by apply bool_decide_eq_true in Hval.
  - intros f k (t & Ht & <-)%Hnames.
    repeat (apply elem_of_cons in Ht as [->|Ht]); [by left|by right|].
    by apply elem_of_nil in Ht.
Defined.

End PipelineProofs.
